(** * DDPG/main_classes.py: replay memory, actor and critic networks, agent.

    The numeric tensors of the program hold floating-point numbers; this
    development reads them as real numbers (exact arithmetic).  A tensor of
    rank one is a [list], a tensor of rank two a [list] of rows. *)

From Stdlib Require Import String.
From Stdlib Require Import Reals Lra Lia ZArith Bool Arith List Permutation.
Import ListNotations.

Set Implicit Arguments.

(** ** Exceptions *)

Inductive exn : Type :=
| ValueError
| AttributeError
| FileNotFoundError.

Inductive result (A : Type) : Type :=
| Ok (a : A)
| Raise (e : exn).

Arguments Ok {A} a.
Arguments Raise {A} e.

Definition bind {A B : Type} (r : result A) (k : A -> result B) : result B :=
  match r with
  | Ok a => k a
  | Raise e => Raise e
  end.

Notation "x <- r ;; k" := (bind r (fun x => k))
  (at level 61, r at next level, right associativity).

(** The value computed from two optional values when both are there. *)
Definition both {A B C : Type} (f : A -> B -> C) (x : option A) (y : option B) : option C :=
  match x, y with
  | Some a, Some b => Some (f a b)
  | _, _ => None
  end.

(** ** collections.deque with a maximal length *)

Module Deque.

Record deque (A : Type) : Type := mk {
  items : list A;
  maxlen : N
}.

(** [deque(maxlen = n)] *)
Definition empty (A : Type) (n : N) : deque A := mk [] n.

(** [d.append(x)]: the item is added on the right; when the deque then
    holds more than [maxlen] items, one item is dropped on the left. *)
Definition append {A : Type} (d : deque A) (x : A) : deque A :=
  let l := items d ++ [x] in
  mk (if (maxlen d <? N.of_nat (length l))%N then tl l else l) (maxlen d).

Definition len {A : Type} (d : deque A) : nat := length (items d).

End Deque.

(** ** random.sample *)

Module Random.

(** The position [i] was not drawn yet. *)
Definition fresh (rest : list nat) (i : nat) : bool :=
  negb (existsb (Nat.eqb i) rest).

(** The outcomes of [random.sample(population, k)] for a population of [n]
    items: the sequences of [k] pairwise different positions below [n].
    The library draws one of them, each with the same probability. *)
Fixpoint arrangements (n k : nat) : list (list nat) :=
  match k with
  | O => [[]]
  | S k' =>
      flat_map
        (fun rest =>
           map (fun i => i :: rest) (filter (fresh rest) (seq 0 n)))
        (arrangements n k')
  end.

(** The items at the drawn positions, in the order they were drawn. *)
Fixpoint gather {A : Type} (population : list A) (pick : list nat) : list A :=
  match pick with
  | [] => []
  | j :: rest =>
      match nth_error population j with
      | Some x => x :: gather population rest
      | None => gather population rest
      end
  end.

(** [random.sample(population, k)], with [pick] the outcome that the
    generator draws from [arrangements (length population) k]. *)
Definition sample {A : Type} (population : list A) (k : Z) (pick : list nat)
  : result (list A) :=
  if ((k <? 0) || (Z.of_nat (length population) <? k))%Z
  then Raise ValueError
  else Ok (gather population pick).

End Random.

(** ** class Replay_Memory *)

Definition experience : Type :=
  (list R * list R * list R * list R * bool)%type.

(** The five parts of a stored experience. *)
Definition exp_state (e : experience) : list R := fst (fst (fst (fst e))).
Definition exp_action (e : experience) : list R := snd (fst (fst (fst e))).
Definition exp_reward (e : experience) : list R := snd (fst (fst e)).
Definition exp_next_state (e : experience) : list R := snd (fst e).
Definition exp_done (e : experience) : bool := snd e.

Record Replay_Memory : Type := mkReplay_Memory {
  max_size : N;
  buffer : Deque.deque experience
}.

Definition Replay_Memory_init (max_size : N) : Replay_Memory :=
  mkReplay_Memory max_size (Deque.empty experience max_size).

Definition Replay_Memory_push (m : Replay_Memory)
  (state action : list R) (reward : R) (next_state : list R) (done : bool)
  : Replay_Memory :=
  let experience := (state, action, [reward], next_state, done) in
  mkReplay_Memory (max_size m) (Deque.append (buffer m) experience).

Definition batches : Type :=
  (list (list R) * list (list R) * list (list R) * list (list R) * list bool)%type.

(** The loop of [sample]: every experience of the batch is unpacked and its
    parts are appended to the five lists. *)
Fixpoint unpack_batch (batch : list experience) (acc : batches) : batches :=
  match batch with
  | [] => acc
  | (state, action, reward, next_state, done) :: rest =>
      let '(state_batch, action_batch, reward_batch, next_state_batch, done_batch) := acc in
      unpack_batch rest
        (state_batch ++ [state], action_batch ++ [action],
         reward_batch ++ [reward], next_state_batch ++ [next_state],
         done_batch ++ [negb done])
  end.

Definition Replay_Memory_sample (m : Replay_Memory) (batch_size : Z)
  (pick : list nat) : result batches :=
  batch <- Random.sample (Deque.items (buffer m)) batch_size pick ;;
  Ok (unpack_batch batch ([], [], [], [], [])).

Definition Replay_Memory_len (m : Replay_Memory) : nat :=
  Deque.len (buffer m).

(** The arguments of one call of [push], the experience that the call
    stores, and a sequence of calls. *)
Definition transition : Type := (list R * list R * R * list R * bool)%type.

Definition stored (x : transition) : experience :=
  let '(state, action, reward, next_state, done) := x in
  (state, action, [reward], next_state, done).

Definition push_transition (m : Replay_Memory) (x : transition) : Replay_Memory :=
  let '(state, action, reward, next_state, done) := x in
  Replay_Memory_push m state action reward next_state done.

Definition push_all (m : Replay_Memory) (l : list transition) : Replay_Memory :=
  fold_left push_transition l m.

Local Open Scope R_scope.

(** ** The tensor library: values with a computation graph *)

Module Torch.

(** The four networks of the agent own disjoint sets of parameters. *)
Inductive owner : Type :=
| OnlineCritic
| TargetCritic
| OnlineActor
| TargetActor.

Inductive layer : Type := fc1 | bn1 | fc2 | bn2 | action_value | q | mu.

Inductive pname : Type := pweight | pbias.

(** The place of one scalar parameter inside a network: the layer, the
    tensor of the layer, and the row and column inside the tensor (the row
    of a tensor of rank one is [0]). *)
Record key : Type := mkKey {
  k_layer : layer;
  k_pname : pname;
  k_row : nat;
  k_col : nat
}.

Definition owner_eqb (a b : owner) : bool :=
  match a, b with
  | OnlineCritic, OnlineCritic | TargetCritic, TargetCritic
  | OnlineActor, OnlineActor | TargetActor, TargetActor => true
  | _, _ => false
  end.

Definition layer_eqb (a b : layer) : bool :=
  match a, b with
  | fc1, fc1 | bn1, bn1 | fc2, fc2 | bn2, bn2
  | action_value, action_value | q, q | mu, mu => true
  | _, _ => false
  end.

Definition pname_eqb (a b : pname) : bool :=
  match a, b with
  | pweight, pweight | pbias, pbias => true
  | _, _ => false
  end.

Definition key_eqb (a b : key) : bool :=
  layer_eqb (k_layer a) (k_layer b) && pname_eqb (k_pname a) (k_pname b)
  && Nat.eqb (k_row a) (k_row b) && Nat.eqb (k_col a) (k_col b).

(** One scalar of a tensor together with the graph that produced it.  A
    [Leaf] is a parameter of a network (it requires a gradient); a [Const]
    is data that came from outside the graph. *)
Inductive node : Type :=
| Const (v : R)
| Leaf (o : owner) (k : key) (v : R)
| Add (a b : node)
| Sub (a b : node)
| Mul (a b : node)
| Div (a b : node)
| Neg (a : node)
| Sqrt (a : node)
| Relu (a : node)
| Tanh (a : node)
| Abs (a : node)
| Detach (a : node).

(** The value held by a node. *)
Fixpoint eval (e : node) : R :=
  match e with
  | Const v => v
  | Leaf _ _ v => v
  | Add a b => eval a + eval b
  | Sub a b => eval a - eval b
  | Mul a b => eval a * eval b
  | Div a b => eval a / eval b
  | Neg a => - eval a
  | Sqrt a => sqrt (eval a)
  | Relu a => Rmax 0 (eval a)
  | Tanh a => tanh (eval a)
  | Abs a => Rabs (eval a)
  | Detach a => eval a
  end.

(** [t.requires_grad]: the graph of the node reaches a parameter. *)
Fixpoint requires_grad (e : node) : bool :=
  match e with
  | Const _ => false
  | Leaf _ _ _ => true
  | Add a b | Sub a b | Mul a b | Div a b => requires_grad a || requires_grad b
  | Neg a | Sqrt a | Relu a | Tanh a | Abs a => requires_grad a
  | Detach _ => false
  end.

(** The [.grad] fields of all parameters. *)
Definition grad_store : Type := owner -> key -> R.

Definition accumulate (o : owner) (k : key) (s : R) (g : grad_store) : grad_store :=
  fun o' k' => if owner_eqb o o' && key_eqb k k' then g o' k' + s else g o' k'.

(** No parameter has a gradient yet. *)
Definition no_grad : grad_store := fun _ _ => 0.

(** [optimizer.zero_grad()] for the parameters of one network. *)
Definition zero_grad (o : owner) (g : grad_store) : grad_store :=
  fun o' k' => if owner_eqb o o' then 0 else g o' k'.

(** Reverse-mode differentiation: [backward_from e s g] sends the incoming
    gradient [s] down the graph of [e] and adds what arrives at every leaf
    to its [.grad]. *)
Fixpoint backward_from (e : node) (s : R) (g : grad_store) : grad_store :=
  match e with
  | Const _ => g
  | Leaf o k _ => accumulate o k s g
  | Add a b => backward_from b s (backward_from a s g)
  | Sub a b => backward_from b (- s) (backward_from a s g)
  | Mul a b => backward_from b (s * eval a) (backward_from a (s * eval b) g)
  | Div a b =>
      backward_from b (- (s * eval a) / (eval b * eval b))
        (backward_from a (s / eval b) g)
  | Neg a => backward_from a (- s) g
  | Sqrt a => backward_from a (s / (2 * sqrt (eval a))) g
  | Relu a => backward_from a (if Rlt_dec 0 (eval a) then s else 0) g
  | Tanh a => backward_from a (s * (1 - tanh (eval a) * tanh (eval a))) g
  | Abs a =>
      backward_from a
        (if Rlt_dec 0 (eval a) then s else if Rlt_dec (eval a) 0 then - s else 0) g
  | Detach _ => g
  end.

(** [loss.backward()] *)
Definition backward (loss : node) (g : grad_store) : grad_store :=
  backward_from loss 1 g.

(** *** Tensors of rank one and two *)

Fixpoint imap_from {A B : Type} (n : nat) (f : nat -> A -> B) (l : list A) : list B :=
  match l with
  | [] => []
  | x :: r => f n x :: imap_from (S n) f r
  end.

Definition imap {A B : Type} (f : nat -> A -> B) (l : list A) : list B :=
  imap_from 0 f l.

Fixpoint map2 {A B C : Type} (f : A -> B -> C) (l : list A) (l' : list B) : list C :=
  match l, l' with
  | x :: r, y :: r' => f x y :: map2 f r r'
  | _, _ => []
  end.

Definition lookup2 {A : Type} (m : list (list A)) (i j : nat) : option A :=
  match nth_error m i with
  | Some r => nth_error r j
  | None => None
  end.

(** [t.sum()] and [t.mean()] over a tensor of rank one *)
Definition sum (l : list node) : node := fold_left Add l (Const 0).

Definition mean (l : list node) : node :=
  Div (sum l) (Const (INR (length l))).

(** [F.relu], [torch.tanh], [torch.add] *)
Definition relu (x : list node) : list node := map Relu x.
Definition tanh (x : list node) : list node := map Tanh x.
Definition add (x y : list node) : list node := map2 Add x y.

(** [torch.tensor(data, dtype = torch.float)] *)
Definition tensor (data : list R) : list node := map Const data.

(** [nn.MSELoss()]: the mean, over all elements of the two tensors of rank
    two, of the squared difference. *)
Definition MSELoss (input target : list (list node)) : node :=
  mean (map2 (fun x y => Mul (Sub x y) (Sub x y)) (concat input) (concat target)).

(** [nn.L1Loss()]: the mean of the absolute difference. *)
Definition L1Loss (input target : list (list node)) : node :=
  mean (map2 (fun x y => Abs (Sub x y)) (concat input) (concat target)).

(** The graph of the node reaches a parameter of the network [o]. *)
Fixpoint reaches (o : owner) (e : node) : bool :=
  match e with
  | Const _ => false
  | Leaf o' _ _ => owner_eqb o o'
  | Add a b | Sub a b | Mul a b | Div a b => reaches o a || reaches o b
  | Neg a | Sqrt a | Relu a | Tanh a | Abs a => reaches o a
  | Detach _ => false
  end.

(** The graph of the node does not reach the network [o]. *)
Definition clean (o : owner) (e : node) : Prop := reaches o e = false.

(** Two graphs that differ only where neither reaches a parameter of the
    network [o], and hold the same values there. *)
Inductive similar (o : owner) : node -> node -> Prop :=
| similar_refl (e : node) : similar o e e
| similar_cut (e e' : node) :
    eval e = eval e' -> reaches o e = false -> reaches o e' = false ->
    similar o e e'
| similar_Add (a a' b b' : node) :
    similar o a a' -> similar o b b' -> similar o (Add a b) (Add a' b')
| similar_Sub (a a' b b' : node) :
    similar o a a' -> similar o b b' -> similar o (Sub a b) (Sub a' b')
| similar_Mul (a a' b b' : node) :
    similar o a a' -> similar o b b' -> similar o (Mul a b) (Mul a' b')
| similar_Div (a a' b b' : node) :
    similar o a a' -> similar o b b' -> similar o (Div a b) (Div a' b').

(** The mean squared error of two lists of numbers. *)
Definition mse (xs ys : list R) : R :=
  let squares := map2 (fun x y => (x - y) * (x - y)) xs ys in
  fold_left Rplus squares 0 / INR (length squares).

(** The regression targets as numbers: the reward plus [gamma] times the
    continuation flag times the value of the next state. *)
Definition target_values (gamma : R) (rewards : list (list R)) (not_done : list bool)
  (q_next : list (list R)) : list (list R) :=
  map2 (map2 Rplus) rewards
    (map2 (map2 Rmult)
       (map (fun b : bool => [gamma * (if b then 1 else 0)]) not_done) q_next).

(** *** The parameters of a module

    [parameters()] lists the parameter tensors of a module; the operations
    of the program on them work scalar by scalar, on one module ([pimap]) or
    on two modules of the same architecture side by side ([pmap2], the
    [zip] of two [parameters()]). *)

Class Parameters (P : Type -> Type) : Type := {
  pimap : forall A B : Type, (key -> A -> B) -> P A -> P B;
  pmap2 : forall A B C : Type, (A -> B -> C) -> P A -> P B -> P C;
  plookup : forall A : Type, P A -> key -> option A
}.

Arguments pimap {P _ A B} f p.
Arguments pmap2 {P _ A B C} f p p'.
Arguments plookup {P _ A} p k.

(** Two modules have the same architecture: their parameter tensors have
    the same shapes. *)
Definition same_shape {P : Type -> Type} `{Parameters P} {A B : Type}
  (p : P A) (p' : P B) : Prop :=
  pimap (fun _ _ => tt) p = pimap (fun _ _ => tt) p'.

(** The parameters of a module as leaves of the graph. *)
Definition leaves {P : Type -> Type} `{Parameters P} (o : owner) (p : P R) : P node :=
  pimap (fun k v => Leaf o k v) p.

(** The [.grad] fields of the parameters of a module. *)
Definition grads {P : Type -> Type} `{Parameters P} (o : owner) (g : grad_store)
  (p : P R) : P R :=
  pimap (fun k _ => g o k) p.

(** *** nn.Linear *)

Module Linear.

Record t (A : Type) : Type := mk {
  weight : list (list A);
  bias : list A
}.

Definition imap {A B : Type} (l : layer) (f : key -> A -> B) (m : t A) : t B :=
  mk (Torch.imap (fun r => Torch.imap (fun c => f (mkKey l pweight r c))) (weight m))
     (Torch.imap (fun c => f (mkKey l pbias 0 c)) (bias m)).

Definition map2 {A B C : Type} (f : A -> B -> C) (m : t A) (m' : t B) : t C :=
  mk (Torch.map2 (Torch.map2 f) (weight m) (weight m'))
     (Torch.map2 f (bias m) (bias m')).

Definition lookup {A : Type} (m : t A) (p : pname) (r c : nat) : option A :=
  match p with
  | pweight => lookup2 (weight m) r c
  | pbias => if Nat.eqb r 0 then nth_error (bias m) c else None
  end.

(** Every parameter of the layer satisfies [P]. *)
Definition all {A : Type} (P : A -> Prop) (m : t A) : Prop :=
  Forall (Forall P) (weight m) /\ Forall P (bias m).

(** The layer has at least one output, and every output reads at least
    one input. *)
Definition populated {A : Type} (m : t A) : bool :=
  (0 <? length (weight m))%nat && (0 <? length (bias m))%nat &&
  forallb (fun row : list A => (0 <? length row)%nat) (weight m).

(** [F.linear(input, weight, bias)] on one sample: the product of the input
    with the transposed weight, plus the bias. *)
Definition forward (m : t node) (input : list node) : list node :=
  Torch.map2 (fun w b => Add (sum (Torch.map2 Mul input w)) b) (weight m) (bias m).

End Linear.

(** *** nn.LayerNorm over the last dimension, with an elementwise affine map *)

Module LayerNorm.

Record t (A : Type) : Type := mk {
  weight : list A;
  bias : list A
}.

Definition eps : R := 1 / 100000.

Definition imap {A B : Type} (l : layer) (f : key -> A -> B) (m : t A) : t B :=
  mk (Torch.imap (fun c => f (mkKey l pweight 0 c)) (weight m))
     (Torch.imap (fun c => f (mkKey l pbias 0 c)) (bias m)).

Definition map2 {A B C : Type} (f : A -> B -> C) (m : t A) (m' : t B) : t C :=
  mk (Torch.map2 f (weight m) (weight m')) (Torch.map2 f (bias m) (bias m')).

Definition lookup {A : Type} (m : t A) (p : pname) (r c : nat) : option A :=
  if Nat.eqb r 0
  then match p with
       | pweight => nth_error (weight m) c
       | pbias => nth_error (bias m) c
       end
  else None.

(** Every parameter of the layer satisfies [P]. *)
Definition all {A : Type} (P : A -> Prop) (m : t A) : Prop :=
  Forall P (weight m) /\ Forall P (bias m).

(** The layer normalises at least one feature. *)
Definition populated {A : Type} (m : t A) : bool :=
  (0 <? length (weight m))%nat && (0 <? length (bias m))%nat.

(** One sample is normalised by its own mean and (biased) variance. *)
Definition forward (m : t node) (input : list node) : list node :=
  let mu := mean input in
  let var := mean (map (fun x => Mul (Sub x mu) (Sub x mu)) input) in
  let normalised := map (fun x => Div (Sub x mu) (Sqrt (Add var (Const eps)))) input in
  Torch.map2 Add (Torch.map2 Mul normalised (weight m)) (bias m).

(** [nn.LayerNorm(n)]: weights one, biases zero. *)
Definition init (n : nat) : t R := mk (repeat 1 n) (repeat 0 n).

End LayerNorm.

(** [w] lies between [-f] and [f]. *)
Definition within (f : R) (w : R) : Prop := - f <= w <= f.

(** *** The random number generator *)

Module Generator.

(** The numbers the generator will hand out, each in [0, 1), and how many
    of them were handed out so far. *)
Record t : Type := mk {
  stream : nat -> R;
  pos : nat
}.

Definition next (g : t) : R * t :=
  (stream g (pos g), mk (stream g) (S (pos g))).

(** Every draw lies in [0, 1). *)
Definition unit_draws (g : t) : Prop :=
  forall i : nat, 0 <= stream g i < 1.

End Generator.

(** [torch.nn.init.uniform_(tensor, a, b)] fills the tensor with draws from
    the uniform distribution between [a] and [b]. *)
Fixpoint uniform_ (tensor : list R) (a b : R) (g : Generator.t) : list R * Generator.t :=
  match tensor with
  | [] => ([], g)
  | _ :: rest =>
      let (u, g1) := Generator.next g in
      let (rest', g2) := uniform_ rest a b g1 in
      ((a + (b - a) * u) :: rest', g2)
  end.

Fixpoint uniform2_ (tensor : list (list R)) (a b : R) (g : Generator.t)
  : list (list R) * Generator.t :=
  match tensor with
  | [] => ([], g)
  | row :: rest =>
      let (row', g1) := uniform_ row a b g in
      let (rest', g2) := uniform2_ rest a b g1 in
      (row' :: rest', g2)
  end.

(** [nn.Linear(in_features, out_features)]: a weight of [out_features] rows
    and [in_features] columns and a bias of [out_features] entries, both
    drawn between [-1/sqrt(in_features)] and [1/sqrt(in_features)]. *)
Definition Linear_init (in_features out_features : nat) (g : Generator.t)
  : Linear.t R * Generator.t :=
  let bound := 1 / sqrt (INR in_features) in
  let (w, g1) := uniform2_ (repeat (repeat 0 in_features) out_features) (- bound) bound g in
  let (b, g2) := uniform_ (repeat 0 out_features) (- bound) bound g1 in
  (Linear.mk w b, g2).

(** *** torch.optim.Adam (without amsgrad) *)

Module Adam.

Record t (P : Type -> Type) : Type := mk {
  lr : R;
  beta1 : R;
  beta2 : R;
  eps : R;
  weight_decay : R;
  step_count : nat;
  exp_avg : P R;
  exp_avg_sq : P R
}.

(** [torch.optim.Adam(params, lr = lr, weight_decay = weight_decay)] *)
Definition init {P : Type -> Type} `{Parameters P} (params : P R) (lr weight_decay : R) : t P :=
  @mk P lr (9 / 10) (999 / 1000) (1 / 100000000) weight_decay 0
     (pimap (fun _ _ => 0) params) (pimap (fun _ _ => 0) params).

(** [optimizer.step()]: one update of every parameter from its [.grad]. *)
Definition step {P : Type -> Type} `{Parameters P} (o : t P) (params grad : P R)
  : P R * t P :=
  let n := S (step_count o) in
  let grad := pmap2 (fun g p => g + weight_decay o * p) grad params in
  let m := pmap2 (fun m g => beta1 o * m + (1 - beta1 o) * g) (exp_avg o) grad in
  let v := pmap2 (fun v g => beta2 o * v + (1 - beta2 o) * (g * g)) (exp_avg_sq o) grad in
  let bias_correction1 := 1 - beta1 o ^ n in
  let bias_correction2 := 1 - beta2 o ^ n in
  let step_size := lr o / bias_correction1 in
  let update := pmap2 (fun m v => m / (sqrt v / sqrt bias_correction2 + eps o)) m v in
  (pmap2 (fun p u => p - step_size * u) params update,
   @mk P (lr o) (beta1 o) (beta2 o) (eps o) (weight_decay o) n m v).

End Adam.

(** *** Files *)

(** [module.state_dict()]: the value stored under every parameter name. *)
Definition state_dict : Type := key -> option R.

Record filesystem : Type := mkFilesystem {
  dirs : list string;
  files : list (string * state_dict)
}.

(** [os.path.exists(path)] for a directory *)
Definition exists_dir (fs : filesystem) (path : string) : bool :=
  existsb (String.eqb path) (dirs fs).

(** [os.makedirs(path)] *)
Definition makedirs (fs : filesystem) (path : string) : filesystem :=
  mkFilesystem (path :: dirs fs) (files fs).

(** The files after the constructor of a network: when a name is given
    and the directory is not there, the directory is made. *)
Definition with_directory (name : option string) (chkpt : string) (fs : filesystem)
  : filesystem :=
  match name with
  | Some _ => if exists_dir fs chkpt then fs else makedirs fs chkpt
  | None => fs
  end.

(** [os.path.join(a, b)] *)
Definition path_join (a b : string) : string := (a ++ "/" ++ b)%string.

(** [torch.save(obj, f)] *)
Definition save (fs : filesystem) (f : string) (obj : state_dict) : filesystem :=
  mkFilesystem (dirs fs) ((f, obj) :: files fs).

(** [torch.load(f)] *)
Fixpoint find_file (l : list (string * state_dict)) (f : string) : option state_dict :=
  match l with
  | [] => None
  | (name, obj) :: rest => if String.eqb name f then Some obj else find_file rest f
  end.

Definition load (fs : filesystem) (f : string) : result state_dict :=
  match find_file (files fs) f with
  | Some obj => Ok obj
  | None => Raise FileNotFoundError
  end.

(** [module.load_state_dict(d)], for a dictionary written from a module of
    the same architecture: every parameter takes the stored value. *)
Definition load_state_dict {P : Type -> Type} `{Parameters P} (p : P R) (d : state_dict) : P R :=
  pimap (fun k v => match d k with Some v' => v' | None => v end) p.

End Torch.

(** ** The action space of the environment *)

Module Box.

(** What the program reads from a box space: the first entry of its shape
    and the arrays of its lower and upper bounds. *)
Record t : Type := mk {
  shape_0 : nat;
  low : list R;
  high : list R
}.

End Box.

(** ** class OUNoise *)

Module OUNoise.

Record t : Type := mk {
  mu : R;
  theta : R;
  sigma : R;
  max_sigma : R;
  min_sigma : R;
  decay_period : R;
  action_dim : nat;
  low : list R;
  high : list R;
  state : list R
}.

Definition set_state (n : t) (x : list R) : t :=
  mk (mu n) (theta n) (sigma n) (max_sigma n) (min_sigma n) (decay_period n)
     (action_dim n) (low n) (high n) x.

Definition set_sigma (n : t) (s : R) : t :=
  mk (mu n) (theta n) s (max_sigma n) (min_sigma n) (decay_period n)
     (action_dim n) (low n) (high n) (state n).

(** [self.state = np.ones(self.action_dim) * self.mu] *)
Definition reset (n : t) : t :=
  set_state n (map (fun one => one * mu n) (repeat 1 (action_dim n))).

(** [OUNoise(action_space, mu, theta, max_sigma, min_sigma, decay_period)] *)
Definition init (action_space : Box.t) (mu theta max_sigma min_sigma decay_period : R) : t :=
  reset (mk mu theta max_sigma max_sigma min_sigma decay_period
            (Box.shape_0 action_space) (Box.low action_space) (Box.high action_space) []).

(** The constructor with every optional argument at its default. *)
Definition init_default (action_space : Box.t) : t :=
  init action_space 0 (15 / 100) (3 / 10) (3 / 10) 100000.

(** [randn] holds the draws of [np.random.randn(self.action_dim)]. *)
Definition evolve_state (n : t) (randn : list R) : t * list R :=
  let x := state n in
  let dx :=
    Torch.map2 Rplus (map (fun xi => theta n * (mu n - xi)) x)
      (map (fun e => sigma n * e) randn) in
  let n' := set_state n (Torch.map2 Rplus x dx) in
  (n', state n').

(** [np.clip(a, a_min, a_max)], entry by entry *)
Definition clip (a a_min a_max : list R) : list R :=
  Torch.map2 Rmin (Torch.map2 Rmax a a_min) a_max.

Inductive arithmetic_error : Type := ZeroDivisionError.

Inductive returned (A : Type) : Type :=
| Returns (a : A)
| Raises (e : arithmetic_error).

Arguments Returns {A} a.
Arguments Raises {A} e.

(** [get_action(action, t)]: the process as the call leaves it, and what
    the call returns or raises.  The step [t] and the [decay_period] are
    numbers of the language, as the defaults are, so the division by a
    [decay_period] of zero raises, after the state has evolved. *)
Definition get_action (n : t) (action : list R) (t : R) (randn : list R)
  : OUNoise.t * returned (list R) :=
  let (n1, ou_state) := evolve_state n randn in
  if Req_EM_T (decay_period n1) 0
  then (n1, Raises ZeroDivisionError)
  else
    let n2 :=
      set_sigma n1
        (max_sigma n1 - (max_sigma n1 - min_sigma n1) * Rmin 1 (t / decay_period n1)) in
    (n2, Returns (clip (Torch.map2 Rplus action ou_state) (low n2) (high n2))).

End OUNoise.

(** ** class NormalizedEnv *)

Module NormalizedEnv.

(** [action(action)]: from the interval [-1, 1] to the bounds of the
    action space. *)
Definition action (action_space : Box.t) (action : list R) : list R :=
  let act_k :=
    map (fun d => d / 2) (Torch.map2 Rminus (Box.high action_space) (Box.low action_space)) in
  let act_b :=
    map (fun d => d / 2) (Torch.map2 Rplus (Box.high action_space) (Box.low action_space)) in
  Torch.map2 Rplus (Torch.map2 Rmult act_k action) act_b.

(** [reverse_action(action)] *)
Definition reverse_action (action_space : Box.t) (action : list R) : list R :=
  let act_k_inv :=
    map (fun d => 2 / d) (Torch.map2 Rminus (Box.high action_space) (Box.low action_space)) in
  let act_b :=
    map (fun d => d / 2) (Torch.map2 Rplus (Box.high action_space) (Box.low action_space)) in
  Torch.map2 Rmult act_k_inv (Torch.map2 Rminus action act_b).

End NormalizedEnv.

(** ** class Critic *)

Module Critic.

Import Torch.

(** The parameter tensors, layer by layer in the order of registration. *)
Record params (A : Type) : Type := mkParams {
  fc1 : Linear.t A;
  bn1 : LayerNorm.t A;
  fc2 : Linear.t A;
  bn2 : LayerNorm.t A;
  action_value : Linear.t A;
  q : Linear.t A
}.

Definition imap {A B : Type} (f : key -> A -> B) (p : params A) : params B :=
  mkParams (Linear.imap Torch.fc1 f (fc1 p)) (LayerNorm.imap Torch.bn1 f (bn1 p))
           (Linear.imap Torch.fc2 f (fc2 p)) (LayerNorm.imap Torch.bn2 f (bn2 p))
           (Linear.imap Torch.action_value f (action_value p)) (Linear.imap Torch.q f (q p)).

Definition map2 {A B C : Type} (f : A -> B -> C) (p : params A) (p' : params B) : params C :=
  mkParams (Linear.map2 f (fc1 p) (fc1 p')) (LayerNorm.map2 f (bn1 p) (bn1 p'))
           (Linear.map2 f (fc2 p) (fc2 p')) (LayerNorm.map2 f (bn2 p) (bn2 p'))
           (Linear.map2 f (action_value p) (action_value p'))
           (Linear.map2 f (q p) (q p')).

Definition lookup {A : Type} (p : params A) (k : key) : option A :=
  match k_layer k with
  | Torch.fc1 => Linear.lookup (fc1 p) (k_pname k) (k_row k) (k_col k)
  | Torch.bn1 => LayerNorm.lookup (bn1 p) (k_pname k) (k_row k) (k_col k)
  | Torch.fc2 => Linear.lookup (fc2 p) (k_pname k) (k_row k) (k_col k)
  | Torch.bn2 => LayerNorm.lookup (bn2 p) (k_pname k) (k_row k) (k_col k)
  | Torch.action_value => Linear.lookup (action_value p) (k_pname k) (k_row k) (k_col k)
  | Torch.q => Linear.lookup (q p) (k_pname k) (k_row k) (k_col k)
  | Torch.mu => None
  end.

#[global] Instance Parameters_params : Parameters params :=
  {| pimap := @imap; pmap2 := @map2; plookup := @lookup |}.

(** Every parameter of the network satisfies [P]. *)
Definition all {A : Type} (P : A -> Prop) (p : params A) : Prop :=
  Linear.all P (fc1 p) /\ LayerNorm.all P (bn1 p) /\
  Linear.all P (fc2 p) /\ LayerNorm.all P (bn2 p) /\ 
  Linear.all P (action_value p) /\ Linear.all P (q p).

(** Every layer of the network has at least one unit and one input. *)
Definition populated {A : Type} (p : params A) : bool :=
  Linear.populated (fc1 p) && LayerNorm.populated (bn1 p) &&
  Linear.populated (fc2 p) && LayerNorm.populated (bn2 p) &&
  Linear.populated (action_value p) && Linear.populated (q p).

Record t : Type := mk {
  input_dim : nat;
  fc1_dim : nat;
  fc2_dim : nat;
  n_actions : nat;
  filename : option string;
  training : bool;
  parameters : params R
}.

Definition set_parameters (m : t) (p : params R) : t :=
  mk (input_dim m) (fc1_dim m) (fc2_dim m) (n_actions m) (filename m) (training m) p.

(** [m.train()] and [m.eval()] *)
Definition set_training (m : t) (mode : bool) : t :=
  mk (input_dim m) (fc1_dim m) (fc2_dim m) (n_actions m) (filename m) mode (parameters m).

(** [Critic(input_dim, fc1_dim, fc2_dim, n_actions, name, chkpt)], for an
    observation space of rank one with [input_dim] entries. *)
Definition init (input_dim fc1_dim fc2_dim n_actions : nat) (name : option string)
  (chkpt : string) (fs : filesystem) (g : Generator.t) : t * filesystem * Generator.t :=
  let (filename, fs) :=
    match name with
    | Some name =>
        (Some (path_join chkpt (name ++ "_ddpg")%string),
         if exists_dir fs chkpt then fs else makedirs fs chkpt)
    | None => (None, fs)
    end in
  let (fc1, g) := Linear_init input_dim fc1_dim g in
  let bn1 := LayerNorm.init fc1_dim in
  let (fc2, g) := Linear_init fc1_dim fc2_dim g in
  let bn2 := LayerNorm.init fc2_dim in
  let (action_value, g) := Linear_init n_actions fc2_dim g in
  let (q, g) := Linear_init fc2_dim 1 g in
  (mk input_dim fc1_dim fc2_dim n_actions filename true
      (mkParams fc1 bn1 fc2 bn2 action_value q), fs, g).

(** [forward(state, action)] on one sample; on a batch every row is one
    sample. *)
Definition forward (p : params node) (state action : list node) : list node :=
  let state_value := Linear.forward (fc1 p) state in
  let state_value := LayerNorm.forward (bn1 p) state_value in
  let state_value := relu state_value in
  let state_value := Linear.forward (fc2 p) state_value in
  let state_value := LayerNorm.forward (bn2 p) state_value in
  let action_value := relu (Linear.forward (action_value p) action) in
  let state_action_value := relu (add state_value action_value) in
  let state_action_value := Linear.forward (q p) state_action_value in
  state_action_value.

Definition forward_batch (p : params node) (state action : list (list node))
  : list (list node) :=
  Torch.map2 (forward p) state action.

Definition init_weights (m : t) (g : Generator.t) : t * Generator.t :=
  let p := parameters m in
  let f1 := 1 / sqrt (INR (length (Linear.weight (fc1 p)))) in
  let f2 := 1 / sqrt (INR (length (Linear.weight (fc2 p)))) in
  let f3 := 3 / 1000 in
  let (fc1_weight, g) := uniform2_ (Linear.weight (fc1 p)) (- f1) f1 g in
  let (fc1_bias, g) := uniform_ (Linear.bias (fc1 p)) (- f1) f1 g in
  let (fc2_weight, g) := uniform2_ (Linear.weight (fc2 p)) (- f2) f2 g in
  let (fc2_bias, g) := uniform_ (Linear.bias (fc2 p)) (- f2) f2 g in
  let (q_weight, g) := uniform2_ (Linear.weight (q p)) (- f3) f3 g in
  let (q_bias, g) := uniform_ (Linear.bias (q p)) (- f3) f3 g in
  (set_parameters m
     (mkParams (Linear.mk fc1_weight fc1_bias) (bn1 p)
               (Linear.mk fc2_weight fc2_bias) (bn2 p)
               (action_value p) (Linear.mk q_weight q_bias)), g).

Definition save_checkpoint (m : t) (fs : filesystem) : result filesystem :=
  match filename m with
  | Some f => Ok (save fs f (plookup (parameters m)))
  | None => Raise AttributeError
  end.

Definition load_checkpoint (m : t) (fs : filesystem) : result t :=
  match filename m with
  | Some f =>
      d <- load fs f ;;
      Ok (set_parameters m (load_state_dict (parameters m) d))
  | None => Raise AttributeError
  end.

End Critic.

(** ** class Actor *)

Module Actor.

Import Torch.

(** The parameter tensors, layer by layer in the order of registration. *)
Record params (A : Type) : Type := mkParams {
  fc1 : Linear.t A;
  bn1 : LayerNorm.t A;
  fc2 : Linear.t A;
  bn2 : LayerNorm.t A;
  mu : Linear.t A
}.

Definition imap {A B : Type} (f : key -> A -> B) (p : params A) : params B :=
  mkParams (Linear.imap Torch.fc1 f (fc1 p)) (LayerNorm.imap Torch.bn1 f (bn1 p))
           (Linear.imap Torch.fc2 f (fc2 p)) (LayerNorm.imap Torch.bn2 f (bn2 p))
           (Linear.imap Torch.mu f (mu p)).

Definition map2 {A B C : Type} (f : A -> B -> C) (p : params A) (p' : params B) : params C :=
  mkParams (Linear.map2 f (fc1 p) (fc1 p')) (LayerNorm.map2 f (bn1 p) (bn1 p'))
           (Linear.map2 f (fc2 p) (fc2 p')) (LayerNorm.map2 f (bn2 p) (bn2 p'))
           (Linear.map2 f (mu p) (mu p')).

Definition lookup {A : Type} (p : params A) (k : key) : option A :=
  match k_layer k with
  | Torch.fc1 => Linear.lookup (fc1 p) (k_pname k) (k_row k) (k_col k)
  | Torch.bn1 => LayerNorm.lookup (bn1 p) (k_pname k) (k_row k) (k_col k)
  | Torch.fc2 => Linear.lookup (fc2 p) (k_pname k) (k_row k) (k_col k)
  | Torch.bn2 => LayerNorm.lookup (bn2 p) (k_pname k) (k_row k) (k_col k)
  | Torch.mu => Linear.lookup (mu p) (k_pname k) (k_row k) (k_col k)
  | Torch.action_value | Torch.q => None
  end.

#[global] Instance Parameters_params : Parameters params :=
  {| pimap := @imap; pmap2 := @map2; plookup := @lookup |}.

(** Every parameter of the network satisfies [P]. *)
Definition all {A : Type} (P : A -> Prop) (p : params A) : Prop :=
  Linear.all P (fc1 p) /\ LayerNorm.all P (bn1 p) /\
  Linear.all P (fc2 p) /\ LayerNorm.all P (bn2 p) /\ Linear.all P (mu p).

(** Every layer of the network has at least one unit and one input. *)
Definition populated {A : Type} (p : params A) : bool :=
  Linear.populated (fc1 p) && LayerNorm.populated (bn1 p) &&
  Linear.populated (fc2 p) && LayerNorm.populated (bn2 p) &&
  Linear.populated (mu p).

Record t : Type := mk {
  input_dim : nat;
  fc1_dim : nat;
  fc2_dim : nat;
  n_actions : nat;
  filename : option string;
  training : bool;
  parameters : params R
}.

Definition set_parameters (m : t) (p : params R) : t :=
  mk (input_dim m) (fc1_dim m) (fc2_dim m) (n_actions m) (filename m) (training m) p.

(** [m.train()] and [m.eval()] *)
Definition set_training (m : t) (mode : bool) : t :=
  mk (input_dim m) (fc1_dim m) (fc2_dim m) (n_actions m) (filename m) mode (parameters m).

(** [Actor(input_dim, fc1_dim, fc2_dim, n_actions, name, chkpt)], for an
    observation space of rank one with [input_dim] entries. *)
Definition init (input_dim fc1_dim fc2_dim n_actions : nat) (name : option string)
  (chkpt : string) (fs : filesystem) (g : Generator.t) : t * filesystem * Generator.t :=
  let (filename, fs) :=
    match name with
    | Some name =>
        (Some (path_join chkpt (name ++ "_ddpg")%string),
         if exists_dir fs chkpt then fs else makedirs fs chkpt)
    | None => (None, fs)
    end in
  let (fc1, g) := Linear_init input_dim fc1_dim g in
  let bn1 := LayerNorm.init fc1_dim in
  let (fc2, g) := Linear_init fc1_dim fc2_dim g in
  let bn2 := LayerNorm.init fc2_dim in
  let (mu, g) := Linear_init fc2_dim n_actions g in
  (mk input_dim fc1_dim fc2_dim n_actions filename true
      (mkParams fc1 bn1 fc2 bn2 mu), fs, g).

(** [forward(state)] on one sample; on a batch every row is one sample. *)
Definition forward (p : params node) (state : list node) : list node :=
  let x := Linear.forward (fc1 p) state in
  let x := LayerNorm.forward (bn1 p) x in
  let x := relu x in
  let x := Linear.forward (fc2 p) x in
  let x := LayerNorm.forward (bn2 p) x in
  let x := relu x in
  let x := Torch.tanh (Linear.forward (mu p) x) in
  x.

Definition forward_batch (p : params node) (state : list (list node))
  : list (list node) :=
  map (forward p) state.

Definition init_weights (m : t) (g : Generator.t) : t * Generator.t :=
  let p := parameters m in
  let f1 := 1 / sqrt (INR (length (Linear.weight (fc1 p)))) in
  let f2 := 1 / sqrt (INR (length (Linear.weight (fc2 p)))) in
  let f3 := 3 / 1000 in
  let (fc1_weight, g) := uniform2_ (Linear.weight (fc1 p)) (- f1) f1 g in
  let (fc1_bias, g) := uniform_ (Linear.bias (fc1 p)) (- f1) f1 g in
  let (fc2_weight, g) := uniform2_ (Linear.weight (fc2 p)) (- f2) f2 g in
  let (fc2_bias, g) := uniform_ (Linear.bias (fc2 p)) (- f2) f2 g in
  let (mu_weight, g) := uniform2_ (Linear.weight (mu p)) (- f3) f3 g in
  let (mu_bias, g) := uniform_ (Linear.bias (mu p)) (- f3) f3 g in
  (set_parameters m
     (mkParams (Linear.mk fc1_weight fc1_bias) (bn1 p)
               (Linear.mk fc2_weight fc2_bias) (bn2 p)
               (Linear.mk mu_weight mu_bias)), g).

Definition save_checkpoint (m : t) (fs : filesystem) : result filesystem :=
  match filename m with
  | Some f => Ok (save fs f (plookup (parameters m)))
  | None => Raise AttributeError
  end.

Definition load_checkpoint (m : t) (fs : filesystem) : result t :=
  match filename m with
  | Some f =>
      d <- load fs f ;;
      Ok (set_parameters m (load_state_dict (parameters m) d))
  | None => Raise AttributeError
  end.

End Actor.

(** ** class DDPGagent *)

Module DDPGagent.

Import Torch.

(** What the agent reads from the environment: the shape of the observation
    space (of rank one) and the first dimension of the action space. *)
Record environment : Type := mkEnvironment {
  observation_space_shape : nat;
  action_space_shape : nat
}.

Definition criterion : Type := list (list node) -> list (list node) -> node.

Record t : Type := mk {
  env : environment;
  input_dim : nat;
  n_actions : nat;
  tau : R;
  gamma : R;
  batch_size : Z;
  name_critic : option string;
  memory : Replay_Memory;
  replay_min : Z;
  name_actor : option string;
  critic : Critic.t;
  target_critic : Critic.t;
  actor : Actor.t;
  target_actor : Actor.t;
  critic_criterion : criterion;
  actor_criterion : criterion;
  critic_optimizer : Adam.t Critic.params;
  actor_optimizer : Adam.t Actor.params;
  (** the [.grad] fields of the parameters of the four networks *)
  grad : grad_store
}.

Definition set_memory (a : t) (m : Replay_Memory) : t :=
  mk (env a) (input_dim a) (n_actions a) (tau a) (gamma a) (batch_size a)
     (name_critic a) m (replay_min a) (name_actor a)
     (critic a) (target_critic a) (actor a) (target_actor a)
     (critic_criterion a) (actor_criterion a)
     (critic_optimizer a) (actor_optimizer a) (grad a).

Definition set_networks (a : t) (c tc : Critic.t) (ac tac : Actor.t) : t :=
  mk (env a) (input_dim a) (n_actions a) (tau a) (gamma a) (batch_size a)
     (name_critic a) (memory a) (replay_min a) (name_actor a)
     c tc ac tac
     (critic_criterion a) (actor_criterion a)
     (critic_optimizer a) (actor_optimizer a) (grad a).

Definition set_critic (a : t) (c : Critic.t) (o : Adam.t Critic.params) (g : grad_store) : t :=
  mk (env a) (input_dim a) (n_actions a) (tau a) (gamma a) (batch_size a)
     (name_critic a) (memory a) (replay_min a) (name_actor a)
     c (target_critic a) (actor a) (target_actor a)
     (critic_criterion a) (actor_criterion a)
     o (actor_optimizer a) g.

Definition set_actor (a : t) (ac : Actor.t) (o : Adam.t Actor.params) (g : grad_store) : t :=
  mk (env a) (input_dim a) (n_actions a) (tau a) (gamma a) (batch_size a)
     (name_critic a) (memory a) (replay_min a) (name_actor a)
     (critic a) (target_critic a) ac (target_actor a)
     (critic_criterion a) (actor_criterion a)
     (critic_optimizer a) o g.

Definition set_grad (a : t) (g : grad_store) : t :=
  mk (env a) (input_dim a) (n_actions a) (tau a) (gamma a) (batch_size a)
     (name_critic a) (memory a) (replay_min a) (name_actor a)
     (critic a) (target_critic a) (actor a) (target_actor a)
     (critic_criterion a) (actor_criterion a)
     (critic_optimizer a) (actor_optimizer a) g.

Definition set_optimizers (a : t) (oc : Adam.t Critic.params) (oa : Adam.t Actor.params) : t :=
  mk (env a) (input_dim a) (n_actions a) (tau a) (gamma a) (batch_size a)
     (name_critic a) (memory a) (replay_min a) (name_actor a)
     (critic a) (target_critic a) (actor a) (target_actor a)
     (critic_criterion a) (actor_criterion a) oc oa (grad a).

(** A new optimizer over the parameters of the critic; the weight decay is
    the default of the library, zero. *)
Definition update_critic_optimizer (a : t) (learning_rate : R) : t :=
  set_optimizers a (Adam.init (Critic.parameters (critic a)) learning_rate 0)
    (actor_optimizer a).

Definition update_actor_optimizer (a : t) (learning_rate : R) : t :=
  set_optimizers a (critic_optimizer a)
    (Adam.init (Actor.parameters (actor a)) learning_rate 0).

Definition update_replay_memory (a : t) (state action : list R) (reward : R)
  (next_state : list R) (done : bool) : t :=
  set_memory a (Replay_Memory_push (memory a) state action reward next_state done).

(** The two loops over the zipped parameters of a target network and of its
    online network. *)
Definition update_target_weights (a : t) (tau_arg : R) : t :=
  let blend := fun target_param param => param * tau a + target_param * (1 - tau_arg) in
  set_networks a
    (critic a)
    (Critic.set_parameters (target_critic a)
       (pmap2 blend (Critic.parameters (target_critic a)) (Critic.parameters (critic a))))
    (actor a)
    (Actor.set_parameters (target_actor a)
       (pmap2 blend (Actor.parameters (target_actor a)) (Actor.parameters (actor a)))).

Definition target_name (name : option string) : option string :=
  match name with
  | Some n => Some (n ++ "_target")%string
  | None => None
  end.

(** [DDPGagent(env, layer1_size, layer2_size, ...)].  The optimizers are
    built from the online parameters, which [update_target_weights] does
    not write, so the call of [update_target_weights] is made on the
    finished record. *)
Definition init (env : environment) (layer1_size layer2_size : nat)
  (replay_min : Z) (replay_size : N) (critic_lr actor_lr tau gamma : R)
  (loss : criterion) (batch_size : Z) (name_critic name_actor : option string)
  (directory : string) (fs : filesystem) (g : Generator.t)
  : t * filesystem * Generator.t :=
  let input_dim := observation_space_shape env in
  let n_actions := action_space_shape env in
  let memory := Replay_Memory_init replay_size in
  let '(critic, fs, g) :=
    Critic.init input_dim layer1_size layer2_size n_actions name_critic directory fs g in
  let name_target_critic := target_name name_critic in
  let '(target_critic, fs, g) :=
    Critic.init input_dim layer1_size layer2_size n_actions name_target_critic directory fs g in
  let '(actor, fs, g) :=
    Actor.init input_dim layer1_size layer2_size n_actions name_actor directory fs g in
  let name_target_actor := target_name name_actor in
  let '(target_actor, fs, g) :=
    Actor.init input_dim layer1_size layer2_size n_actions name_target_actor directory fs g in
  let (critic, g) := Critic.init_weights critic g in
  let (actor, g) := Actor.init_weights actor g in
  let self :=
    mk env input_dim n_actions tau gamma batch_size name_critic memory replay_min
       name_actor critic target_critic actor target_actor loss loss
       (Adam.init (Critic.parameters critic) critic_lr (1 / 100))
       (Adam.init (Actor.parameters actor) actor_lr 0)
       no_grad in
  (update_target_weights self 1, fs, g).

(** The constructor with every optional argument at its default. *)
Definition init_default (env : environment) (layer1_size layer2_size : nat)
  (fs : filesystem) (g : Generator.t) : t * filesystem * Generator.t :=
  init env layer1_size layer2_size 100 1000000 (15 / 100000) (15 / 1000000)
       (1 / 1000) (99 / 100) MSELoss 64 None None "models" fs g.

Definition get_action (a : t) (observation : list R) : t * list R :=
  let actor := Actor.set_training (actor a) false in
  let observation := tensor observation in
  let actor_action :=
    Actor.forward (leaves OnlineActor (Actor.parameters actor)) observation in
  let action := map (fun x => eval (Detach x)) actor_action in
  (set_networks a (critic a) (target_critic a) actor (target_actor a), action).

(** *** train *)

(** [torch.tensor(np.array(not_done)).unsqueeze(1)]: one row per sample,
    holding the flag as a number when it enters the arithmetic. *)
Definition not_done_tensor (not_done : list bool) : list (list node) :=
  map (fun b : bool => [Const (if b then 1 else 0)]) not_done.

(** The four calls of [eval()] before the targets are computed. *)
Definition eval_mode (a : t) : t :=
  set_networks a
    (Critic.set_training (critic a) false)
    (Critic.set_training (target_critic a) false)
    (Actor.set_training (actor a) false)
    (Actor.set_training (target_actor a) false).

(** [targets = rewards + self.gamma*not_done*target_critic_value] *)
Definition targets (a : t) (rewards next_states not_done : list (list node))
  : list (list node) :=
  let target_actions :=
    Actor.forward_batch (leaves TargetActor (Actor.parameters (target_actor a)))
      next_states in
  let target_critic_value :=
    Critic.forward_batch (leaves TargetCritic (Critic.parameters (target_critic a)))
      next_states target_actions in
  map2 (map2 Add) rewards
    (map2 (map2 Mul) (map (map (Mul (Const (gamma a)))) not_done) target_critic_value).

(** From [self.critic.train()] to [self.critic.eval()]. *)
Definition critic_loss (a : t) (states actions targets : list (list node)) : node :=
  let critic_value :=
    Critic.forward_batch (leaves OnlineCritic (Critic.parameters (critic a)))
      states actions in
  critic_criterion a critic_value targets.

Definition critic_step (a : t) (states actions targets : list (list node)) : t :=
  let critic := Critic.set_training (critic a) true in
  let g := zero_grad OnlineCritic (grad a) in
  let loss := critic_loss a states actions targets in
  let g := backward loss g in
  let (p, o) :=
    Adam.step (critic_optimizer a) (Critic.parameters critic)
      (grads OnlineCritic g (Critic.parameters critic)) in
  let critic := Critic.set_training (Critic.set_parameters critic p) false in
  set_critic a critic o g.

(** From [self.actor_optimizer.zero_grad()] to [self.actor_optimizer.step()]. *)
Definition actor_loss (a : t) (states : list (list node)) : node :=
  let mu :=
    Actor.forward_batch (leaves OnlineActor (Actor.parameters (actor a))) states in
  let actor_loss :=
    map (map Neg)
      (Critic.forward_batch (leaves OnlineCritic (Critic.parameters (critic a)))
         states mu) in
  mean (concat actor_loss).

Definition actor_step (a : t) (states : list (list node)) : t :=
  let g := zero_grad OnlineActor (grad a) in
  let actor := Actor.set_training (actor a) true in
  let actor_loss := actor_loss a states in
  let g := backward actor_loss g in
  let (p, o) :=
    Adam.step (actor_optimizer a) (Actor.parameters actor)
      (grads OnlineActor g (Actor.parameters actor)) in
  set_actor a (Actor.set_parameters actor p) o g.

(** [pick] is the outcome of the random draw made by [sample]. *)
Definition train (a : t) (pick : list nat) : result t :=
  if (Z.of_nat (Replay_Memory_len (memory a)) <? replay_min a)%Z
  then Ok a
  else
    batch <- Replay_Memory_sample (memory a) (batch_size a) pick ;;
    let '(states, actions, rewards, next_states, not_done) := batch in
    let states := map tensor states in
    let actions := map tensor actions in
    let rewards := map tensor rewards in
    let next_states := map tensor next_states in
    let not_done := not_done_tensor not_done in
    let a := eval_mode a in
    let targets := targets a rewards next_states not_done in
    let a := critic_step a states actions targets in
    let a := actor_step a states in
    Ok (update_target_weights a (tau a)).

(** *** Checkpoints *)

(** The files as [save_model] leaves them, also when a call raises. *)
Definition save_model (a : t) (fs : filesystem) : result unit * filesystem :=
  match Actor.save_checkpoint (actor a) fs with
  | Raise e => (Raise e, fs)
  | Ok fs1 =>
      match Critic.save_checkpoint (critic a) fs1 with
      | Raise e => (Raise e, fs1)
      | Ok fs2 =>
          match Actor.save_checkpoint (target_actor a) fs2 with
          | Raise e => (Raise e, fs2)
          | Ok fs3 =>
              match Critic.save_checkpoint (target_critic a) fs3 with
              | Raise e => (Raise e, fs3)
              | Ok fs4 => (Ok tt, fs4)
              end
          end
      end
  end.

(** The agent as [load_model] leaves it, also when a call raises. *)
Definition load_model (a : t) (fs : filesystem) : result unit * t :=
  match Actor.load_checkpoint (actor a) fs with
  | Raise e => (Raise e, a)
  | Ok ac =>
      let a1 := set_networks a (critic a) (target_critic a) ac (target_actor a) in
      match Critic.load_checkpoint (critic a1) fs with
      | Raise e => (Raise e, a1)
      | Ok c =>
          let a2 := set_networks a1 c (target_critic a1) (actor a1) (target_actor a1) in
          match Actor.load_checkpoint (target_actor a2) fs with
          | Raise e => (Raise e, a2)
          | Ok tac =>
              let a3 := set_networks a2 (critic a2) (target_critic a2) (actor a2) tac in
              match Critic.load_checkpoint (target_critic a3) fs with
              | Raise e => (Raise e, a3)
              | Ok tc =>
                  (Ok tt, set_networks a3 (critic a3) tc (actor a3) (target_actor a3))
              end
          end
      end
  end.

(** The two agents name their checkpoint files alike and their networks
    have the same architecture. *)
Definition same_checkpoints (a a' : t) : Prop :=
  (Actor.filename (actor a') = Actor.filename (actor a) /\
   Critic.filename (critic a') = Critic.filename (critic a) /\
   Actor.filename (target_actor a') = Actor.filename (target_actor a) /\
   Critic.filename (target_critic a') = Critic.filename (target_critic a)) /\
  (same_shape (Actor.parameters (actor a')) (Actor.parameters (actor a)) /\
   same_shape (Critic.parameters (critic a')) (Critic.parameters (critic a)) /\
   same_shape (Actor.parameters (target_actor a'))
              (Actor.parameters (target_actor a)) /\
   same_shape (Critic.parameters (target_critic a'))
              (Critic.parameters (target_critic a))).

(** [n] calls of [update_target_weights(self.tau)], as [train] makes one in
    every call, with the online networks left as they are in between. *)
Fixpoint soft_updates (n : nat) (a : t) : t :=
  match n with
  | O => a
  | S n' => soft_updates n' (update_target_weights a (tau a))
  end.

(** *** Sequences of calls *)

Inductive call : Type :=
| Store (state action : list R) (reward : R) (next_state : list R) (done : bool)
| Train (pick : list nat)
| GetAction (observation : list R).

Definition run_call (a : t) (c : call) : result t :=
  match c with
  | Store state action reward next_state done =>
      Ok (update_replay_memory a state action reward next_state done)
  | Train pick => train a pick
  | GetAction observation => Ok (fst (get_action a observation))
  end.

Fixpoint run (a : t) (cs : list call) : result t :=
  match cs with
  | [] => Ok a
  | c :: rest => a' <- run_call a c ;; run a' rest
  end.

(** *** The training step of the specification

    The specification computes the targets without gradient tracking; this
    is [train] with the targets detached from the graph. *)
Definition train_no_grad (a : t) (pick : list nat) : result t :=
  if (Z.of_nat (Replay_Memory_len (memory a)) <? replay_min a)%Z
  then Ok a
  else
    batch <- Replay_Memory_sample (memory a) (batch_size a) pick ;;
    let '(states, actions, rewards, next_states, not_done) := batch in
    let states := map tensor states in
    let actions := map tensor actions in
    let rewards := map tensor rewards in
    let next_states := map tensor next_states in
    let not_done := not_done_tensor not_done in
    let a := eval_mode a in
    let targets := map (map Detach) (targets a rewards next_states not_done) in
    let a := critic_step a states actions targets in
    let a := actor_step a states in
    Ok (update_target_weights a (tau a)).

End DDPGagent.

(** ** Small agents for examples *)

Module Examples.

Import Torch.

Definition env : DDPGagent.environment := DDPGagent.mkEnvironment 1 1.

Definition no_files : filesystem := mkFilesystem [] [].

(** A generator whose draws are all [0]. *)
Definition zeros : Generator.t := Generator.mk (fun _ => 0) 0.

(** [Critic((4,), 1, 1, 1)] *)
Definition narrow_critic : Critic.t :=
  fst (fst (Critic.init 4 1 1 1 None "models" no_files zeros)).

(** A generator whose draws are all [1/2]. *)
Definition halves : Generator.t := Generator.mk (fun _ => 1 / 2) 0.

(** [DDPGagent(env, 1, 1, replay_min = 1, replay_size = 10, batch_size = 1)]
    after one stored transition. *)
Definition ready_agent : DDPGagent.t :=
  DDPGagent.update_replay_memory
    (fst (fst (DDPGagent.init env 1 1 1 10 (15 / 100000) (15 / 1000000)
                 (1 / 1000) (99 / 100) MSELoss 1 None None "models" no_files zeros)))
    [1] [0] 2 [1] true.

(** The same with [loss = nn.L1Loss()] and every draw [1/2]. *)
Definition l1_agent : DDPGagent.t :=
  DDPGagent.update_replay_memory
    (fst (fst (DDPGagent.init env 1 1 1 10 (15 / 100000) (15 / 1000000)
                 (1 / 1000) (99 / 100) L1Loss 1 None None "models" no_files halves)))
    [1] [0] 2 [1] true.

(** [Critic((1,), 1, 1, 1, name = "critic")] *)
Definition named_critic : Critic.t :=
  fst (fst (Critic.init 1 1 1 1 (Some "critic"%string) "models" no_files zeros)).

(** [DDPGagent(env, 1, 1, name_critic = "critic", name_actor = "actor")] *)
Definition named_agent : DDPGagent.t :=
  fst (fst (DDPGagent.init env 1 1 100 1000000 (15 / 100000) (15 / 1000000)
              (1 / 1000) (99 / 100) MSELoss 64 (Some "critic"%string)
              (Some "actor"%string) "models" no_files zeros)).

(** [DDPGagent(env, 1, 1, name_critic = "agent", name_actor = "agent")] *)
Definition one_name_agent : DDPGagent.t :=
  fst (fst (DDPGagent.init env 1 1 100 1000000 (15 / 100000) (15 / 1000000)
              (1 / 1000) (99 / 100) MSELoss 64 (Some "agent"%string)
              (Some "agent"%string) "models" no_files zeros)).

(** [ready_agent] after [train()], with the stored transition drawn. *)
Definition trained_agent : DDPGagent.t :=
  let ea := DDPGagent.eval_mode ready_agent in
  let states := map tensor [[1]] in
  let y := DDPGagent.targets ea (map tensor [[2]]) (map tensor [[1]])
             (DDPGagent.not_done_tensor [false]) in
  let a1 := DDPGagent.critic_step ea states (map tensor [[0]]) y in
  let a2 := DDPGagent.actor_step a1 states in
  DDPGagent.update_target_weights a2 (DDPGagent.tau a2).

(** [DDPGagent(env, 1, 1)] *)
Definition default_agent : DDPGagent.t :=
  fst (fst (DDPGagent.init_default env 1 1 no_files zeros)).

(** [DDPGagent(env, 1, 1, replay_min = 1, replay_size = 10, batch_size = 2)] *)
Definition eager_agent : DDPGagent.t :=
  fst (fst (DDPGagent.init env 1 1 1 10 (15 / 100000) (15 / 1000000)
              (1 / 1000) (99 / 100) MSELoss 2 None None "models" no_files zeros)).

End Examples.

(** * Properties *)

Ltac destruct_lets :=
  repeat match goal with
         | |- context [let (_, _) := ?x in _] => destruct x
         end.

Ltac destruct_inits :=
  repeat match goal with
         | |- context [Critic.init ?a ?b ?c ?d ?e ?f ?g ?h] =>
             destruct (Critic.init a b c d e f g h) as [[? ?] ?]
         | |- context [Actor.init ?a ?b ?c ?d ?e ?f ?g ?h] =>
             destruct (Actor.init a b c d e f g h) as [[? ?] ?]
         | |- context [Critic.init_weights ?a ?b] =>
             destruct (Critic.init_weights a b) as [? ?]
         | |- context [Actor.init_weights ?a ?b] =>
             destruct (Actor.init_weights a b) as [? ?]
         end.

Ltac lookup_value :=
  lazy -[Rplus Rmult Rminus Ropp Rdiv Rinv sqrt IZR INR Rmax Rabs Rtrigo_def.tanh
         Rlt_dec pow];
  eexists; reflexivity.

(** ** The replay memory *)

Section ReplayMemory.

Local Open Scope nat_scope.

Lemma push_all_snoc (m : Replay_Memory) (l : list transition) (x : transition) :
  push_all m (l ++ [x]) = push_transition (push_all m l) x.
Proof.
  unfold push_all. rewrite fold_left_app. reflexivity.
Qed.

Lemma push_transition_items (m : Replay_Memory) (x : transition) :
  Deque.items (buffer (push_transition m x)) =
  let l := Deque.items (buffer m) ++ [stored x] in
  if (Deque.maxlen (buffer m) <? N.of_nat (length l))%N then tl l else l.
Proof.
  destruct x as [[[[s a] r] ns] d]. reflexivity.
Qed.

Lemma push_transition_maxlen (m : Replay_Memory) (x : transition) :
  Deque.maxlen (buffer (push_transition m x)) = Deque.maxlen (buffer m).
Proof.
  destruct x as [[[[s a] r] ns] d]. reflexivity.
Qed.

Lemma push_all_maxlen (m : Replay_Memory) (l : list transition) :
  Deque.maxlen (buffer (push_all m l)) = Deque.maxlen (buffer m).
Proof.
  induction l as [|x l IH] using rev_ind; [reflexivity|].
  rewrite push_all_snoc, push_transition_maxlen. exact IH.
Qed.

Lemma tl_skipn {A : Type} (k : nat) (l : list A) : tl (skipn k l) = skipn (S k) l.
Proof.
  revert l. induction k as [|k IH]; intros [|x l].
  - reflexivity.
  - destruct l; reflexivity.
  - reflexivity.
  - change (tl (skipn k l) = skipn (S k) l). apply IH.
Qed.

(** After the pushes [l] into an empty memory of capacity [cap], the memory
    holds the last [cap] of them, oldest first. *)
Lemma push_all_items (cap : N) (l : list transition) :
  Deque.items (buffer (push_all (Replay_Memory_init cap) l)) =
  skipn (length l - N.to_nat cap) (map stored l).
Proof.
  induction l as [|x l IH] using rev_ind.
  - simpl. destruct (N.to_nat cap); reflexivity.
  - rewrite push_all_snoc, push_transition_items, push_all_maxlen. cbv zeta.
    rewrite IH. simpl Deque.maxlen.
    rewrite map_app, length_app. simpl map. simpl length.
    rewrite length_app, length_skipn, length_map. simpl length.
    destruct (N.ltb_spec cap (N.of_nat (length l - (length l - N.to_nat cap) + 1))) as [H|H].
    + assert (Hc : N.to_nat cap <= length l) by lia.
      assert (E : skipn (length l - N.to_nat cap) (map stored l) ++ [stored x] =
                  skipn (length l - N.to_nat cap) (map stored l ++ [stored x])).
      { rewrite skipn_app, length_map.
        replace (length l - N.to_nat cap - length l) with 0 by lia. reflexivity. }
      rewrite E, tl_skipn. f_equal. lia.
    + assert (Hc : length l < N.to_nat cap) by lia.
      replace (length l - N.to_nat cap) with 0 by lia.
      replace (length l + 1 - N.to_nat cap) with 0 by lia.
      reflexivity.
Qed.

(** C6.  After any sequence of pushes into a fresh memory of capacity
    [cap], the size is at most [cap]; the memory holds the last [cap] pushed
    transitions in the order of the pushes (all of them while fewer than
    [cap] were pushed), so exactly [cap] of them once more than [cap] were
    pushed; and a push into a full memory drops the oldest entry and adds
    the new one at the end. *)
Theorem push_fifo_eviction (cap : N) (l : list transition) :
  let m := push_all (Replay_Memory_init cap) l in
  (N.of_nat (Replay_Memory_len m) <= cap)%N /\
  Deque.items (buffer m) = skipn (length l - N.to_nat cap) (map stored l) /\
  ((cap < N.of_nat (length l))%N -> N.of_nat (Replay_Memory_len m) = cap) /\
  (forall (x : transition) (oldest : experience) (rest : list experience),
      Deque.items (buffer m) = oldest :: rest ->
      N.of_nat (Replay_Memory_len m) = cap ->
      Deque.items (buffer (push_transition m x)) = rest ++ [stored x]).
Proof.
  intro m.
  assert (Hitems := push_all_items cap l). fold m in Hitems.
  assert (Hlen : Replay_Memory_len m = length l - (length l - N.to_nat cap)).
  { unfold Replay_Memory_len, Deque.len. rewrite Hitems, length_skipn, length_map.
    reflexivity. }
  repeat split.
  - rewrite Hlen. lia.
  - exact Hitems.
  - intro H. rewrite Hlen. lia.
  - intros x oldest rest Hm Hfull.
    rewrite push_transition_items. cbv zeta.
    unfold m at 1. rewrite push_all_maxlen. simpl Deque.maxlen.
    unfold Replay_Memory_len, Deque.len in Hfull.
    rewrite length_app, Hm. simpl length. rewrite Hm in Hfull. simpl length in Hfull.
    destruct (N.ltb_spec cap (N.of_nat (S (length rest) + 1))) as [H|H]; [reflexivity|lia].
Qed.

Lemma push_fifo_eviction_witness :
  let t1 : transition := ([1%R], [0%R], 1%R, [2%R], false) in
  let t2 : transition := ([2%R], [0%R], 1%R, [3%R], false) in
  let t3 : transition := ([3%R], [0%R], 1%R, [4%R], true) in
  let m := push_all (Replay_Memory_init 2) [t1; t2; t3] in
  Deque.items (buffer m) = [stored t2; stored t3] /\
  N.of_nat (Replay_Memory_len m) = 2%N /\
  Deque.items (buffer (push_transition m t1)) = [stored t3; stored t1].
Proof.
  intros t1 t2 t3 m.
  destruct (push_fifo_eviction 2 [t1; t2; t3]) as (_ & Hitems & Hfull & Hpush).
  fold m in Hitems, Hfull, Hpush.
  split; [exact Hitems|]. split.
  - apply Hfull. reflexivity.
  - apply (Hpush t1 (stored t2) [stored t3]).
    + exact Hitems.
    + apply Hfull. reflexivity.
Defined.

End ReplayMemory.

(** ** Sampling *)

Section Sampling.

Local Open Scope nat_scope.

Lemma fresh_spec (rest : list nat) (i : nat) :
  Random.fresh rest i = true <-> ~ In i rest.
Proof.
  unfold Random.fresh. rewrite negb_true_iff, <- not_true_iff_false, existsb_exists.
  split; intros H C; apply H.
  - exists i. split; [exact C | apply Nat.eqb_refl].
  - destruct C as (j & Hj & E). apply Nat.eqb_eq in E. subst j. exact Hj.
Qed.

Lemma arrangements_step (n k : nat) (p : list nat) :
  In p (Random.arrangements n (S k)) <->
  exists i rest, p = i :: rest /\ In rest (Random.arrangements n k) /\
                 i < n /\ ~ In i rest.
Proof.
  simpl. rewrite in_flat_map. split.
  - intros (rest & Hrest & Hp). apply in_map_iff in Hp.
    destruct Hp as (i & E & Hi). apply filter_In in Hi. destruct Hi as [Hi Hf].
    apply in_seq in Hi. exists i, rest. repeat split; auto; try lia.
    apply fresh_spec. exact Hf.
  - intros (i & rest & E & Hrest & Hi & Hf). exists rest. split; [exact Hrest|].
    apply in_map_iff. exists i. split; [auto|]. apply filter_In. split.
    + apply in_seq. lia.
    + apply fresh_spec. exact Hf.
Qed.

(** The outcomes are the sequences of [k] different positions below [n]. *)
Lemma arrangements_spec (n k : nat) (p : list nat) :
  In p (Random.arrangements n k) <->
  length p = k /\ NoDup p /\ Forall (fun j => j < n) p.
Proof.
  revert p. induction k as [|k IH]; intro p.
  - simpl. split.
    + intros [E|[]]. subst p. repeat split; constructor.
    + intros (E & _). destruct p; [left; reflexivity | discriminate].
  - rewrite arrangements_step. split.
    + intros (i & rest & E & Hrest & Hi & Hf). subst p.
      apply IH in Hrest. destruct Hrest as (Hl & Hn & Hb).
      repeat split; [simpl; lia | constructor; assumption | constructor; assumption].
    + intros (Hl & Hn & Hb). destruct p as [|i rest]; [discriminate|].
      inversion Hn; subst. inversion Hb; subst.
      exists i, rest. repeat split; auto.
      apply IH. repeat split; auto.
Qed.

(** Every outcome is listed once. *)
Lemma arrangements_NoDup (n k : nat) : NoDup (Random.arrangements n k).
Proof.
  induction k as [|k IH]; simpl.
  - constructor; [intros [] | constructor].
  - induction IH as [|rest L Hnot HL IHL]; simpl; [constructor|].
    apply NoDup_app.
    + apply NoDup_map_NoDup_ForallPairs.
      * intros x y _ _ E. congruence.
      * apply NoDup_filter, seq_NoDup.
    + exact IHL.
    + intros p Hp Hq. apply in_map_iff in Hp. destruct Hp as (i & E & _).
      apply in_flat_map in Hq. destruct Hq as (rest' & Hrest' & Hq).
      apply in_map_iff in Hq. destruct Hq as (i' & E' & _).
      subst p. inversion E'; subst. contradiction.
Qed.

Lemma gather_length {A : Type} (population : list A) (pick : list nat) :
  Forall (fun j => j < length population) pick ->
  length (Random.gather population pick) = length pick.
Proof.
  induction 1 as [|j rest Hj _ IH]; simpl; [reflexivity|].
  destruct (nth_error population j) eqn:E.
  - simpl. rewrite IH. reflexivity.
  - apply nth_error_None in E. lia.
Qed.

Lemma gather_nth_error {A : Type} (population : list A) (pick : list nat) (i j : nat) :
  Forall (fun j => j < length population) pick ->
  nth_error pick i = Some j ->
  nth_error (Random.gather population pick) i = nth_error population j.
Proof.
  intro H. revert i. induction H as [|j0 rest Hj _ IH]; intros i Hi.
  - destruct i; discriminate.
  - simpl. destruct (nth_error population j0) eqn:E.
    + destruct i as [|i]; simpl in *.
      * inversion Hi; subst. symmetry. exact E.
      * apply IH. exact Hi.
    + apply nth_error_None in E. lia.
Qed.

Lemma unpack_batch_acc (batch : list experience) (sb ab rb nb : list (list R))
  (db : list bool) :
  unpack_batch batch (sb, ab, rb, nb, db) =
  (sb ++ map exp_state batch, ab ++ map exp_action batch,
   rb ++ map exp_reward batch, nb ++ map exp_next_state batch,
   db ++ map (fun e => negb (exp_done e)) batch).
Proof.
  revert sb ab rb nb db.
  induction batch as [|[[[[s a] r] n] d] rest IH]; intros sb ab rb nb db.
  - simpl. rewrite !app_nil_r. reflexivity.
  - simpl. rewrite IH, <- !app_assoc. reflexivity.
Qed.

(** C7.  For a memory of [n] transitions and [k <= n], every outcome of
    [sample(k)] consists of five lists of length [k]; the [k] drawn
    positions are pairwise different; the entries at index [i] of the five
    lists are the parts of the one stored transition at the [i]-th drawn
    position, the fifth being the negation of its done flag.  The draw is
    uniform without replacement: the outcomes of the generator are exactly
    the sequences of [k] different positions below [n], each listed once. *)
Theorem sample_without_replacement (m : Replay_Memory) (k : nat) (pick : list nat) :
  k <= Replay_Memory_len m ->
  In pick (Random.arrangements (Replay_Memory_len m) k) ->
  exists (sb ab rb nb : list (list R)) (db : list bool),
    Replay_Memory_sample m (Z.of_nat k) pick = Ok (sb, ab, rb, nb, db) /\
    (length sb = k /\ length ab = k /\ length rb = k /\ length nb = k /\
     length db = k) /\
    NoDup pick /\
    (forall i, i < k ->
       exists j e,
         nth_error pick i = Some j /\
         nth_error (Deque.items (buffer m)) j = Some e /\
         nth_error sb i = Some (exp_state e) /\
         nth_error ab i = Some (exp_action e) /\
         nth_error rb i = Some (exp_reward e) /\
         nth_error nb i = Some (exp_next_state e) /\
         nth_error db i = Some (negb (exp_done e))) /\
    NoDup (Random.arrangements (Replay_Memory_len m) k) /\
    (forall p, In p (Random.arrangements (Replay_Memory_len m) k) <->
               length p = k /\ NoDup p /\
               Forall (fun j => j < Replay_Memory_len m) p).
Proof.
  intros Hk Hpick.
  destruct (proj1 (arrangements_spec _ _ _) Hpick) as (Hlen & Hnodup & Hbound).
  unfold Replay_Memory_len, Deque.len in *.
  set (pop := Deque.items (buffer m)) in *.
  exists (map exp_state (Random.gather pop pick)),
         (map exp_action (Random.gather pop pick)),
         (map exp_reward (Random.gather pop pick)),
         (map exp_next_state (Random.gather pop pick)),
         (map (fun e => negb (exp_done e)) (Random.gather pop pick)).
  split.
  { unfold Replay_Memory_sample, Random.sample. fold pop.
    destruct (Z.ltb_spec (Z.of_nat k) 0); [lia|].
    destruct (Z.ltb_spec (Z.of_nat (length pop)) (Z.of_nat k)); [lia|].
    simpl. rewrite unpack_batch_acc. reflexivity. }
  split.
  { rewrite !length_map, gather_length by exact Hbound. auto. }
  split; [exact Hnodup|]. split.
  { intros i Hi.
    destruct (nth_error pick i) as [j|] eqn:Ej;
      [|apply nth_error_None in Ej; lia].
    assert (Hj : j < length pop).
    { rewrite Forall_forall in Hbound. apply Hbound.
      eapply nth_error_In. exact Ej. }
    destruct (nth_error pop j) as [e|] eqn:Ee;
      [|apply nth_error_None in Ee; lia].
    exists j, e. split; [reflexivity|]. split; [exact Ee|].
    rewrite !nth_error_map, (@gather_nth_error _ pop pick i j Hbound Ej), Ee.
    repeat split. }
  split; [apply arrangements_NoDup | apply arrangements_spec].
Qed.

Lemma sample_without_replacement_witness :
  let t1 : transition := ([1%R], [0%R], 1%R, [2%R], false) in
  let t2 : transition := ([2%R], [0%R], 1%R, [3%R], false) in
  let t3 : transition := ([3%R], [0%R], 1%R, [4%R], true) in
  let m := push_all (Replay_Memory_init 5) [t1; t2; t3] in
  exists (sb ab rb nb : list (list R)) (db : list bool),
    Replay_Memory_sample m 2 [2; 0] = Ok (sb, ab, rb, nb, db) /\
    length sb = 2 /\ length db = 2.
Proof.
  intros t1 t2 t3 m.
  destruct (@sample_without_replacement m 2 [2; 0])
    as (sb & ab & rb & nb & db & Hs & (H1 & _ & _ & _ & H5) & _).
  - vm_compute. lia.
  - vm_compute. auto 10.
  - exists sb, ab, rb, nb, db. auto.
Defined.

End Sampling.

(** ** The agent: warm-up, sampling, checkpoints *)

Section Agent.

Import DDPGagent.

Lemma train_guard (a : DDPGagent.t) (pick : list nat) :
  (Z.of_nat (Replay_Memory_len (memory a)) <? replay_min a)%Z = true ->
  train a pick = Ok a.
Proof.
  intro H. unfold train. rewrite H. reflexivity.
Qed.

(** C8.  While the memory holds fewer than [replay_min] transitions,
    [train] returns at once and leaves the agent as it was: the parameters
    of the four networks, both optimizer states and the memory (and every
    other field) are the ones before the call. *)
Theorem train_warm_up_noop (a : DDPGagent.t) (pick : list nat) :
  (Z.of_nat (Replay_Memory_len (memory a)) < replay_min a)%Z ->
  train a pick = Ok a.
Proof.
  intro H. apply train_guard. apply Z.ltb_lt. exact H.
Qed.

Lemma train_warm_up_noop_witness :
  train Examples.default_agent [] = Ok Examples.default_agent.
Proof.
  apply train_warm_up_noop. reflexivity.
Defined.

Lemma critic_step_config (a : DDPGagent.t) (states actions targets : list (list Torch.node)) :
  let a' := critic_step a states actions targets in
  batch_size a' = batch_size a /\ replay_min a' = replay_min a /\
  memory a' = memory a /\ tau a' = tau a.
Proof.
  unfold critic_step.
  destruct (Torch.Adam.step _ _ _) as [p o]. repeat split.
Qed.

Lemma actor_step_config (a : DDPGagent.t) (states : list (list Torch.node)) :
  let a' := actor_step a states in
  batch_size a' = batch_size a /\ replay_min a' = replay_min a /\
  memory a' = memory a /\ tau a' = tau a.
Proof.
  unfold actor_step.
  destruct (Torch.Adam.step _ _ _) as [p o]. repeat split.
Qed.

(** [train] writes neither the configuration nor the memory. *)
Lemma train_config (a a' : DDPGagent.t) (pick : list nat) :
  train a pick = Ok a' ->
  batch_size a' = batch_size a /\ replay_min a' = replay_min a /\
  memory a' = memory a.
Proof.
  unfold train.
  destruct (Z.ltb _ _).
  - intro E. inversion E; subst. repeat split.
  - destruct (Replay_Memory_sample _ _ _) as [[[[[sb ab] rb] nb] db]|e];
      unfold bind; [|discriminate].
    intro E. inversion E; subst. clear E.
    match goal with
    | |- context [actor_step ?x ?s] =>
        destruct (actor_step_config x s) as (B1 & B2 & B3 & _)
    end.
    match goal with
    | |- context [critic_step ?x ?s ?ac ?y] =>
        destruct (critic_step_config x s ac y) as (C1 & C2 & C3 & _)
    end.
    unfold update_target_weights, set_networks.
    cbn [batch_size replay_min memory].
    rewrite B1, B2, B3, C1, C2, C3. repeat split.
Qed.

Lemma run_call_config (a a' : DDPGagent.t) (c : call) :
  run_call a c = Ok a' ->
  batch_size a' = batch_size a /\ replay_min a' = replay_min a.
Proof.
  destruct c as [s ac r ns d | pick | obs]; simpl; intro E.
  - inversion E; subst. split; reflexivity.
  - apply train_config in E. tauto.
  - inversion E; subst. split; reflexivity.
Qed.

Lemma run_config (cs : list call) (a a' : DDPGagent.t) :
  run a cs = Ok a' ->
  batch_size a' = batch_size a /\ replay_min a' = replay_min a.
Proof.
  revert a. induction cs as [|c cs IH]; simpl; intros a E.
  - inversion E; subst. split; reflexivity.
  - destruct (run_call a c) as [a1|e] eqn:E1; simpl in E; [|discriminate].
    apply IH in E. apply run_call_config in E1. destruct E, E1. split; congruence.
Qed.

(** When the memory holds at least [batch_size] transitions, [sample]
    returns a batch and [train] returns. *)
Lemma sample_returns (a : DDPGagent.t) (pick : list nat) :
  (0 <= batch_size a <= Z.of_nat (Replay_Memory_len (memory a)))%Z ->
  (exists b, Replay_Memory_sample (memory a) (batch_size a) pick = Ok b) /\
  (exists a', train a pick = Ok a').
Proof.
  intro H.
  assert (Hs : exists b, Replay_Memory_sample (memory a) (batch_size a) pick = Ok b).
  { unfold Replay_Memory_sample, Random.sample.
    unfold Replay_Memory_len, Deque.len in H.
    destruct (Z.ltb_spec (batch_size a) 0); [lia|].
    destruct (Z.ltb_spec (Z.of_nat (length (Deque.items (buffer (memory a)))))
                (batch_size a)); [lia|].
    simpl. eexists. reflexivity. }
  split; [exact Hs|].
  destruct Hs as [[[[[sb ab] rb] nb] db] Hs]. unfold train.
  destruct (Z.ltb _ _); [eexists; reflexivity|].
  rewrite Hs. simpl. eexists. reflexivity.
Qed.

Lemma train_returns (a : DDPGagent.t) (pick : list nat) :
  (0 <= batch_size a <= replay_min a)%Z ->
  exists a', train a pick = Ok a'.
Proof.
  intro H.
  destruct (Z.lt_ge_cases (Z.of_nat (Replay_Memory_len (memory a))) (replay_min a)) as [G|G].
  - exists a. apply train_guard. apply Z.ltb_lt. exact G.
  - apply sample_returns. lia.
Qed.

Lemma run_returns (cs : list call) (a : DDPGagent.t) :
  (0 <= batch_size a <= replay_min a)%Z ->
  exists a', run a cs = Ok a'.
Proof.
  revert a. induction cs as [|c cs IH]; intros a H; simpl.
  - exists a. reflexivity.
  - assert (E : exists a1, run_call a c = Ok a1).
    { destruct c as [s ac r ns d | pick | obs]; simpl.
      - eexists. reflexivity.
      - apply train_returns. exact H.
      - eexists. reflexivity. }
    destruct E as [a1 E]. rewrite E. simpl. apply IH.
    apply run_call_config in E. destruct E as [E1 E2]. rewrite E1, E2. exact H.
Qed.

(** A store followed by a training step: the step runs on the memory with
    the stored transition, and leaves that memory as it is. *)
Lemma run_store_train (a a' : DDPGagent.t) (state action : list R) (reward : R)
  (next_state : list R) (done : bool) (pick : list nat) :
  run a [Store state action reward next_state done; Train pick] = Ok a' ->
  train (update_replay_memory a state action reward next_state done) pick = Ok a' /\
  memory a' = memory (update_replay_memory a state action reward next_state done).
Proof.
  simpl. unfold bind.
  destruct (train (update_replay_memory a state action reward next_state done) pick)
    as [a1|e] eqn:E; intro H; [|discriminate].
  inversion H; subst. split; [reflexivity|].
  apply train_config in E. tauto.
Qed.

(** C4, as the code has it.  For an agent configured with
    [0 <= batch_size <= replay_min], no sequence of store, train and
    get_action calls raises, and in every state that such a sequence
    reaches, whenever [train] passes the warm-up guard the memory holds at
    least [batch_size] transitions, so [sample(batch_size)] returns a
    batch. *)
Theorem sample_precondition_holds (a0 : DDPGagent.t) (cs : list call) :
  (0 <= batch_size a0 <= replay_min a0)%Z ->
  (exists a, run a0 cs = Ok a) /\
  (forall (a : DDPGagent.t) (pick : list nat),
      run a0 cs = Ok a ->
      (replay_min a <= Z.of_nat (Replay_Memory_len (memory a)))%Z ->
      (batch_size a <= Z.of_nat (Replay_Memory_len (memory a)))%Z /\
      (exists b, Replay_Memory_sample (memory a) (batch_size a) pick = Ok b) /\
      (exists a', train a pick = Ok a')).
Proof.
  intro H. split; [apply run_returns; exact H|].
  intros a pick Hrun Hguard.
  apply run_config in Hrun. destruct Hrun as [E1 E2].
  split; [lia|]. apply sample_returns. lia.
Qed.

Lemma sample_precondition_holds_witness :
  let a0 := fst (fst (init Examples.env 1 1 1 10 (15 / 100000) (15 / 1000000)
                        (1 / 1000) (99 / 100) Torch.MSELoss 1 None None "models"
                        Examples.no_files Examples.zeros)) in
  let cs := [Store [1%R] [0%R] 2%R [1%R] true; Train [0%nat]] in
  exists a,
    run a0 cs = Ok a /\
    (replay_min a <= Z.of_nat (Replay_Memory_len (memory a)))%Z /\
    (batch_size a <= Z.of_nat (Replay_Memory_len (memory a)))%Z /\
    (exists b, Replay_Memory_sample (memory a) (batch_size a) [0%nat] = Ok b) /\
    (exists a', train a [0%nat] = Ok a').
Proof.
  intros a0 cs.
  destruct (@sample_precondition_holds a0 cs) as [[a Hrun] Hall].
  { split; apply Z.leb_le; reflexivity. }
  exists a. split; [exact Hrun|].
  destruct (@run_store_train a0 a _ _ _ _ _ _ Hrun) as [_ Hm].
  destruct (@run_config cs a0 a Hrun) as [_ E2].
  assert (Hg : (replay_min a <= Z.of_nat (Replay_Memory_len (memory a)))%Z).
  { rewrite Hm, E2. apply Z.leb_le. reflexivity. }
  split; [exact Hg|].
  exact (Hall a [0%nat] Hrun Hg).
Defined.

(** C4, as it is stated, fails: with [replay_min = 1] and [batch_size = 2],
    after one stored transition [train] passes the guard and calls
    [sample(2)] on a memory of one transition, which raises. *)
Lemma sample_precondition_counterexample :
  let a := update_replay_memory Examples.eager_agent [1] [0] 1 [2] false in
  run Examples.eager_agent [Store [1] [0] 1 [2] false] = Ok a /\
  (Z.of_nat (Replay_Memory_len (memory a)) <? replay_min a)%Z = false /\
  (Z.of_nat (Replay_Memory_len (memory a)) < batch_size a)%Z /\
  Replay_Memory_sample (memory a) (batch_size a) [0%nat] = Raise ValueError /\
  train a [0%nat] = Raise ValueError.
Proof.
  intro a. repeat split.
Qed.

Lemma Critic_init_no_name (input_dim fc1_dim fc2_dim n_actions : nat) (chkpt : string)
  (fs : Torch.filesystem) (g : Torch.Generator.t) :
  let r := Critic.init input_dim fc1_dim fc2_dim n_actions None chkpt fs g in
  Critic.filename (fst (fst r)) = None /\ snd (fst r) = fs.
Proof.
  unfold Critic.init. destruct_lets. split; reflexivity.
Qed.

Lemma Actor_init_no_name (input_dim fc1_dim fc2_dim n_actions : nat) (chkpt : string)
  (fs : Torch.filesystem) (g : Torch.Generator.t) :
  let r := Actor.init input_dim fc1_dim fc2_dim n_actions None chkpt fs g in
  Actor.filename (fst (fst r)) = None /\ snd (fst r) = fs.
Proof.
  unfold Actor.init. destruct_lets. split; reflexivity.
Qed.

Lemma Critic_init_weights_filename (m : Critic.t) (g : Torch.Generator.t) :
  Critic.filename (fst (Critic.init_weights m g)) = Critic.filename m.
Proof.
  unfold Critic.init_weights. destruct_lets. reflexivity.
Qed.

Lemma Actor_init_weights_filename (m : Actor.t) (g : Torch.Generator.t) :
  Actor.filename (fst (Actor.init_weights m g)) = Actor.filename m.
Proof.
  unfold Actor.init_weights. destruct_lets. reflexivity.
Qed.

(** Without checkpoint names the constructor gives no network a file name
    and leaves the files as they are. *)
Lemma init_no_names (env : environment) (layer1_size layer2_size : nat)
  (replay_min : Z) (replay_size : N) (critic_lr actor_lr tau gamma : R)
  (loss : criterion) (batch_size : Z) (directory : string)
  (fs : Torch.filesystem) (g : Torch.Generator.t) :
  let r := init env layer1_size layer2_size replay_min replay_size critic_lr
             actor_lr tau gamma loss batch_size None None directory fs g in
  Actor.filename (actor (fst (fst r))) = None /\
  Critic.filename (critic (fst (fst r))) = None /\
  Actor.filename (target_actor (fst (fst r))) = None /\
  Critic.filename (target_critic (fst (fst r))) = None /\
  snd (fst r) = fs.
Proof.
  unfold init, target_name.
  match goal with
  | |- context [Critic.init ?i ?a ?b ?n None ?d ?f ?g] =>
      destruct (Critic_init_no_name i a b n d f g) as [F1 S1];
      destruct (Critic.init i a b n None d f g) as [[c fs1] g1]
  end.
  simpl in F1, S1. subst fs1.
  match goal with
  | |- context [Critic.init ?i ?a ?b ?n None ?d ?f ?g] =>
      destruct (Critic_init_no_name i a b n d f g) as [F2 S2];
      destruct (Critic.init i a b n None d f g) as [[tc fs2] g2]
  end.
  simpl in F2, S2. subst fs2.
  match goal with
  | |- context [Actor.init ?i ?a ?b ?n None ?d ?f ?g] =>
      destruct (Actor_init_no_name i a b n d f g) as [F3 S3];
      destruct (Actor.init i a b n None d f g) as [[ac fs3] g3]
  end.
  simpl in F3, S3. subst fs3.
  match goal with
  | |- context [Actor.init ?i ?a ?b ?n None ?d ?f ?g] =>
      destruct (Actor_init_no_name i a b n d f g) as [F4 S4];
      destruct (Actor.init i a b n None d f g) as [[tac fs4] g4]
  end.
  simpl in F4, S4. subst fs4.
  assert (W1 := Critic_init_weights_filename c g4).
  destruct (Critic.init_weights c g4) as [c' g5]. simpl in W1.
  assert (W2 := Actor_init_weights_filename ac g5).
  destruct (Actor.init_weights ac g5) as [ac' g6]. simpl in W2.
  simpl. repeat split; congruence.
Qed.

Lemma train_actor_filename (a a' : DDPGagent.t) (pick : list nat) :
  train a pick = Ok a' ->
  Actor.filename (actor a') = Actor.filename (actor a).
Proof.
  unfold train.
  destruct (Z.ltb _ _).
  - intro E. inversion E; subst. reflexivity.
  - destruct (Replay_Memory_sample _ _ _) as [[[[[sb ab] rb] nb] db]|e];
      unfold bind; [|discriminate].
    intro E. inversion E; subst. clear E.
    unfold update_target_weights, actor_step, critic_step.
    destruct_lets. reflexivity.
Qed.

Lemma run_actor_filename (cs : list call) (a a' : DDPGagent.t) :
  run a cs = Ok a' ->
  Actor.filename (actor a') = Actor.filename (actor a).
Proof.
  revert a. induction cs as [|c cs IH]; simpl; intros a E.
  - inversion E; subst. reflexivity.
  - destruct (run_call a c) as [a1|e] eqn:E1; simpl in E; [|discriminate].
    rewrite (IH _ E).
    destruct c as [s ac r ns d | pick | obs]; simpl in E1.
    + inversion E1; subst. reflexivity.
    + apply train_actor_filename in E1. exact E1.
    + inversion E1; subst. reflexivity.
Qed.

(** C10.  An agent constructed without checkpoint names has four networks
    without a file name, and the constructor creates no directory; on that
    agent, also after any sequence of store, train and get_action calls,
    [save_model] raises the missing-attribute error at the first network
    and writes no file, and [load_model] raises it and restores nothing. *)
Theorem default_names_no_checkpoint (env : environment) (layer1_size layer2_size : nat)
  (replay_min : Z) (replay_size : N) (critic_lr actor_lr tau gamma : R)
  (loss : criterion) (batch_size : Z) (directory : string)
  (fs : Torch.filesystem) (g : Torch.Generator.t) :
  let r := init env layer1_size layer2_size replay_min replay_size critic_lr
             actor_lr tau gamma loss batch_size None None directory fs g in
  let a0 := fst (fst r) in
  (Actor.filename (actor a0) = None /\
   Critic.filename (critic a0) = None /\
   Actor.filename (target_actor a0) = None /\
   Critic.filename (target_critic a0) = None /\
   snd (fst r) = fs) /\
  (forall (cs : list call) (a : DDPGagent.t) (fs' : Torch.filesystem),
      run a0 cs = Ok a ->
      save_model a fs' = (Raise AttributeError, fs') /\
      load_model a fs' = (Raise AttributeError, a)).
Proof.
  intros r a0.
  assert (H := init_no_names env layer1_size layer2_size replay_min replay_size
                 critic_lr actor_lr tau gamma loss batch_size directory fs g).
  fold r in H. fold a0 in H. split; [exact H|].
  destruct H as (Ha & _).
  intros cs a fs' Hrun. apply run_actor_filename in Hrun.
  assert (Hn : Actor.filename (actor a) = None) by (rewrite Hrun; exact Ha).
  unfold save_model, load_model, Actor.save_checkpoint, Actor.load_checkpoint.
  rewrite Hn. split; reflexivity.
Qed.

Lemma default_names_no_checkpoint_witness :
  save_model Examples.default_agent Examples.no_files
  = (Raise AttributeError, Examples.no_files) /\
  load_model Examples.default_agent Examples.no_files
  = (Raise AttributeError, Examples.default_agent).
Proof.
  unfold Examples.default_agent, init_default.
  refine (proj2 (default_names_no_checkpoint _ _ _ _ _ _ _ _ _ _ _ _ _ _) [] _ _ _).
  reflexivity.
Defined.

Lemma tanh_bounds (x : R) : -1 < tanh x < 1.
Proof.
  unfold tanh, sinh, cosh.
  assert (Hp := exp_pos x). assert (Hn := exp_pos (- x)).
  replace ((exp x - exp (- x)) / 2 / ((exp x + exp (- x)) / 2))
    with ((exp x - exp (- x)) / (exp x + exp (- x))) by (field; lra).
  split.
  - apply Rmult_lt_reg_r with (exp x + exp (- x)); [lra|].
    unfold Rdiv. rewrite Rmult_assoc, Rinv_l by lra. lra.
  - apply Rmult_lt_reg_r with (exp x + exp (- x)); [lra|].
    unfold Rdiv. rewrite Rmult_assoc, Rinv_l by lra. lra.
Qed.

(** C9.  Whatever the parameters of the actor and whatever the state, every
    component of the output of [Actor.forward] lies between [-1] and [1],
    because the last operation is the hyperbolic tangent; the same holds
    for the vector that [get_action] returns. *)
Theorem actor_output_bounded :
  (forall (p : Actor.params Torch.node) (state : list Torch.node),
      Forall (fun y => -1 <= Torch.eval y <= 1) (Actor.forward p state)) /\
  (forall (a : DDPGagent.t) (observation : list R),
      Forall (fun y => -1 <= y <= 1) (snd (get_action a observation))).
Proof.
  assert (H : forall l : list Torch.node,
             Forall (fun y => -1 <= Torch.eval y <= 1) (Torch.tanh l)).
  { intro l. unfold Torch.tanh. apply Forall_map. apply Forall_forall.
    intros e _. simpl. pose proof (tanh_bounds (Torch.eval e)). lra. }
  split.
  - intros p state. unfold Actor.forward. apply H.
  - intros a observation. unfold get_action. cbn [snd].
    apply Forall_map. unfold Actor.forward.
    match goal with |- Forall _ (Torch.tanh ?l) => specialize (H l) end.
    rewrite Forall_forall in *. intros e He. simpl. apply H. exact He.
Qed.

End Agent.

(** ** Parameters side by side *)

Section Lookup.

Import Torch.

Lemma nth_error_map2 {A B C : Type} (f : A -> B -> C) (l : list A) (l' : list B) (i : nat) :
  nth_error (map2 f l l') i = both f (nth_error l i) (nth_error l' i).
Proof.
  revert l' i. induction l as [|x l IH]; intros [|y l'] [|i]; simpl; try reflexivity.
  - destruct (nth_error l i); reflexivity.
  - apply IH.
Qed.

Lemma lookup2_map2 {A B C : Type} (f : A -> B -> C) (m : list (list A))
  (m' : list (list B)) (r c : nat) :
  lookup2 (map2 (map2 f) m m') r c = both f (lookup2 m r c) (lookup2 m' r c).
Proof.
  unfold lookup2. rewrite nth_error_map2.
  destruct (nth_error m r) as [row|], (nth_error m' r) as [row'|]; simpl;
    try reflexivity.
  - apply nth_error_map2.
  - destruct (nth_error row c); reflexivity.
Qed.

Lemma Linear_lookup_map2 {A B C : Type} (f : A -> B -> C) (m : Linear.t A)
  (m' : Linear.t B) (p : pname) (r c : nat) :
  Linear.lookup (Linear.map2 f m m') p r c =
  both f (Linear.lookup m p r c) (Linear.lookup m' p r c).
Proof.
  destruct p; simpl.
  - apply lookup2_map2.
  - destruct (Nat.eqb r 0); [apply nth_error_map2 | reflexivity].
Qed.

Lemma LayerNorm_lookup_map2 {A B C : Type} (f : A -> B -> C) (m : LayerNorm.t A)
  (m' : LayerNorm.t B) (p : pname) (r c : nat) :
  LayerNorm.lookup (LayerNorm.map2 f m m') p r c =
  both f (LayerNorm.lookup m p r c) (LayerNorm.lookup m' p r c).
Proof.
  unfold LayerNorm.lookup.
  destruct (Nat.eqb r 0); [|reflexivity].
  destruct p; simpl; apply nth_error_map2.
Qed.

Lemma Critic_lookup_map2 {A B C : Type} (f : A -> B -> C) (p : Critic.params A)
  (p' : Critic.params B) (k : key) :
  plookup (pmap2 f p p') k = both f (plookup p k) (plookup p' k).
Proof.
  simpl. unfold Critic.lookup.
  destruct (k_layer k); simpl;
    first [apply Linear_lookup_map2 | apply LayerNorm_lookup_map2 | reflexivity].
Qed.

Lemma Actor_lookup_map2 {A B C : Type} (f : A -> B -> C) (p : Actor.params A)
  (p' : Actor.params B) (k : key) :
  plookup (pmap2 f p p') k = both f (plookup p k) (plookup p' k).
Proof.
  simpl. unfold Actor.lookup.
  destruct (k_layer k); simpl;
    first [apply Linear_lookup_map2 | apply LayerNorm_lookup_map2 | reflexivity].
Qed.

(** What [update_target_weights] computes for every parameter that both
    networks have: the online parameter is scaled by the [tau] of the
    agent, the target parameter by one minus the argument. *)
Lemma update_target_weights_lookup (a : DDPGagent.t) (t : R) (k : key) :
  let a' := DDPGagent.update_target_weights a t in
  let blend := fun target_param param => param * DDPGagent.tau a + target_param * (1 - t) in
  plookup (Critic.parameters (DDPGagent.target_critic a')) k =
    both blend (plookup (Critic.parameters (DDPGagent.target_critic a)) k)
               (plookup (Critic.parameters (DDPGagent.critic a)) k) /\
  plookup (Actor.parameters (DDPGagent.target_actor a')) k =
    both blend (plookup (Actor.parameters (DDPGagent.target_actor a)) k)
               (plookup (Actor.parameters (DDPGagent.actor a)) k) /\
  DDPGagent.critic a' = DDPGagent.critic a /\
  DDPGagent.actor a' = DDPGagent.actor a.
Proof.
  cbv zeta. unfold DDPGagent.update_target_weights.
  cbn [DDPGagent.target_critic DDPGagent.target_actor DDPGagent.critic
       DDPGagent.actor DDPGagent.set_networks Critic.parameters Actor.parameters
       Critic.set_parameters Actor.set_parameters].
  rewrite Critic_lookup_map2, Actor_lookup_map2. repeat split.
Qed.

(** C1.  For every blend factor [t], [update_target_weights(t)] sets each
    target parameter to [online * self.tau + target * (1 - t)]: the online
    parameter is scaled by the [tau] of the agent and not by [t].  At the
    freshly constructed agent [DDPGagent(env, 1, 1)], whose [tau] is
    [0.001]: the constructor, which calls [update_target_weights()] with
    the blend factor [1], leaves the weight of the target critic's Q-head
    at [0.001] times the online weight, not at the online weight; a further
    call with the factor [1] gives the same, and a call with the factor [0]
    changes the target weight. *)
Theorem update_target_weights_not_hard_copy :
  (forall (a : DDPGagent.t) (t : R) (k : key),
      let a' := DDPGagent.update_target_weights a t in
      let blend := fun target_param param =>
                     param * DDPGagent.tau a + target_param * (1 - t) in
      plookup (Critic.parameters (DDPGagent.target_critic a')) k =
        both blend (plookup (Critic.parameters (DDPGagent.target_critic a)) k)
                   (plookup (Critic.parameters (DDPGagent.critic a)) k) /\
      plookup (Actor.parameters (DDPGagent.target_actor a')) k =
        both blend (plookup (Actor.parameters (DDPGagent.target_actor a)) k)
                   (plookup (Actor.parameters (DDPGagent.actor a)) k)) /\
  let a := Examples.default_agent in
  let k := mkKey q pweight 0 0 in
  DDPGagent.tau a = 1 / 1000 /\
  plookup (Critic.parameters (DDPGagent.critic a)) k = Some (- (3 / 1000)) /\
  plookup (Critic.parameters (DDPGagent.target_critic a)) k = Some (- (3 / 1000000)) /\
  plookup (Critic.parameters
             (DDPGagent.target_critic (DDPGagent.update_target_weights a 1))) k
    = Some (- (3 / 1000000)) /\
  plookup (Critic.parameters
             (DDPGagent.target_critic (DDPGagent.update_target_weights a 0))) k
    = Some (- (6 / 1000000)).
Proof.
  split.
  - intros a t k.
    destruct (update_target_weights_lookup a t k) as (H1 & H2 & _).
    split; assumption.
  - cbv -[Rplus Rmult Rminus Ropp Rdiv Rinv sqrt IZR INR].
    repeat split; f_equal; lra.
Qed.

End Lookup.

(** ** Initial weights *)

Section InitWeights.

Import Torch.

Lemma uniform__range (tensor : list R) (a b : R) (g : Generator.t) :
  Generator.unit_draws g -> a <= b ->
  Forall (fun w => a <= w <= b) (fst (uniform_ tensor a b g)) /\
  length (fst (uniform_ tensor a b g)) = length tensor /\
  Generator.unit_draws (snd (uniform_ tensor a b g)).
Proof.
  intros Hg Hab. revert g Hg.
  induction tensor as [|x rest IH]; intros g Hg; simpl.
  - split; [constructor | split; [reflexivity | exact Hg]].
  - assert (Hg1 : Generator.unit_draws
                    (Generator.mk (Generator.stream g) (S (Generator.pos g))))
      by exact Hg.
    destruct (IH _ Hg1) as (H1 & H2 & H3).
    destruct (uniform_ rest a b _) as [rest' g2]. simpl in *.
    split; [|split; [lia | exact H3]].
    constructor; [|exact H1].
    destruct (Hg (Generator.pos g)) as [U0 U1]. split; nra.
Qed.

Lemma uniform2__range (tensor : list (list R)) (a b : R) (g : Generator.t) :
  Generator.unit_draws g -> a <= b ->
  Forall (Forall (fun w => a <= w <= b)) (fst (uniform2_ tensor a b g)) /\
  length (fst (uniform2_ tensor a b g)) = length tensor /\
  Generator.unit_draws (snd (uniform2_ tensor a b g)).
Proof.
  intros Hg Hab. revert g Hg.
  induction tensor as [|row rest IH]; intros g Hg; simpl.
  - split; [constructor | split; [reflexivity | exact Hg]].
  - destruct (@uniform__range row a b g Hg Hab) as (R1 & _ & R3).
    destruct (uniform_ row a b g) as [row' g1]. simpl in *.
    destruct (IH _ R3) as (H1 & H2 & H3).
    destruct (uniform2_ rest a b g1) as [rest' g2]. simpl in *.
    split; [|split; [lia | exact H3]].
    constructor; assumption.
Qed.

Lemma inv_sqrt_nonneg (n : nat) : 0 <= 1 / sqrt (INR n).
Proof.
  destruct (Req_dec (sqrt (INR n)) 0) as [E|E].
  - rewrite E. unfold Rdiv. rewrite Rinv_0. lra.
  - assert (0 <= sqrt (INR n)) by apply sqrt_pos.
    apply Rlt_le, Rdiv_lt_0_compat; lra.
Qed.

Lemma uniform2__length (tensor : list (list R)) (a b : R) (g : Generator.t) :
  length (fst (uniform2_ tensor a b g)) = length tensor.
Proof.
  revert g. induction tensor as [|row rest IH]; intro g; simpl; [reflexivity|].
  destruct (uniform_ row a b g) as [row' g1].
  specialize (IH g1). destruct (uniform2_ rest a b g1) as [rest' g2].
  simpl in *. lia.
Qed.

(** The weight of [nn.Linear(i, o)] has [o] rows. *)
Lemma Linear_init_rows (i o : nat) (g : Generator.t) :
  length (Linear.weight (fst (Linear_init i o g))) = o.
Proof.
  unfold Linear_init.
  match goal with
  | |- context [uniform2_ ?t ?a ?b ?g] =>
      pose proof (uniform2__length t a b g) as H;
      destruct (uniform2_ t a b g) as [w g1]
  end.
  destruct (uniform_ _ _ _ g1) as [bs g2]. simpl in *.
  rewrite H, repeat_length. reflexivity.
Qed.

Ltac name_linear_init :=
  repeat match goal with
         | |- context [Linear_init ?i ?o ?g] =>
             let H := fresh "Hrows" in
             pose proof (Linear_init_rows i o g) as H;
             destruct (Linear_init i o g)
         end.

Lemma Critic_init_rows (input_dim fc1_dim fc2_dim n_actions : nat)
  (name : option string) (chkpt : string) (fs : filesystem) (g : Generator.t) :
  let p := Critic.parameters
             (fst (fst (Critic.init input_dim fc1_dim fc2_dim n_actions name chkpt fs g))) in
  length (Linear.weight (Critic.fc1 p)) = fc1_dim /\
  length (Linear.weight (Critic.fc2 p)) = fc2_dim.
Proof.
  unfold Critic.init. destruct name; name_linear_init; simpl in *; auto.
Qed.

Lemma Actor_init_rows (input_dim fc1_dim fc2_dim n_actions : nat)
  (name : option string) (chkpt : string) (fs : filesystem) (g : Generator.t) :
  let p := Actor.parameters
             (fst (fst (Actor.init input_dim fc1_dim fc2_dim n_actions name chkpt fs g))) in
  length (Linear.weight (Actor.fc1 p)) = fc1_dim /\
  length (Linear.weight (Actor.fc2 p)) = fc2_dim.
Proof.
  unfold Actor.init. destruct name; name_linear_init; simpl in *; auto.
Qed.

Ltac name_uniform :=
  repeat match goal with
         | |- context [uniform2_ ?t (- ?f) ?f ?g] =>
             let H := fresh "Hw" in
             let G := fresh "Hg" in
             destruct (@uniform2__range t (- f) f g) as (H & _ & G);
             [assumption | lra |];
             destruct (uniform2_ t (- f) f g); cbn [fst snd] in H, G
         | |- context [uniform_ ?t (- ?f) ?f ?g] =>
             let H := fresh "Hb" in
             let G := fresh "Hg" in
             destruct (@uniform__range t (- f) f g) as (H & _ & G);
             [assumption | lra |];
             destruct (uniform_ t (- f) f g); cbn [fst snd] in H, G
         end.

(** C3, as the code has it.  With draws in [0, 1), [init_weights] of the
    critic and of the actor leaves every weight and bias of [fc1] and of
    [fc2] between [-1/sqrt(n)] and [1/sqrt(n)], where [n] is the number of
    rows of the weight of that layer, and every weight and bias of the
    output layer ([q], [mu]) between [-0.003] and [0.003]; the other layers
    keep their parameters.  For a network built by the constructor the
    number of rows of the weight is the width of the layer itself
    ([fc1_dim], [fc2_dim]), the number of its outputs. *)
Theorem init_weights_ranges (g : Generator.t) :
  Generator.unit_draws g ->
  (forall m : Critic.t,
      let p0 := Critic.parameters m in
      let p := Critic.parameters (fst (Critic.init_weights m g)) in
      let f1 := 1 / sqrt (INR (length (Linear.weight (Critic.fc1 p0)))) in
      let f2 := 1 / sqrt (INR (length (Linear.weight (Critic.fc2 p0)))) in
      Forall (Forall (within f1)) (Linear.weight (Critic.fc1 p)) /\
      Forall (within f1) (Linear.bias (Critic.fc1 p)) /\
      Forall (Forall (within f2)) (Linear.weight (Critic.fc2 p)) /\
      Forall (within f2) (Linear.bias (Critic.fc2 p)) /\
      Forall (Forall (within (3 / 1000))) (Linear.weight (Critic.q p)) /\
      Forall (within (3 / 1000)) (Linear.bias (Critic.q p)) /\
      Critic.bn1 p = Critic.bn1 p0 /\ Critic.bn2 p = Critic.bn2 p0 /\
      Critic.action_value p = Critic.action_value p0) /\
  (forall m : Actor.t,
      let p0 := Actor.parameters m in
      let p := Actor.parameters (fst (Actor.init_weights m g)) in
      let f1 := 1 / sqrt (INR (length (Linear.weight (Actor.fc1 p0)))) in
      let f2 := 1 / sqrt (INR (length (Linear.weight (Actor.fc2 p0)))) in
      Forall (Forall (within f1)) (Linear.weight (Actor.fc1 p)) /\
      Forall (within f1) (Linear.bias (Actor.fc1 p)) /\
      Forall (Forall (within f2)) (Linear.weight (Actor.fc2 p)) /\
      Forall (within f2) (Linear.bias (Actor.fc2 p)) /\
      Forall (Forall (within (3 / 1000))) (Linear.weight (Actor.mu p)) /\
      Forall (within (3 / 1000)) (Linear.bias (Actor.mu p)) /\
      Actor.bn1 p = Actor.bn1 p0 /\ Actor.bn2 p = Actor.bn2 p0) /\
  (forall (input_dim fc1_dim fc2_dim n_actions : nat) (name : option string)
          (chkpt : string) (fs : filesystem) (g0 : Generator.t),
      let pc := Critic.parameters
                  (fst (fst (Critic.init input_dim fc1_dim fc2_dim n_actions name chkpt fs g0))) in
      let pa := Actor.parameters
                  (fst (fst (Actor.init input_dim fc1_dim fc2_dim n_actions name chkpt fs g0))) in
      length (Linear.weight (Critic.fc1 pc)) = fc1_dim /\
      length (Linear.weight (Critic.fc2 pc)) = fc2_dim /\
      length (Linear.weight (Actor.fc1 pa)) = fc1_dim /\
      length (Linear.weight (Actor.fc2 pa)) = fc2_dim).
Proof.
  intro Hg. split; [|split].
  - intros m p0 p f1 f2. subst p. unfold Critic.init_weights. fold p0. fold f1. fold f2.
    assert (F1 : 0 <= f1) by apply inv_sqrt_nonneg.
    assert (F2 : 0 <= f2) by apply inv_sqrt_nonneg.
    clearbody f1 f2. name_uniform. cbn. repeat split; assumption.
  - intros m p0 p f1 f2. subst p. unfold Actor.init_weights. fold p0. fold f1. fold f2.
    assert (F1 : 0 <= f1) by apply inv_sqrt_nonneg.
    assert (F2 : 0 <= f2) by apply inv_sqrt_nonneg.
    clearbody f1 f2. name_uniform. cbn. repeat split; assumption.
  - intros input_dim fc1_dim fc2_dim n_actions name chkpt fs g0 pc pa.
    destruct (Critic_init_rows input_dim fc1_dim fc2_dim n_actions name chkpt fs g0).
    destruct (Actor_init_rows input_dim fc1_dim fc2_dim n_actions name chkpt fs g0).
    auto.
Qed.

Lemma zeros_unit_draws : Generator.unit_draws Examples.zeros.
Proof.
  intro i. simpl. lra.
Qed.

Lemma init_weights_ranges_witness :
  let p := Critic.parameters (fst (Critic.init_weights Examples.narrow_critic Examples.zeros)) in
  Forall (Forall (within (1 / sqrt (INR 1)))) (Linear.weight (Critic.fc1 p)) /\
  Forall (within (3 / 1000)) (Linear.bias (Critic.q p)).
Proof.
  destruct (@init_weights_ranges Examples.zeros) as (Hc & _ & _).
  - intro i. simpl. lra.
  - destruct (Hc Examples.narrow_critic) as (H1 & _ & _ & _ & _ & H6 & _).
    split; [exact H1 | exact H6].
Defined.

(** C3, as it is stated, fails.  The first layer of [Critic((4,), 1, 1, 1)]
    has four inputs, so the stated range is [-1/2, 1/2]; with the draw [0]
    [init_weights] sets its first weight to [-1]. *)
Lemma init_weights_fan_in_counterexample :
  let m := fst (Critic.init_weights Examples.narrow_critic Examples.zeros) in
  let w := Linear.weight (Critic.fc1 (Critic.parameters m)) in
  let fan_in := Critic.input_dim m in
  Generator.unit_draws Examples.zeros /\
  fan_in = 4%nat /\
  option_map (@length R) (nth_error w 0) = Some fan_in /\
  lookup2 w 0 0 = Some (- 1) /\
  ~ within (1 / sqrt (INR fan_in)) (- 1).
Proof.
  cbv zeta. split; [exact zeros_unit_draws|].
  split; [reflexivity|]. split; [reflexivity|].
  assert (S4 : sqrt (INR 4) = 2).
  { replace (INR 4) with (2 * 2) by (simpl; lra). apply sqrt_square. lra. }
  split.
  - cbv -[Rplus Rmult Rminus Ropp Rdiv Rinv sqrt IZR INR].
    f_equal. replace (INR 1) with 1 by reflexivity. rewrite sqrt_1. lra.
  - change (Critic.input_dim (fst (Critic.init_weights Examples.narrow_critic Examples.zeros)))
      with 4%nat.
    unfold within. rewrite S4. lra.
Qed.

End InitWeights.

(** ** Gradients *)

Section Gradients.

Import Torch.

(** What [backward_from] adds does not depend on what the store held. *)
Lemma backward_from_frame (e : node) (s : R) (g : grad_store) (o : owner) (k : key) :
  backward_from e s g o k = g o k + backward_from e s no_grad o k.
Proof.
  revert s g.
  induction e as [v | o' k' v | a IHa b IHb | a IHa b IHb | a IHa b IHb
                 | a IHa b IHb | a IHa | a IHa | a IHa | a IHa | a IHa | a IHa];
    intros s g; simpl;
    try (rewrite IHb, IHa; rewrite (IHb _ (backward_from a _ no_grad)); lra);
    try (apply IHa).
  - unfold no_grad. lra.
  - unfold accumulate, no_grad. destruct (owner_eqb o' o && key_eqb k' k); lra.
  - unfold no_grad. lra.
Qed.

(** A graph that does not reach the network [o] adds nothing to the
    gradients of [o]. *)
Lemma backward_from_clean (e : node) (s : R) (g : grad_store) (o : owner) (k : key) :
  reaches o e = false -> backward_from e s g o k = g o k.
Proof.
  revert s g.
  induction e as [v | o' k' v | a IHa b IHb | a IHa b IHb | a IHa b IHb
                 | a IHa b IHb | a IHa | a IHa | a IHa | a IHa | a IHa | a IHa];
    intros s g H; simpl in *;
    try (apply orb_false_iff in H; destruct H as [Ha Hb];
         rewrite IHb, IHa by assumption; reflexivity);
    try (apply IHa; assumption);
    try reflexivity.
  unfold accumulate.
  assert (E : owner_eqb o' o = false) by (destruct o, o'; simpl in *; congruence).
  rewrite E. reflexivity.
Qed.

Lemma similar_eval (o : owner) (e e' : node) : similar o e e' -> eval e = eval e'.
Proof.
  induction 1; simpl; congruence.
Qed.

(** Similar graphs add the same to the gradients of [o]. *)
Lemma similar_backward (o : owner) (e e' : node) :
  similar o e e' ->
  forall (s : R) (g g' : grad_store),
    (forall k, g o k = g' o k) ->
    forall k, backward_from e s g o k = backward_from e' s g' o k.
Proof.
  induction 1 as [e | e e' Hv Hc Hc' | a a' b b' Ha IHa Hb IHb
                 | a a' b b' Ha IHa Hb IHb | a a' b b' Ha IHa Hb IHb
                 | a a' b b' Ha IHa Hb IHb];
    intros s g g' Hg k; simpl.
  - rewrite (backward_from_frame e s g), (backward_from_frame e s g'), Hg.
    reflexivity.
  - rewrite !backward_from_clean by assumption. apply Hg.
  - apply IHb. apply IHa. exact Hg.
  - apply IHb. apply IHa. exact Hg.
  - rewrite (similar_eval Ha), (similar_eval Hb). apply IHb. apply IHa. exact Hg.
  - rewrite (similar_eval Ha), (similar_eval Hb). apply IHb. apply IHa. exact Hg.
Qed.

(** *** Graphs that do not reach a network *)

Lemma clean_map {A : Type} (o : owner) (f : A -> node) (l : list A) :
  (forall x, clean o (f x)) -> Forall (clean o) (map f l).
Proof.
  intro H. apply Forall_map, Forall_forall. intros x _. apply H.
Qed.

Lemma clean_map_node (o : owner) (f : node -> node) (l : list node) :
  (forall x, clean o x -> clean o (f x)) ->
  Forall (clean o) l -> Forall (clean o) (map f l).
Proof.
  intros H Hl. induction Hl; simpl; constructor; auto.
Qed.

Lemma clean_map2 {A B : Type} (P : A -> Prop) (Q : B -> Prop) (o : owner)
  (f : A -> B -> node) (l : list A) (l' : list B) :
  (forall x y, P x -> Q y -> clean o (f x y)) ->
  Forall P l -> Forall Q l' -> Forall (clean o) (map2 f l l').
Proof.
  intros H Hl. revert l'. induction Hl as [|x l Hx _ IH]; intros l' Hl'; simpl.
  - constructor.
  - destruct Hl' as [|y l' Hy Hl']; constructor; auto.
Qed.

Lemma clean_sum (o : owner) (l : list node) :
  Forall (clean o) l -> clean o (sum l).
Proof.
  unfold sum. assert (H0 : clean o (Const 0)) by reflexivity.
  revert H0. generalize (Const 0).
  induction l as [|x l IH]; intros init H0 Hl; simpl; [exact H0|].
  inversion Hl; subst. apply IH; [|assumption].
  unfold clean in *. simpl. rewrite H0. assumption.
Qed.

Lemma clean_mean (o : owner) (l : list node) :
  Forall (clean o) l -> clean o (mean l).
Proof.
  intro H. unfold mean, clean. simpl. rewrite (clean_sum H). reflexivity.
Qed.

Lemma clean_Linear_forward (o : owner) (m : Linear.t node) (input : list node) :
  Linear.all (clean o) m -> Forall (clean o) input ->
  Forall (clean o) (Linear.forward m input).
Proof.
  intros [Hw Hb] Hi. unfold Linear.forward.
  apply clean_map2 with (P := Forall (clean o)) (Q := clean o); [|assumption..].
  intros w b Hw' Hb'. unfold clean. simpl.
  rewrite Hb', orb_false_r. apply clean_sum.
  apply clean_map2 with (P := clean o) (Q := clean o); [|assumption..].
  intros x y Hx Hy. unfold clean in *. simpl. rewrite Hx, Hy. reflexivity.
Qed.

Lemma clean_LayerNorm_forward (o : owner) (m : LayerNorm.t node) (input : list node) :
  LayerNorm.all (clean o) m -> Forall (clean o) input ->
  Forall (clean o) (LayerNorm.forward m input).
Proof.
  intros [Hw Hb] Hi. unfold LayerNorm.forward.
  assert (Hm : clean o (mean input)) by (apply clean_mean; assumption).
  assert (Hsq : forall x, clean o x ->
                  clean o (Mul (Sub x (mean input)) (Sub x (mean input)))).
  { intros x Hx. unfold clean in *. cbn [reaches]. rewrite Hx, Hm. reflexivity. }
  assert (Hv : clean o (mean (map (fun x => Mul (Sub x (mean input)) (Sub x (mean input)))
                                  input))).
  { apply clean_mean. apply clean_map_node; assumption. }
  apply clean_map2 with (P := clean o) (Q := clean o); [| |assumption].
  - intros x y Hx Hy. unfold clean in *. cbn [reaches]. rewrite Hx, Hy. reflexivity.
  - apply clean_map2 with (P := clean o) (Q := clean o); [| |assumption].
    + intros x y Hx Hy. unfold clean in *. cbn [reaches]. rewrite Hx, Hy. reflexivity.
    + apply clean_map_node; [|assumption].
      intros x Hx. unfold clean in *. cbn [reaches]. rewrite Hx, Hm, Hv. reflexivity.
Qed.

Lemma clean_relu (o : owner) (l : list node) :
  Forall (clean o) l -> Forall (clean o) (relu l).
Proof.
  apply clean_map_node. intros x Hx. exact Hx.
Qed.

Lemma clean_tanh (o : owner) (l : list node) :
  Forall (clean o) l -> Forall (clean o) (Torch.tanh l).
Proof.
  apply clean_map_node. intros x Hx. exact Hx.
Qed.

Lemma clean_add (o : owner) (l l' : list node) :
  Forall (clean o) l -> Forall (clean o) l' -> Forall (clean o) (add l l').
Proof.
  apply clean_map2. intros x y Hx Hy. unfold clean in *. simpl.
  rewrite Hx, Hy. reflexivity.
Qed.

Lemma clean_tensor (o : owner) (data : list R) : Forall (clean o) (tensor data).
Proof.
  apply clean_map. reflexivity.
Qed.

Lemma Forall_imap_from {A B : Type} (P : B -> Prop) (f : nat -> A -> B) (l : list A) (n : nat) :
  (forall i x, P (f i x)) -> Forall P (imap_from n f l).
Proof.
  intro H. revert n. induction l as [|x l IH]; intro n; simpl; constructor; auto.
Qed.

Lemma Linear_all_imap {A B : Type} (P : B -> Prop) (l : layer) (f : key -> A -> B)
  (m : Linear.t A) :
  (forall k x, P (f k x)) -> Linear.all P (Linear.imap l f m).
Proof.
  intro H. split; simpl; unfold imap.
  - apply Forall_imap_from. intros r row. apply Forall_imap_from. intros c x. apply H.
  - apply Forall_imap_from. intros c x. apply H.
Qed.

Lemma LayerNorm_all_imap {A B : Type} (P : B -> Prop) (l : layer) (f : key -> A -> B)
  (m : LayerNorm.t A) :
  (forall k x, P (f k x)) -> LayerNorm.all P (LayerNorm.imap l f m).
Proof.
  intro H. split; simpl; unfold imap; apply Forall_imap_from; intros c x; apply H.
Qed.

Lemma owner_eqb_neq (o o' : owner) : o <> o' -> owner_eqb o o' = false.
Proof.
  destruct o, o'; simpl; congruence.
Qed.

(** The leaves of one network do not reach another network. *)
Lemma Critic_leaves_clean (o o' : owner) (p : Critic.params R) :
  o <> o' -> Critic.all (clean o) (leaves o' p).
Proof.
  intro H. unfold leaves. simpl. unfold Critic.imap, Critic.all. simpl.
  repeat split;
    first [apply Linear_all_imap | apply LayerNorm_all_imap];
    intros k x; unfold clean; simpl; apply owner_eqb_neq; exact H.
Qed.

Lemma Actor_leaves_clean (o o' : owner) (p : Actor.params R) :
  o <> o' -> Actor.all (clean o) (leaves o' p).
Proof.
  intro H. unfold leaves. simpl. unfold Actor.imap, Actor.all. simpl.
  repeat split;
    first [apply Linear_all_imap | apply LayerNorm_all_imap];
    intros k x; unfold clean; simpl; apply owner_eqb_neq; exact H.
Qed.

Lemma clean_Critic_forward (o : owner) (p : Critic.params node) (state action : list node) :
  Critic.all (clean o) p -> Forall (clean o) state -> Forall (clean o) action ->
  Forall (clean o) (Critic.forward p state action).
Proof.
  intros (H1 & H2 & H3 & H4 & H5 & H6) Hs Ha. unfold Critic.forward.
  apply clean_Linear_forward; [assumption|].
  apply clean_relu, clean_add.
  - apply clean_LayerNorm_forward; [assumption|].
    apply clean_Linear_forward; [assumption|].
    apply clean_relu, clean_LayerNorm_forward; [assumption|].
    apply clean_Linear_forward; assumption.
  - apply clean_relu, clean_Linear_forward; assumption.
Qed.

Lemma clean_Actor_forward (o : owner) (p : Actor.params node) (state : list node) :
  Actor.all (clean o) p -> Forall (clean o) state ->
  Forall (clean o) (Actor.forward p state).
Proof.
  intros (H1 & H2 & H3 & H4 & H5) Hs. unfold Actor.forward.
  apply clean_tanh, clean_Linear_forward; [assumption|].
  apply clean_relu, clean_LayerNorm_forward; [assumption|].
  apply clean_Linear_forward; [assumption|].
  apply clean_relu, clean_LayerNorm_forward; [assumption|].
  apply clean_Linear_forward; assumption.
Qed.

Lemma Forall_map2 {A B C : Type} (P : A -> Prop) (Q : B -> Prop) (S : C -> Prop)
  (f : A -> B -> C) (l : list A) (l' : list B) :
  (forall x y, P x -> Q y -> S (f x y)) ->
  Forall P l -> Forall Q l' -> Forall S (map2 f l l').
Proof.
  intros H Hl. revert l'. induction Hl as [|x l Hx _ IH]; intros l' Hl'; simpl.
  - constructor.
  - destruct Hl' as [|y l' Hy Hl']; constructor; auto.
Qed.

(** The targets that [train] computes reach the two target networks only. *)
Lemma targets_clean (o : owner) (a : DDPGagent.t) (rewards next_states : list (list R))
  (not_done : list bool) :
  o <> TargetActor -> o <> TargetCritic ->
  Forall (Forall (clean o))
    (DDPGagent.targets a (map tensor rewards) (map tensor next_states)
       (DDPGagent.not_done_tensor not_done)).
Proof.
  intros Ha Hc. unfold DDPGagent.targets.
  assert (Hd : forall l : list (list R), Forall (Forall (clean o)) (map tensor l)).
  { intro l. apply Forall_map, Forall_forall. intros x _. apply clean_tensor. }
  assert (Hact : Forall (Forall (clean o))
                   (Actor.forward_batch
                      (leaves TargetActor (Actor.parameters (DDPGagent.target_actor a)))
                      (map tensor next_states))).
  { unfold Actor.forward_batch. generalize (Hd next_states).
    generalize (map tensor next_states). intros l Hl.
    induction Hl; simpl; constructor; [|assumption].
    apply clean_Actor_forward; [apply Actor_leaves_clean|]; assumption. }
  apply Forall_map2 with (P := Forall (clean o)) (Q := Forall (clean o)).
  - intros x y Hx Hy. apply clean_map2 with (P := clean o) (Q := clean o); [|assumption..].
    intros u v Hu Hv. unfold clean in *. simpl. rewrite Hu, Hv. reflexivity.
  - apply Hd.
  - apply Forall_map2 with (P := Forall (clean o)) (Q := Forall (clean o)).
    + intros x y Hx Hy.
      apply clean_map2 with (P := clean o) (Q := clean o); [|assumption..].
      intros u v Hu Hv. unfold clean in *. simpl. rewrite Hu, Hv. reflexivity.
    + unfold DDPGagent.not_done_tensor. rewrite map_map.
      apply Forall_map, Forall_forall. intros b _.
      constructor; [reflexivity | constructor].
    + unfold Critic.forward_batch.
      apply Forall_map2 with (P := Forall (clean o)) (Q := Forall (clean o));
        [|apply Hd | exact Hact].
      intros x y Hx Hy. apply clean_Critic_forward;
        [apply Critic_leaves_clean|..]; assumption.
Qed.

(** *** The loss with detached targets *)

Lemma map2_length {A B C : Type} (f : A -> B -> C) (l : list A) (l' : list B) :
  length (map2 f l l') = Nat.min (length l) (length l').
Proof.
  revert l'. induction l as [|x l IH]; intros [|y l']; simpl; auto.
Qed.

Lemma similar_fold_Add (o : owner) (l l' : list node) :
  Forall2 (similar o) l l' ->
  forall init init', similar o init init' ->
  similar o (fold_left Add l init) (fold_left Add l' init').
Proof.
  induction 1 as [|x x' l l' Hx _ IH]; intros init init' Hi; simpl.
  - exact Hi.
  - apply IH. apply similar_Add; assumption.
Qed.

Lemma squares_detach (o : owner) (xs ys : list node) :
  Forall (clean o) ys ->
  Forall2 (similar o)
    (map2 (fun x y => Mul (Sub x y) (Sub x y)) xs ys)
    (map2 (fun x y => Mul (Sub x y) (Sub x y)) xs (map Detach ys)).
Proof.
  intro H. revert xs. induction H as [|y ys Hy _ IH]; intros [|x xs]; simpl;
    try constructor.
  - assert (Hs : similar o (Sub x y) (Sub x (Detach y))).
    { apply similar_Sub; [apply similar_refl|].
      apply similar_cut; [reflexivity | exact Hy | reflexivity]. }
    apply similar_Mul; exact Hs.
  - apply IH.
Qed.

(** Detaching targets that do not reach the network [o] leaves the loss
    similar for [o]. *)
Lemma MSELoss_detach (o : owner) (input target : list (list node)) :
  Forall (Forall (clean o)) target ->
  similar o (MSELoss input target) (MSELoss input (map (map Detach) target)).
Proof.
  intro H. unfold MSELoss, mean.
  rewrite <- concat_map.
  assert (Hc : Forall (clean o) (concat target)).
  { induction H; simpl; [constructor|]. apply Forall_app. split; assumption. }
  apply similar_Div.
  - unfold sum. apply similar_fold_Add; [|apply similar_refl].
    apply squares_detach. exact Hc.
  - rewrite !map2_length, length_map. apply similar_refl.
Qed.

Lemma imap_from_ext {A B : Type} (f f' : nat -> A -> B) (l : list A) (n : nat) :
  (forall i x, f i x = f' i x) -> imap_from n f l = imap_from n f' l.
Proof.
  intro H. revert n. induction l as [|x l IH]; intro n; simpl; [reflexivity|].
  rewrite H, IH. reflexivity.
Qed.

Lemma Linear_imap_ext {A B : Type} (l : layer) (f f' : key -> A -> B) (m : Linear.t A) :
  (forall k x, f k x = f' k x) -> Linear.imap l f m = Linear.imap l f' m.
Proof.
  intro H. unfold Linear.imap, imap. f_equal.
  - apply imap_from_ext. intros r row. apply imap_from_ext. intros c x. apply H.
  - apply imap_from_ext. intros c x. apply H.
Qed.

Lemma LayerNorm_imap_ext {A B : Type} (l : layer) (f f' : key -> A -> B)
  (m : LayerNorm.t A) :
  (forall k x, f k x = f' k x) -> LayerNorm.imap l f m = LayerNorm.imap l f' m.
Proof.
  intro H. unfold LayerNorm.imap, imap.
  f_equal; apply imap_from_ext; intros c x; apply H.
Qed.

(** The gradients read for the optimizer depend on the [.grad] fields of
    the one network only. *)
Lemma Critic_grads_ext (o : owner) (g g' : grad_store) (p : Critic.params R) :
  (forall k, g o k = g' o k) -> grads o g p = grads o g' p.
Proof.
  intro H. unfold grads. simpl. unfold Critic.imap.
  f_equal; first [apply Linear_imap_ext | apply LayerNorm_imap_ext];
    intros k x; apply H.
Qed.

Lemma Actor_grads_ext (o : owner) (g g' : grad_store) (p : Actor.params R) :
  (forall k, g o k = g' o k) -> grads o g p = grads o g' p.
Proof.
  intro H. unfold grads. simpl. unfold Actor.imap.
  f_equal; first [apply Linear_imap_ext | apply LayerNorm_imap_ext];
    intros k x; apply H.
Qed.

(** The critic step with detached targets differs from the critic step of
    [train] in the [.grad] fields only. *)
Lemma critic_step_detach (a : DDPGagent.t) (states actions targets : list (list node)) :
  DDPGagent.critic_criterion a = MSELoss ->
  Forall (Forall (clean OnlineCritic)) targets ->
  exists g,
    DDPGagent.critic_step a states actions (map (map Detach) targets) =
    DDPGagent.set_grad (DDPGagent.critic_step a states actions targets) g.
Proof.
  intros Hloss Hclean. unfold DDPGagent.critic_step, DDPGagent.critic_loss.
  rewrite Hloss.
  set (cv := Critic.forward_batch _ states actions).
  set (g0 := zero_grad OnlineCritic (DDPGagent.grad a)).
  assert (Hag : forall k, backward (MSELoss cv targets) g0 OnlineCritic k =
                          backward (MSELoss cv (map (map Detach) targets)) g0
                            OnlineCritic k).
  { intro k. unfold backward.
    apply (similar_backward (MSELoss_detach cv Hclean)). reflexivity. }
  rewrite (@Critic_grads_ext OnlineCritic _ _ _ Hag).
  destruct (Adam.step _ _ _) as [p o].
  eexists. reflexivity.
Qed.

Lemma actor_step_set_grad (a : DDPGagent.t) (g : grad_store) (states : list (list node)) :
  exists g',
    DDPGagent.actor_step (DDPGagent.set_grad a g) states =
    DDPGagent.set_grad (DDPGagent.actor_step a states) g'.
Proof.
  unfold DDPGagent.actor_step.
  change (DDPGagent.actor_loss (DDPGagent.set_grad a g) states)
    with (DDPGagent.actor_loss a states).
  cbn [DDPGagent.grad DDPGagent.actor DDPGagent.actor_optimizer DDPGagent.set_grad].
  set (L := DDPGagent.actor_loss a states).
  assert (Hag : forall k,
             backward L (zero_grad OnlineActor g) OnlineActor k =
             backward L (zero_grad OnlineActor (DDPGagent.grad a)) OnlineActor k).
  { intro k. unfold backward.
    rewrite (backward_from_frame L 1 (zero_grad OnlineActor g)),
      (backward_from_frame L 1 (zero_grad OnlineActor (DDPGagent.grad a))).
    reflexivity. }
  rewrite (@Actor_grads_ext OnlineActor _ _ _ Hag).
  destruct (Adam.step _ _ _) as [p o].
  eexists. reflexivity.
Qed.

(** *** Graphs that do reach a network *)

Lemma reaches_requires_grad (o : owner) (e : node) :
  reaches o e = true -> requires_grad e = true.
Proof.
  induction e as [v | o' k' v | a IHa b IHb | a IHa b IHb | a IHa b IHb
                 | a IHa b IHb | a IHa | a IHa | a IHa | a IHa | a IHa | a IHa];
    simpl; intro H;
    try discriminate; try reflexivity; try (apply IHa; exact H);
    apply orb_true_iff in H; apply orb_true_iff;
    (destruct H as [H|H]; [left; apply IHa | right; apply IHb]); exact H.
Qed.

Lemma reaches_fold_Add (o : owner) (l : list node) (init : node) :
  reaches o (fold_left Add l init) = reaches o init || existsb (reaches o) l.
Proof.
  revert init. induction l as [|x l IH]; intro init; simpl.
  - rewrite orb_false_r. reflexivity.
  - rewrite IH. simpl. rewrite orb_assoc. reflexivity.
Qed.

Lemma imap_from_length {A B : Type} (f : nat -> A -> B) (l : list A) (n : nat) :
  length (imap_from n f l) = length l.
Proof.
  revert n. induction l as [|x l IH]; intro n; simpl; [reflexivity|].
  rewrite IH. reflexivity.
Qed.

Lemma owner_eqb_refl (o : owner) : owner_eqb o o = true.
Proof.
  destruct o; reflexivity.
Qed.

(** Every output of a linear layer reaches the network that owns the
    layer, through the bias. *)
Lemma Linear_forward_reaches_owner (l : layer) (o : owner) (m : Linear.t R)
  (input : list node) :
  Forall (fun e => reaches o e = true)
    (Linear.forward (Linear.imap l (fun k v => Leaf o k v) m) input).
Proof.
  unfold Linear.forward, Linear.imap. cbn [Linear.weight Linear.bias].
  apply Forall_map2 with (P := fun _ : list node => True)
                         (Q := fun b => reaches o b = true).
  - intros w b _ Hb. simpl. rewrite Hb. apply orb_true_r.
  - apply Forall_forall. intros w _. exact I.
  - unfold imap. apply Forall_imap_from. intros c x. simpl. apply owner_eqb_refl.
Qed.

(** Every output of a linear layer whose rows are not empty reaches what
    the first entry of the input reaches. *)
Lemma Linear_forward_reaches_input (o : owner) (m : Linear.t node) (input : list node) :
  (0 < length input)%nat ->
  Forall (fun e => reaches o e = true) input ->
  Forall (fun row : list node => (0 < length row)%nat) (Linear.weight m) ->
  Forall (fun e => reaches o e = true) (Linear.forward m input).
Proof.
  intros Hn Hi Hw. unfold Linear.forward.
  apply Forall_map2 with (P := fun row : list node => (0 < length row)%nat)
                         (Q := fun _ : node => True).
  - intros w b Hrow _. cbn [reaches]. apply orb_true_iff. left.
    unfold sum. rewrite reaches_fold_Add.
    destruct input as [|x xs]; [simpl in Hn; lia|].
    destruct w as [|w0 ws]; [simpl in Hrow; lia|].
    inversion Hi as [|? ? Hx _]; subst. simpl. rewrite Hx. reflexivity.
  - exact Hw.
  - apply Forall_forall. intros b _. exact I.
Qed.

Lemma Linear_populated_spec {A : Type} (m : Linear.t A) :
  Linear.populated m = true ->
  (0 < length (Linear.weight m))%nat /\ (0 < length (Linear.bias m))%nat /\
  Forall (fun row : list A => (0 < length row)%nat) (Linear.weight m).
Proof.
  unfold Linear.populated. intro H.
  apply andb_true_iff in H. destruct H as [H H3].
  apply andb_true_iff in H. destruct H as [H1 H2].
  apply Nat.ltb_lt in H1. apply Nat.ltb_lt in H2.
  split; [exact H1|]. split; [exact H2|].
  apply Forall_forall. intros row Hrow.
  rewrite forallb_forall in H3. apply Nat.ltb_lt. apply H3. exact Hrow.
Qed.

Lemma LayerNorm_populated_spec {A : Type} (m : LayerNorm.t A) :
  LayerNorm.populated m = true ->
  (0 < length (LayerNorm.weight m))%nat /\ (0 < length (LayerNorm.bias m))%nat.
Proof.
  unfold LayerNorm.populated. intro H.
  apply andb_true_iff in H. destruct H as [H1 H2].
  apply Nat.ltb_lt in H1. apply Nat.ltb_lt in H2. split; assumption.
Qed.

Lemma Forall_imap_from_rows {A B : Type} (f : nat -> list A -> list B) (l : list (list A))
  (n : nat) :
  (forall i row, length (f i row) = length row) ->
  Forall (fun row : list A => (0 < length row)%nat) l ->
  Forall (fun row : list B => (0 < length row)%nat) (imap_from n f l).
Proof.
  intros Hf H. revert n. induction H as [|row l Hrow _ IH]; intro n; simpl;
    constructor; [rewrite Hf; exact Hrow | apply IH].
Qed.

(** A linear layer has as many outputs as its weight has rows and its bias
    has entries. *)
Lemma Linear_forward_length (m : Linear.t node) (input : list node) :
  length (Linear.forward m input) =
  Nat.min (length (Linear.weight m)) (length (Linear.bias m)).
Proof.
  unfold Linear.forward. apply map2_length.
Qed.

Lemma LayerNorm_forward_length (m : LayerNorm.t node) (input : list node) :
  length (LayerNorm.forward m input) =
  Nat.min (Nat.min (length input) (length (LayerNorm.weight m)))
    (length (LayerNorm.bias m)).
Proof.
  unfold LayerNorm.forward. rewrite !map2_length, length_map. reflexivity.
Qed.

Lemma Linear_leaves_lengths (l : layer) (o : owner) (m : Linear.t R) :
  let m' := Linear.imap l (fun k v => Leaf o k v) m in
  length (Linear.weight m') = length (Linear.weight m) /\
  length (Linear.bias m') = length (Linear.bias m).
Proof.
  simpl. unfold imap. rewrite !imap_from_length. split; reflexivity.
Qed.

Lemma LayerNorm_leaves_lengths (l : layer) (o : owner) (m : LayerNorm.t R) :
  let m' := LayerNorm.imap l (fun k v => Leaf o k v) m in
  length (LayerNorm.weight m') = length (LayerNorm.weight m) /\
  length (LayerNorm.bias m') = length (LayerNorm.bias m).
Proof.
  simpl. unfold imap. rewrite !imap_from_length. split; reflexivity.
Qed.

Lemma Linear_leaves_rows (l : layer) (o : owner) (m : Linear.t R) :
  Forall (fun row : list R => (0 < length row)%nat) (Linear.weight m) ->
  Forall (fun row : list node => (0 < length row)%nat)
    (Linear.weight (Linear.imap l (fun k v => Leaf o k v) m)).
Proof.
  intro H. unfold Linear.imap, imap. cbn [Linear.weight].
  apply Forall_imap_from_rows; [|exact H].
  intros i row. apply imap_from_length.
Qed.

(** The actions of an actor whose layers are populated: there is at least
    one, and each reaches the parameters of the actor. *)
Lemma Actor_forward_reaches (o : owner) (p : Actor.params R) (state : list node) :
  Actor.populated p = true ->
  (0 < length (Actor.forward (leaves o p) state))%nat /\
  Forall (fun e => reaches o e = true) (Actor.forward (leaves o p) state).
Proof.
  unfold Actor.populated. intro H.
  apply andb_true_iff in H. destruct H as [_ Hmu].
  apply Linear_populated_spec in Hmu. destruct Hmu as (Hw & Hb & _).
  unfold Actor.forward, Torch.tanh, leaves.
  cbn [pimap Actor.Parameters_params Actor.imap Actor.mu].
  destruct (Linear_leaves_lengths Torch.mu o (Actor.mu p)) as [Lw Lb].
  split.
  - rewrite length_map, Linear_forward_length, Lw, Lb. lia.
  - apply Forall_map.
    eapply Forall_impl; [|apply Linear_forward_reaches_owner].
    intros e He. exact He.
Qed.

(** The values of a critic whose layers are populated, for an action that
    reaches the network [oa]: there is at least one, and each reaches the
    parameters of the critic and the network [oa]. *)
Lemma Critic_forward_reaches (oc oa : owner) (p : Critic.params R)
  (state action : list node) :
  Critic.populated p = true ->
  (0 < length action)%nat ->
  Forall (fun e => reaches oa e = true) action ->
  (0 < length (Critic.forward (leaves oc p) state action))%nat /\
  Forall (fun e => reaches oc e = true /\ reaches oa e = true)
    (Critic.forward (leaves oc p) state action).
Proof.
  unfold Critic.populated. intros H Hn Ha.
  apply andb_true_iff in H. destruct H as [H Hq].
  apply andb_true_iff in H. destruct H as [H Hav].
  apply andb_true_iff in H. destruct H as [H Hbn2].
  apply andb_true_iff in H. destruct H as [_ Hfc2].
  apply Linear_populated_spec in Hq. destruct Hq as (Qw & Qb & Qr).
  apply Linear_populated_spec in Hav. destruct Hav as (Aw & Ab & Ar).
  apply Linear_populated_spec in Hfc2. destruct Hfc2 as (Fw & Fb & _).
  apply LayerNorm_populated_spec in Hbn2. destruct Hbn2 as (Nw & Nb).
  unfold Critic.forward, leaves.
  cbn [pimap Critic.Parameters_params Critic.imap Critic.fc1 Critic.bn1 Critic.fc2
       Critic.bn2 Critic.action_value Critic.q].
  destruct (Linear_leaves_lengths Torch.q oc (Critic.q p)) as [LQw LQb].
  destruct (Linear_leaves_lengths Torch.action_value oc (Critic.action_value p))
    as [LAw LAb].
  destruct (Linear_leaves_lengths Torch.fc2 oc (Critic.fc2 p)) as [LFw LFb].
  destruct (LayerNorm_leaves_lengths Torch.bn2 oc (Critic.bn2 p)) as [LNw LNb].
  split.
  - rewrite Linear_forward_length, LQw, LQb. lia.
  - apply Forall_and; [apply Linear_forward_reaches_owner|].
    apply Linear_forward_reaches_input.
    + unfold relu, add. rewrite length_map, map2_length, length_map.
      rewrite LayerNorm_forward_length, !Linear_forward_length.
      rewrite LNw, LNb, LFw, LFb, LAw, LAb. lia.
    + unfold relu at 1. apply Forall_map. unfold add.
      apply Forall_map2 with (P := fun _ : node => True)
                             (Q := fun e => reaches oa e = true).
      * intros x y _ Hy. cbn [reaches]. rewrite Hy. apply orb_true_r.
      * apply Forall_forall. intros x _. exact I.
      * unfold relu. apply Forall_map.
        eapply Forall_impl; [|apply Linear_forward_reaches_input].
        -- intros e He. exact He.
        -- exact Hn.
        -- exact Ha.
        -- apply Linear_leaves_rows. exact Ar.
    + apply Linear_leaves_rows. exact Qr.
Qed.

(** The rows of the targets, for next values that reach two networks. *)
Lemma target_rows (o1 o2 : owner) (gamma : R) (rb : list (list R)) (db : list bool)
  (q_next : list (list node)) :
  length rb = length q_next -> length db = length q_next ->
  Forall (fun r : list R => length r = 1%nat) rb ->
  Forall (fun row => (0 < length row)%nat /\
                     Forall (fun e => reaches o1 e = true /\ reaches o2 e = true) row)
    q_next ->
  let y := map2 (map2 Add) (map tensor rb)
             (map2 (map2 Mul)
                (map (map (Mul (Const gamma))) (DDPGagent.not_done_tensor db)) q_next) in
  length y = length q_next /\
  Forall (fun row => exists e, row = [e] /\ requires_grad e = true /\
                               reaches o1 e = true /\ reaches o2 e = true) y.
Proof.
  revert rb db. induction q_next as [|c q_next IH]; intros [|r rb] [|d db] Lr Ld Hr Hq;
    simpl in Lr, Ld; try discriminate.
  - split; [reflexivity | constructor].
  - inversion Hr as [|? ? Hr0 Hr']; subst.
    inversion Hq as [|? ? [Hc0 Hc] Hq']; subst.
    destruct (IH rb db) as [IH1 IH2]; [lia | lia | exact Hr' | exact Hq' |].
    destruct r as [|r0 [|r1 r]]; try discriminate Hr0.
    destruct c as [|c0 c]; [simpl in Hc0; lia|].
    inversion Hc as [|? ? [H1 H2] _]; subst.
    cbv zeta in IH1, IH2 |- *. simpl. split; [rewrite IH1; reflexivity|].
    constructor; [|exact IH2].
    eexists. split; [reflexivity|].
    assert (R1 : forall o, reaches o c0 = true ->
                   reaches o (Add (Const r0)
                                (Mul (Mul (Const gamma) (Const (if d then 1 else 0))) c0))
                   = true).
    { intros o Ho. simpl. rewrite Ho. reflexivity. }
    split; [apply (reaches_requires_grad o1), R1, H1|].
    split; [apply R1, H1 | apply R1, H2].
Qed.

Lemma Forall_gather {A : Type} (P : A -> Prop) (population : list A) (pick : list nat) :
  Forall P population -> Forall P (Random.gather population pick).
Proof.
  intro H. induction pick as [|j rest IH]; simpl; [constructor|].
  destruct (nth_error population j) as [x|] eqn:E; [|exact IH].
  constructor; [|exact IH].
  rewrite Forall_forall in H. apply H. apply nth_error_In with j. exact E.
Qed.

(** What [sample] returns: the parts of the gathered experiences. *)
Lemma sample_parts (m : Replay_Memory) (k : Z) (pick : list nat)
  (sb ab rb nb : list (list R)) (db : list bool) :
  Replay_Memory_sample m k pick = Ok (sb, ab, rb, nb, db) ->
  let batch := Random.gather (Deque.items (buffer m)) pick in
  sb = map exp_state batch /\ ab = map exp_action batch /\
  rb = map exp_reward batch /\ nb = map exp_next_state batch /\
  db = map (fun e => negb (exp_done e)) batch.
Proof.
  unfold Replay_Memory_sample, Random.sample.
  destruct (_ || _)%bool; unfold bind; [discriminate|].
  rewrite unpack_batch_acc. simpl. intro E. inversion E; subst. repeat split.
Qed.

(** The targets of [train] require a gradient: for target networks whose
    layers are populated and rewards stored by [push], there is one target
    for each sampled transition, and its graph reaches the parameters of
    both target networks. *)
Lemma targets_require_grad (a : DDPGagent.t) (pick : list nat)
  (sb ab rb nb : list (list R)) (db : list bool) :
  Replay_Memory_sample (DDPGagent.memory a) (DDPGagent.batch_size a) pick
    = Ok (sb, ab, rb, nb, db) ->
  Critic.populated (Critic.parameters (DDPGagent.target_critic a)) = true ->
  Actor.populated (Actor.parameters (DDPGagent.target_actor a)) = true ->
  Forall (fun e => length (exp_reward e) = 1%nat)
    (Deque.items (buffer (DDPGagent.memory a))) ->
  let y := DDPGagent.targets (DDPGagent.eval_mode a) (map tensor rb) (map tensor nb)
             (DDPGagent.not_done_tensor db) in
  length y = length sb /\
  Forall (fun row => exists e, row = [e] /\ requires_grad e = true /\
                               reaches TargetCritic e = true /\
                               reaches TargetActor e = true) y.
Proof.
  intros Hs Hc Ha Hm.
  destruct (sample_parts _ _ _ Hs) as (Es & _ & Er & En & Ed).
  set (batch := Random.gather (Deque.items (buffer (DDPGagent.memory a))) pick) in *.
  unfold DDPGagent.targets.
  cbn [DDPGagent.eval_mode DDPGagent.set_networks DDPGagent.target_actor
       DDPGagent.target_critic DDPGagent.gamma Actor.set_training Critic.set_training
       Actor.parameters Critic.parameters].
  match goal with
  | |- context [map2 (map2 Mul) _ ?q] => set (q_next := q)
  end.
  assert (Lq : length q_next = length batch).
  { unfold q_next, Critic.forward_batch, Actor.forward_batch.
    rewrite map2_length, !length_map, En, length_map. lia. }
  assert (Hq : Forall (fun row => (0 < length row)%nat /\
                                  Forall (fun e => reaches TargetCritic e = true /\
                                                   reaches TargetActor e = true) row)
                 q_next).
  { unfold q_next, Critic.forward_batch, Actor.forward_batch.
    apply Forall_map2 with
      (P := fun _ : list node => True)
      (Q := fun act => (0 < length act)%nat /\
                       Forall (fun e => reaches TargetActor e = true) act).
    - intros s act _ [Hn Hact]. apply Critic_forward_reaches; assumption.
    - apply Forall_forall. intros s _. exact I.
    - apply Forall_map, Forall_forall. intros s _.
      apply Actor_forward_reaches. exact Ha. }
  destruct (@target_rows TargetCritic TargetActor (DDPGagent.gamma a) rb db q_next)
    as [L F].
  - rewrite Lq, Er, length_map. reflexivity.
  - rewrite Lq, Ed, length_map. reflexivity.
  - rewrite Er. apply Forall_map. apply Forall_gather. exact Hm.
  - exact Hq.
  - cbv zeta in L, F. split; [|exact F].
    rewrite L, Lq, Es, length_map. reflexivity.
Qed.

(** [push] stores the reward as an array of one entry. *)
Lemma push_reward_shape (a : DDPGagent.t) (state action : list R) (reward : R)
  (next_state : list R) (done : bool) :
  Forall (fun e => length (exp_reward e) = 1%nat)
    (Deque.items (buffer (DDPGagent.memory a))) ->
  Forall (fun e => length (exp_reward e) = 1%nat)
    (Deque.items
       (buffer (DDPGagent.memory
                  (DDPGagent.update_replay_memory a state action reward next_state done)))).
Proof.
  intro H. unfold DDPGagent.update_replay_memory, Replay_Memory_push, Deque.append.
  cbn [DDPGagent.memory DDPGagent.set_memory buffer Deque.items Deque.maxlen].
  assert (F : Forall (fun e => length (exp_reward e) = 1%nat)
                (Deque.items (buffer (DDPGagent.memory a))
                 ++ [(state, action, [reward], next_state, done)])).
  { apply Forall_app. split; [exact H|]. constructor; [reflexivity | constructor]. }
  destruct (_ <? _)%N; [|exact F].
  destruct (_ ++ _) as [|x l]; [constructor|].
  inversion F; assumption.
Qed.

(** C2, as the code has it.  [train] computes the targets with gradient
    tracking on (there is no [no_grad] block and no [detach]).  In every
    call of [train] that passes the warm-up guard: for target networks
    whose layers are populated and rewards stored by [push], there is one
    target for each sampled transition, it requires a gradient, and its
    graph reaches the parameters of both target networks, so the backward
    pass of the critic loss reaches them; for an agent whose loss is the
    mean squared error the result of the call is nevertheless the one of
    the training step with detached targets, up to the [.grad] fields: the
    parameters of the critic and the state of its optimizer (and of every
    other network and optimizer) are the same; and, whatever the loss, the
    parameters of the two target networks are written by the soft update
    only, from their values before the call and the online parameters
    after it. *)
Theorem train_targets_inert (a a' : DDPGagent.t) (pick : list nat) :
  (DDPGagent.replay_min a <= Z.of_nat (Replay_Memory_len (DDPGagent.memory a)))%Z ->
  DDPGagent.train a pick = Ok a' ->
  (forall (sb ab rb nb : list (list R)) (db : list bool),
      Replay_Memory_sample (DDPGagent.memory a) (DDPGagent.batch_size a) pick
        = Ok (sb, ab, rb, nb, db) ->
      Critic.populated (Critic.parameters (DDPGagent.target_critic a)) = true ->
      Actor.populated (Actor.parameters (DDPGagent.target_actor a)) = true ->
      Forall (fun e => length (exp_reward e) = 1%nat)
        (Deque.items (buffer (DDPGagent.memory a))) ->
      let y := DDPGagent.targets (DDPGagent.eval_mode a) (map tensor rb) (map tensor nb)
                 (DDPGagent.not_done_tensor db) in
      length y = length sb /\
      Forall (fun row => exists e, row = [e] /\ requires_grad e = true /\
                                   reaches TargetCritic e = true /\
                                   reaches TargetActor e = true) y) /\
  (DDPGagent.critic_criterion a = MSELoss ->
   exists a'' g,
     DDPGagent.train_no_grad a pick = Ok a'' /\
     a'' = DDPGagent.set_grad a' g /\
     DDPGagent.critic a'' = DDPGagent.critic a' /\
     DDPGagent.critic_optimizer a'' = DDPGagent.critic_optimizer a') /\
  let blend := fun target_param param =>
                 param * DDPGagent.tau a + target_param * (1 - DDPGagent.tau a) in
  Critic.parameters (DDPGagent.target_critic a') =
    pmap2 blend (Critic.parameters (DDPGagent.target_critic a))
                (Critic.parameters (DDPGagent.critic a')) /\
  Actor.parameters (DDPGagent.target_actor a') =
    pmap2 blend (Actor.parameters (DDPGagent.target_actor a))
                (Actor.parameters (DDPGagent.actor a')).
Proof.
  intros Hguard Htrain. split.
  { intros sb ab rb nb db Hs Hc Ha Hm. apply (targets_require_grad a pick Hs Hc Ha Hm). }
  revert Htrain. unfold DDPGagent.train, DDPGagent.train_no_grad.
  destruct (Z.ltb_spec (Z.of_nat (Replay_Memory_len (DDPGagent.memory a)))
              (DDPGagent.replay_min a)) as [C|_]; [lia|].
  destruct (Replay_Memory_sample _ _ _) as [[[[[sb ab] rb] nb] db]|e];
    unfold bind; [|discriminate].
  intro E. inversion E as [Ea]. clear E. split.
  - intro Hloss.
    set (ea := DDPGagent.eval_mode a).
    set (y := DDPGagent.targets ea (map tensor rb) (map tensor nb)
                (DDPGagent.not_done_tensor db)).
    assert (Hy : Forall (Forall (clean OnlineCritic)) y)
      by (apply targets_clean; discriminate).
    destruct (@critic_step_detach ea (map tensor sb) (map tensor ab) y Hloss Hy)
      as [g1 H1].
    rewrite H1.
    destruct (actor_step_set_grad
                (DDPGagent.critic_step ea (map tensor sb) (map tensor ab) y) g1
                (map tensor sb)) as [g2 H2].
    rewrite H2.
    eexists. exists g2. split; [reflexivity|]. repeat split.
  - unfold DDPGagent.update_target_weights, DDPGagent.actor_step,
      DDPGagent.critic_step.
    destruct_lets. split; reflexivity.
Qed.

Lemma train_targets_inert_witness :
  let a := Examples.ready_agent in
  let y := DDPGagent.targets (DDPGagent.eval_mode a) (map tensor [[2]])
             (map tensor [[1]]) (DDPGagent.not_done_tensor [false]) in
  exists a' a'' g,
    DDPGagent.train a [0%nat] = Ok a' /\
    length y = 1%nat /\
    Forall (fun row => exists e, row = [e] /\ requires_grad e = true /\
                                 reaches TargetCritic e = true /\
                                 reaches TargetActor e = true) y /\
    DDPGagent.train_no_grad a [0%nat] = Ok a'' /\
    a'' = DDPGagent.set_grad a' g.
Proof.
  intros a y.
  assert (H : (0 <= DDPGagent.batch_size Examples.ready_agent
               <= Z.of_nat (Replay_Memory_len (DDPGagent.memory Examples.ready_agent)))%Z).
  { split; apply Z.leb_le; reflexivity. }
  destruct (proj2 (sample_returns Examples.ready_agent [0%nat] H)) as [a' E].
  destruct (@train_targets_inert Examples.ready_agent a' [0%nat])
    as (T & D & _).
  - apply Z.leb_le. reflexivity.
  - exact E.
  - destruct (T [[1]] [[0]] [[2]] [[1]] [false]) as [L F].
    + reflexivity.
    + reflexivity.
    + reflexivity.
    + repeat constructor.
    + destruct (D eq_refl) as (a'' & g & H1 & H2 & _).
      exists a', a'', g.
      split; [exact E|]. split; [exact L|]. split; [exact F|].
      split; [exact H1 | exact H2].
Defined.

(** C2, as it is stated, fails: in a call of [train] that passes the guard
    the target computed for the sampled transition requires a gradient and
    its graph reaches the parameters of both target networks, while with
    detached targets it would not. *)
Lemma targets_require_grad_counterexample :
  let a := Examples.ready_agent in
  (Z.of_nat (Replay_Memory_len (DDPGagent.memory a)) <? DDPGagent.replay_min a)%Z = false /\
  Replay_Memory_sample (DDPGagent.memory a) (DDPGagent.batch_size a) [0%nat]
    = Ok ([[1]], [[0]], [[2]], [[1]], [false]) /\
  let y := DDPGagent.targets (DDPGagent.eval_mode a) (map tensor [[2]])
             (map tensor [[1]]) (DDPGagent.not_done_tensor [false]) in
  option_map requires_grad (lookup2 y 0 0) = Some true /\
  option_map (reaches TargetCritic) (lookup2 y 0 0) = Some true /\
  option_map (reaches TargetActor) (lookup2 y 0 0) = Some true /\
  option_map requires_grad (lookup2 (map (map Detach) y) 0 0) = Some false.
Proof.
  cbv zeta. split; [reflexivity|]. split; [reflexivity|].
  repeat split; reflexivity.
Qed.

End Gradients.

(** ** The critic update of train *)

Section CriticUpdate.

Import Torch.

Lemma eval_map2 (F : node -> node -> node) (f : R -> R -> R) (l l' : list node) :
  (forall x y, eval (F x y) = f (eval x) (eval y)) ->
  map eval (map2 F l l') = map2 f (map eval l) (map eval l').
Proof.
  intro H. revert l'. induction l as [|x l IH]; intros [|y l']; simpl;
    try reflexivity.
  rewrite H, IH. reflexivity.
Qed.

Lemma eval_map2_rows (F : node -> node -> node) (f : R -> R -> R)
  (m m' : list (list node)) :
  (forall x y, eval (F x y) = f (eval x) (eval y)) ->
  map (map eval) (map2 (map2 F) m m') =
  map2 (map2 f) (map (map eval) m) (map (map eval) m').
Proof.
  intro H. revert m'. induction m as [|r m IH]; intros [|r' m']; simpl;
    try reflexivity.
  rewrite (eval_map2 F f r r' H), IH. reflexivity.
Qed.

Lemma eval_tensor (data : list R) : map eval (tensor data) = data.
Proof.
  unfold tensor. rewrite map_map. simpl. apply map_id.
Qed.

Lemma eval_tensors (data : list (list R)) : map (map eval) (map tensor data) = data.
Proof.
  rewrite map_map. rewrite <- (map_id data) at 2.
  apply map_ext. intro r. apply eval_tensor.
Qed.

Lemma eval_fold_Add (l : list node) (init : node) :
  eval (fold_left Add l init) = fold_left Rplus (map eval l) (eval init).
Proof.
  revert init. induction l as [|x l IH]; intro init; simpl; [reflexivity|].
  rewrite IH. reflexivity.
Qed.

(** The value of [nn.MSELoss()] is the mean squared error of the values. *)
Lemma eval_MSELoss (input target : list (list node)) :
  eval (MSELoss input target) =
  mse (map eval (concat input)) (map eval (concat target)).
Proof.
  unfold MSELoss, mean, mse, sum. simpl.
  rewrite eval_fold_Add. simpl.
  rewrite (eval_map2 (fun x y => Mul (Sub x y) (Sub x y))
             (fun x y => (x - y) * (x - y))) by reflexivity.
  rewrite !map2_length, !length_map. reflexivity.
Qed.

(** The values of the targets of [train]. *)
Lemma eval_targets (a : DDPGagent.t) (rewards next_states : list (list R))
  (not_done : list bool) :
  let q_next :=
    Critic.forward_batch
      (leaves TargetCritic (Critic.parameters (DDPGagent.target_critic a)))
      (map tensor next_states)
      (Actor.forward_batch
         (leaves TargetActor (Actor.parameters (DDPGagent.target_actor a)))
         (map tensor next_states)) in
  map (map eval)
    (DDPGagent.targets a (map tensor rewards) (map tensor next_states)
       (DDPGagent.not_done_tensor not_done)) =
  target_values (DDPGagent.gamma a) rewards not_done (map (map eval) q_next).
Proof.
  intro q_next. unfold DDPGagent.targets, target_values. fold q_next.
  rewrite (eval_map2_rows Add Rplus) by reflexivity.
  rewrite (eval_map2_rows Mul Rmult) by reflexivity.
  rewrite eval_tensors. do 2 f_equal.
  unfold DDPGagent.not_done_tensor. rewrite !map_map. reflexivity.
Qed.

Lemma let_pair {A B C : Type} (x : A * B) (f : A -> B -> C) :
  (let (p, o) := x in f p o) = f (fst x) (snd x).
Proof.
  destruct x. reflexivity.
Qed.

Lemma actor_step_keeps_critic (a : DDPGagent.t) (states : list (list node)) :
  DDPGagent.critic (DDPGagent.actor_step a states) = DDPGagent.critic a /\
  DDPGagent.critic_optimizer (DDPGagent.actor_step a states) =
  DDPGagent.critic_optimizer a.
Proof.
  unfold DDPGagent.actor_step. rewrite let_pair. split; reflexivity.
Qed.

(** The constructor stores the loss it is given as the criterion of the
    critic. *)
Lemma init_criterion (env : DDPGagent.environment) (layer1_size layer2_size : nat)
  (replay_min : Z) (replay_size : N) (critic_lr actor_lr tau gamma : R)
  (loss : DDPGagent.criterion) (batch_size : Z) (name_critic name_actor : option string)
  (directory : string) (fs : filesystem) (g : Generator.t) :
  DDPGagent.critic_criterion
    (fst (fst (DDPGagent.init env layer1_size layer2_size replay_min replay_size
                 critic_lr actor_lr tau gamma loss batch_size name_critic name_actor
                 directory fs g))) = loss.
Proof.
  unfold DDPGagent.init. destruct_inits. reflexivity.
Qed.

(** C5, as the code has it.  In a call of [train] that passes the warm-up
    guard and draws a batch, whatever the loss of the agent: the target of
    every batch element is its reward plus [gamma] times its continuation
    flag times the value the target critic gives to the next state and the
    action of the target actor there; the loss is the criterion of the
    agent, which is the loss given to the constructor, applied to the
    values of the critic and these targets, and for the mean squared error
    (the default of the constructor) its value is the mean squared error
    between the two; the critic step replaces the parameters of the critic
    and the state of its optimizer by the result of one optimizer step on
    the gradients of that loss (the step counter grows by one) and writes
    no parameter of the actor or of the target networks nor the optimizer
    of the actor; and [train] returns an agent whose critic has exactly
    these parameters. *)
Theorem train_critic_regression (a : DDPGagent.t) (pick : list nat)
  (sb ab rb nb : list (list R)) (db : list bool) :
  (DDPGagent.replay_min a <= Z.of_nat (Replay_Memory_len (DDPGagent.memory a)))%Z ->
  Replay_Memory_sample (DDPGagent.memory a) (DDPGagent.batch_size a) pick
    = Ok (sb, ab, rb, nb, db) ->
  let states := map tensor sb in
  let actions := map tensor ab in
  let next_states := map tensor nb in
  let q_next :=
    Critic.forward_batch
      (leaves TargetCritic (Critic.parameters (DDPGagent.target_critic a)))
      next_states
      (Actor.forward_batch
         (leaves TargetActor (Actor.parameters (DDPGagent.target_actor a)))
         next_states) in
  let y := DDPGagent.targets (DDPGagent.eval_mode a) (map tensor rb) next_states
             (DDPGagent.not_done_tensor db) in
  let critic_value :=
    Critic.forward_batch
      (leaves OnlineCritic (Critic.parameters (DDPGagent.critic a))) states actions in
  let loss := DDPGagent.critic_loss (DDPGagent.eval_mode a) states actions y in
  let step :=
    Adam.step (DDPGagent.critic_optimizer a) (Critic.parameters (DDPGagent.critic a))
      (grads OnlineCritic (backward loss (zero_grad OnlineCritic (DDPGagent.grad a)))
         (Critic.parameters (DDPGagent.critic a))) in
  let a1 := DDPGagent.critic_step (DDPGagent.eval_mode a) states actions y in
  map (map eval) y = target_values (DDPGagent.gamma a) rb db (map (map eval) q_next) /\
  (loss = DDPGagent.critic_criterion a critic_value y /\
   (forall (env : DDPGagent.environment) (layer1_size layer2_size : nat)
           (replay_min : Z) (replay_size : N) (critic_lr actor_lr tau gamma : R)
           (criterion : DDPGagent.criterion) (batch_size : Z)
           (name_critic name_actor : option string) (directory : string)
           (fs : filesystem) (g : Generator.t),
       DDPGagent.critic_criterion
         (fst (fst (DDPGagent.init env layer1_size layer2_size replay_min replay_size
                      critic_lr actor_lr tau gamma criterion batch_size name_critic
                      name_actor directory fs g))) = criterion) /\
   (DDPGagent.critic_criterion a = MSELoss ->
    eval loss = mse (map eval (concat critic_value)) (map eval (concat y)))) /\
  (Critic.parameters (DDPGagent.critic a1) = fst step /\
   DDPGagent.critic_optimizer a1 = snd step /\
   Adam.step_count (DDPGagent.critic_optimizer a1) =
   S (Adam.step_count (DDPGagent.critic_optimizer a))) /\
  (Actor.parameters (DDPGagent.actor a1) = Actor.parameters (DDPGagent.actor a) /\
   Critic.parameters (DDPGagent.target_critic a1) =
   Critic.parameters (DDPGagent.target_critic a) /\
   Actor.parameters (DDPGagent.target_actor a1) =
   Actor.parameters (DDPGagent.target_actor a) /\
   DDPGagent.actor_optimizer a1 = DDPGagent.actor_optimizer a) /\
  exists a',
    DDPGagent.train a pick = Ok a' /\
    Critic.parameters (DDPGagent.critic a') = fst step /\
    DDPGagent.critic_optimizer a' = snd step.
Proof.
  intros Hguard Hs states actions next_states q_next y critic_value loss step a1.
  assert (H1 : Critic.parameters (DDPGagent.critic a1) = fst step /\
               DDPGagent.critic_optimizer a1 = snd step).
  { unfold a1, DDPGagent.critic_step. rewrite let_pair. split; reflexivity. }
  split; [|split; [|split; [|split]]].
  - apply (eval_targets (DDPGagent.eval_mode a)).
  - split; [reflexivity|]. split; [intros; apply init_criterion|].
    intro Hloss. unfold loss, DDPGagent.critic_loss.
    change (DDPGagent.critic_criterion (DDPGagent.eval_mode a))
      with (DDPGagent.critic_criterion a).
    rewrite Hloss. apply eval_MSELoss.
  - destruct H1 as [H1 H2]. split; [exact H1|]. split; [exact H2|].
    rewrite H2. reflexivity.
  - unfold a1, DDPGagent.critic_step. rewrite let_pair. repeat split.
  - unfold DDPGagent.train.
    destruct (Z.ltb_spec (Z.of_nat (Replay_Memory_len (DDPGagent.memory a)))
                (DDPGagent.replay_min a)) as [C|_]; [lia|].
    rewrite Hs. unfold bind. eexists. split; [reflexivity|].
    fold states actions next_states. fold y. fold a1.
    destruct (actor_step_keeps_critic a1 states) as [K1 K2].
    destruct H1 as [H1 H2].
    unfold DDPGagent.update_target_weights.
    cbn [DDPGagent.critic DDPGagent.critic_optimizer DDPGagent.set_networks].
    rewrite K1, K2. split; assumption.
Qed.

Lemma train_critic_regression_witness :
  (exists a',
      DDPGagent.train Examples.l1_agent [0%nat] = Ok a' /\
      Adam.step_count (DDPGagent.critic_optimizer a') = 1%nat) /\
  (exists a',
      DDPGagent.train Examples.ready_agent [0%nat] = Ok a' /\
      Adam.step_count (DDPGagent.critic_optimizer a') = 1%nat).
Proof.
  split.
  - destruct (@train_critic_regression Examples.l1_agent [0%nat]
                [[1]] [[0]] [[2]] [[1]] [false])
      as (_ & _ & _ & _ & a' & T & _ & O).
    + apply Z.leb_le. reflexivity.
    + reflexivity.
    + exists a'. split; [exact T|]. rewrite O. reflexivity.
  - destruct (@train_critic_regression Examples.ready_agent [0%nat]
                [[1]] [[0]] [[2]] [[1]] [false])
      as (_ & _ & _ & _ & a' & T & _ & O).
    + apply Z.leb_le. reflexivity.
    + reflexivity.
    + exists a'. split; [exact T|]. rewrite O. reflexivity.
Defined.

Ltac evaluate :=
  cbv -[Rplus Rmult Rminus Ropp Rdiv Rinv sqrt IZR INR Rmax Rabs Rtrigo_def.tanh].

(** C5, as it is stated, fails: the loss is the one given to the
    constructor.  For the agent built with [loss = nn.L1Loss()], with the
    sampled transition of reward [2], the critic gives the value [0], the
    target is [2], the loss of [train] is [2], and the mean squared error
    is [4]. *)
Lemma critic_loss_not_mse_counterexample :
  let a := Examples.l1_agent in
  (Z.of_nat (Replay_Memory_len (DDPGagent.memory a)) <? DDPGagent.replay_min a)%Z = false /\
  Replay_Memory_sample (DDPGagent.memory a) (DDPGagent.batch_size a) [0%nat]
    = Ok ([[1]], [[0]], [[2]], [[1]], [false]) /\
  let states := map tensor [[1]] in
  let actions := map tensor [[0]] in
  let y := DDPGagent.targets (DDPGagent.eval_mode a) (map tensor [[2]])
             (map tensor [[1]]) (DDPGagent.not_done_tensor [false]) in
  let critic_value :=
    Critic.forward_batch
      (leaves OnlineCritic (Critic.parameters (DDPGagent.critic a))) states actions in
  let loss := DDPGagent.critic_loss (DDPGagent.eval_mode a) states actions y in
  map eval (concat critic_value) = [0] /\
  map eval (concat y) = [2] /\
  eval loss = 2 /\
  mse (map eval (concat critic_value)) (map eval (concat y)) = 4.
Proof.
  cbv zeta. split; [reflexivity|]. split; [reflexivity|].
  match goal with
  | |- ?A = _ /\ ?B = _ /\ _ =>
      assert (HA : A = [0]); [|assert (HB : B = [2])]
  end.
  - evaluate. f_equal.
    match goal with |- 0 + ?x * _ + _ = _ => generalize x end.
    intro x. lra.
  - evaluate. f_equal.
    match goal with |- _ + _ * ?x = _ => generalize x end.
    intro x. lra.
  - split; [exact HA|]. split; [exact HB|]. split.
    + evaluate.
      match goal with
      | |- (0 + Rabs (0 + ?x * _ + _ - (_ + _ * ?y))) / _ = _ =>
          generalize x; generalize y
      end.
      intros y x.
      match goal with
      | |- (0 + Rabs ?d) / _ = _ => replace d with (- 2) by lra
      end.
      rewrite Rabs_left by lra. change (INR 1) with 1. lra.
    + rewrite HA, HB. unfold mse. simpl. lra.
Qed.

End CriticUpdate.

(** ** The action wrapper *)

Section ActionWrapper.

Lemma action_nth_error (sp : Box.t) (a : list R) (i : nat) (l h v : R) :
  nth_error (Box.low sp) i = Some l ->
  nth_error (Box.high sp) i = Some h ->
  nth_error a i = Some v ->
  nth_error (NormalizedEnv.action sp a) i = Some ((h - l) / 2 * v + (h + l) / 2).
Proof.
  intros Hl Hh Hv. unfold NormalizedEnv.action.
  rewrite !nth_error_map2, !nth_error_map, !nth_error_map2, Hl, Hh, Hv.
  reflexivity.
Qed.

Lemma reverse_action_nth_error (sp : Box.t) (a : list R) (i : nat) (l h v : R) :
  nth_error (Box.low sp) i = Some l ->
  nth_error (Box.high sp) i = Some h ->
  nth_error a i = Some v ->
  nth_error (NormalizedEnv.reverse_action sp a) i = Some (2 / (h - l) * (v - (h + l) / 2)).
Proof.
  intros Hl Hh Hv. unfold NormalizedEnv.reverse_action.
  rewrite !nth_error_map2, !nth_error_map, !nth_error_map2, Hl, Hh, Hv.
  reflexivity.
Qed.

Lemma nth_error_lengths {A B : Type} (l : list A) (l' : list B) (i : nat) :
  length l = length l' ->
  (exists x y, nth_error l i = Some x /\ nth_error l' i = Some y) \/
  (nth_error l i = None /\ nth_error l' i = None).
Proof.
  intro H. destruct (nth_error l i) as [x|] eqn:E.
  - left. destruct (nth_error l' i) as [y|] eqn:E'.
    + exists x, y. split; reflexivity.
    + apply nth_error_None in E'.
      assert (Hi : (i < length l)%nat) by (apply nth_error_Some; congruence). lia.
  - right. split; [reflexivity|]. apply nth_error_None.
    apply nth_error_None in E. lia.
Qed.

(** X1.  For an action with as many components as the bounds, [action]
    returns as many components, and sends a component in [-1, 1] to a value
    between the lower and the upper bound of that component, [-1] to the
    lower bound and [1] to the upper bound. *)
Theorem action_within_bounds (sp : Box.t) (a : list R) (i : nat) (l h v : R) :
  length (Box.low sp) = length a ->
  length (Box.high sp) = length a ->
  nth_error (Box.low sp) i = Some l ->
  nth_error (Box.high sp) i = Some h ->
  nth_error a i = Some v ->
  l <= h -> -1 <= v <= 1 ->
  length (NormalizedEnv.action sp a) = length a /\
  exists y,
    nth_error (NormalizedEnv.action sp a) i = Some y /\
    l <= y <= h /\ (v = -1 -> y = l) /\ (v = 1 -> y = h).
Proof.
  intros Ll Lh Hl Hh Hv Hlh Hr. split.
  { unfold NormalizedEnv.action.
    rewrite !map2_length, !length_map, !map2_length. lia. }
  exists ((h - l) / 2 * v + (h + l) / 2).
  split; [apply action_nth_error; assumption|].
  split; [split; nra|].
  split; intro E; subst v; lra.
Qed.

Lemma action_within_bounds_witness :
  exists y,
    nth_error (NormalizedEnv.action (Box.mk 1 [-2] [4]) [1 / 2]) 0 = Some y /\
    -2 <= y <= 4.
Proof.
  destruct (@action_within_bounds (Box.mk 1 [-2] [4]) [1 / 2] 0 (-2) 4 (1 / 2))
    as (_ & y & H1 & H2 & _); try reflexivity; try lra.
  exists y. split; assumption.
Defined.

(** X2.  Where no component has equal bounds and the action has as many
    components as the bounds, [reverse_action] undoes [action] and [action]
    undoes [reverse_action]. *)
Theorem action_round_trip (sp : Box.t) (a : list R) :
  length (Box.low sp) = length a ->
  length (Box.high sp) = length a ->
  (forall i l h, nth_error (Box.low sp) i = Some l ->
                 nth_error (Box.high sp) i = Some h -> l <> h) ->
  NormalizedEnv.reverse_action sp (NormalizedEnv.action sp a) = a /\
  NormalizedEnv.action sp (NormalizedEnv.reverse_action sp a) = a.
Proof.
  intros Hl Hh Hne.
  assert (Hlh : length (Box.low sp) = length (Box.high sp)) by congruence.
  split; apply nth_error_ext; intro i.
  - destruct (nth_error_lengths (Box.low sp) a i Hl) as [(l & v & El & Ev)|[El Ev]].
    + destruct (nth_error_lengths (Box.low sp) (Box.high sp) i Hlh)
        as [(l' & h & El' & Eh)|[El' _]]; [|congruence].
      assert (l' = l) by congruence. subst l'.
      rewrite (reverse_action_nth_error sp _ i El Eh (action_nth_error sp a i El Eh Ev)).
      rewrite Ev. f_equal. specialize (Hne i l h El Eh). field. lra.
    + rewrite Ev. unfold NormalizedEnv.reverse_action.
      rewrite !nth_error_map2, !nth_error_map, !nth_error_map2, El.
      destruct (nth_error (Box.high sp) i); reflexivity.
  - destruct (nth_error_lengths (Box.low sp) a i Hl) as [(l & v & El & Ev)|[El Ev]].
    + destruct (nth_error_lengths (Box.low sp) (Box.high sp) i Hlh)
        as [(l' & h & El' & Eh)|[El' _]]; [|congruence].
      assert (l' = l) by congruence. subst l'.
      rewrite (action_nth_error sp _ i El Eh (reverse_action_nth_error sp a i El Eh Ev)).
      rewrite Ev. f_equal. specialize (Hne i l h El Eh). field. lra.
    + rewrite Ev. unfold NormalizedEnv.action.
      rewrite !nth_error_map2, !nth_error_map, !nth_error_map2, El.
      destruct (nth_error (Box.high sp) i); reflexivity.
Qed.

Lemma action_round_trip_witness :
  let sp := Box.mk 2 [-2; 0] [4; 1] in
  NormalizedEnv.reverse_action sp (NormalizedEnv.action sp [1 / 2; -1]) = [1 / 2; -1].
Proof.
  intro sp. apply (@action_round_trip sp [1 / 2; -1]); try reflexivity.
  intros [|[|i]] l h El Eh; simpl in El, Eh.
  - inversion El; inversion Eh; subst. intro C. lra.
  - inversion El; inversion Eh; subst. intro C. lra.
  - destruct i; discriminate El.
Defined.

End ActionWrapper.

(** ** The exploration noise *)

Section Noise.

Lemma clip_nth_error (a a_min a_max : list R) (i : nat) :
  nth_error (OUNoise.clip a a_min a_max) i =
  both Rmin (both Rmax (nth_error a i) (nth_error a_min i)) (nth_error a_max i).
Proof.
  unfold OUNoise.clip. rewrite !nth_error_map2. reflexivity.
Qed.

Lemma evolve_state_nth_error (n : OUNoise.t) (randn : list R) (i : nat) (x e : R) :
  nth_error (OUNoise.state n) i = Some x ->
  nth_error randn i = Some e ->
  nth_error (snd (OUNoise.evolve_state n randn)) i =
  Some (x + (OUNoise.theta n * (OUNoise.mu n - x) + OUNoise.sigma n * e)).
Proof.
  intros Hx He. unfold OUNoise.evolve_state. cbn [snd OUNoise.state OUNoise.set_state].
  rewrite !nth_error_map2, !nth_error_map, Hx, He. reflexivity.
Qed.

(** X3.  With a non-zero decay period, and the state, the draws, the
    action and the bounds all of [action_dim] components, [get_action]
    returns [action_dim] components, and every component of the returned
    action lies between the bounds of that component: it is the sum of the
    given action and the new state of the process where that sum lies
    between the bounds, and the nearer bound otherwise. *)
Theorem noise_action_clipped (n : OUNoise.t) (action : list R) (t : R) (randn : list R) :
  OUNoise.decay_period n <> 0 ->
  length (OUNoise.state n) = OUNoise.action_dim n ->
  length randn = OUNoise.action_dim n ->
  length action = OUNoise.action_dim n ->
  length (OUNoise.low n) = OUNoise.action_dim n ->
  length (OUNoise.high n) = OUNoise.action_dim n ->
  exists out,
    snd (OUNoise.get_action n action t randn) = OUNoise.Returns out /\
    length out = OUNoise.action_dim n /\
    forall i l h a s,
      nth_error (OUNoise.low n) i = Some l ->
      nth_error (OUNoise.high n) i = Some h ->
      nth_error action i = Some a ->
      nth_error (OUNoise.state (fst (OUNoise.get_action n action t randn))) i = Some s ->
      l <= h ->
      exists y,
        nth_error out i = Some y /\ l <= y <= h /\
        (l <= a + s <= h -> y = a + s) /\
        (a + s < l -> y = l) /\ (h < a + s -> y = h).
Proof.
  intros Hd Ls Lr La Ll Lh. unfold OUNoise.get_action, OUNoise.evolve_state.
  cbn [OUNoise.decay_period OUNoise.set_state].
  destruct (Req_EM_T (OUNoise.decay_period n) 0) as [E|_]; [contradiction|].
  cbn [fst snd OUNoise.state OUNoise.set_sigma OUNoise.set_state OUNoise.low
       OUNoise.high].
  eexists. split; [reflexivity|]. split.
  { unfold OUNoise.clip. rewrite !map2_length, !length_map. lia. }
  intros i l h a s Hl Hh Ha Hs Hlh.
  rewrite clip_nth_error, nth_error_map2, Ha, Hs, Hl, Hh. simpl.
  eexists. split; [reflexivity|].
  unfold Rmin, Rmax.
  destruct (Rle_dec (a + s) l), (Rle_dec _ h); repeat split; intros; lra.
Qed.

Lemma noise_action_clipped_witness :
  exists out,
    snd (OUNoise.get_action (OUNoise.init_default (Box.mk 1 [-1] [1])) [9 / 10] 0 [2])
    = OUNoise.Returns out.
Proof.
  destruct (@noise_action_clipped (OUNoise.init_default (Box.mk 1 [-1] [1]))
              [9 / 10] 0 [2]) as (out & H & _); try reflexivity.
  - simpl. lra.
  - exists out. exact H.
Defined.

(** X4.  With a positive decay period, a non-negative step [t] and
    [min_sigma <= max_sigma], and the state and the draws of [action_dim]
    components, [get_action] leaves [sigma] between [min_sigma] and
    [max_sigma]: at [max_sigma] for [t = 0], at [min_sigma] from
    [t = decay_period] on, and never larger for a later step. *)
Theorem noise_sigma_schedule (n : OUNoise.t) (action : list R) (t : R) (randn : list R) :
  0 < OUNoise.decay_period n -> 0 <= t ->
  OUNoise.min_sigma n <= OUNoise.max_sigma n ->
  length (OUNoise.state n) = OUNoise.action_dim n ->
  length randn = OUNoise.action_dim n ->
  let sigma' := OUNoise.sigma (fst (OUNoise.get_action n action t randn)) in
  OUNoise.min_sigma n <= sigma' <= OUNoise.max_sigma n /\
  (t = 0 -> sigma' = OUNoise.max_sigma n) /\
  (OUNoise.decay_period n <= t -> sigma' = OUNoise.min_sigma n) /\
  (forall (action2 : list R) (t2 : R) (randn2 : list R),
      length randn2 = OUNoise.action_dim n ->
      t <= t2 ->
      OUNoise.sigma (fst (OUNoise.get_action n action2 t2 randn2)) <= sigma').
Proof.
  intros Hd Ht Hs _ _.
  assert (S : forall a u r,
             OUNoise.sigma (fst (OUNoise.get_action n a u r)) =
             OUNoise.max_sigma n -
             (OUNoise.max_sigma n - OUNoise.min_sigma n) *
             Rmin 1 (u / OUNoise.decay_period n)).
  { intros a u r. unfold OUNoise.get_action, OUNoise.evolve_state.
    cbn [OUNoise.decay_period OUNoise.set_state].
    destruct (Req_EM_T (OUNoise.decay_period n) 0) as [E|_]; [lra|].
    reflexivity. }
  assert (Q : forall u, 0 <= u -> 0 <= u / OUNoise.decay_period n).
  { intros u Hu. apply Rmult_le_pos; [exact Hu|]. apply Rlt_le, Rinv_0_lt_compat, Hd. }
  assert (M : forall u v, u <= v ->
                u / OUNoise.decay_period n <= v / OUNoise.decay_period n).
  { intros u v Huv. apply Rmult_le_compat_r; [|exact Huv].
    apply Rlt_le, Rinv_0_lt_compat, Hd. }
  cbv zeta. rewrite S. split; [|split; [|split]].
  - specialize (Q t Ht). unfold Rmin.
    destruct (Rle_dec 1 (t / OUNoise.decay_period n)); split; nra.
  - intro E. subst t. unfold Rdiv. rewrite Rmult_0_l.
    rewrite Rmin_right by lra. lra.
  - intro H. specialize (M _ _ H).
    unfold Rdiv in M at 1. rewrite Rinv_r in M by lra.
    rewrite Rmin_left by exact M. lra.
  - intros action2 t2 randn2 _ H. rewrite S.
    specialize (M _ _ H).
    assert (Rmin 1 (t / OUNoise.decay_period n) <= Rmin 1 (t2 / OUNoise.decay_period n))
      by (apply Rle_min_compat_l; exact M).
    nra.
Qed.

Lemma noise_sigma_schedule_witness :
  let n := OUNoise.init (Box.mk 1 [-1] [1]) 0 (15 / 100) (3 / 10) (1 / 10) 100 in
  1 / 10 <= OUNoise.sigma (fst (OUNoise.get_action n [0] 50 [1])) <= 3 / 10.
Proof.
  intro n.
  destruct (@noise_sigma_schedule n [0] 50 [1]) as (H & _).
  - simpl. lra.
  - lra.
  - simpl. lra.
  - reflexivity.
  - reflexivity.
  - exact H.
Defined.

(** X5.  With a decay period of zero, and the state and the draws of
    [action_dim] components, [get_action] raises the division error, after
    the state of the process has evolved: the process is left with the new
    state, of [action_dim] components, and its old [sigma]. *)
Theorem noise_zero_decay_period (n : OUNoise.t) (action : list R) (t : R) (randn : list R) :
  OUNoise.decay_period n = 0 ->
  length (OUNoise.state n) = OUNoise.action_dim n ->
  length randn = OUNoise.action_dim n ->
  let r := OUNoise.get_action n action t randn in
  snd r = OUNoise.Raises OUNoise.ZeroDivisionError /\
  fst r = fst (OUNoise.evolve_state n randn) /\
  length (OUNoise.state (fst r)) = OUNoise.action_dim n /\
  OUNoise.sigma (fst r) = OUNoise.sigma n /\
  (forall i x e,
      nth_error (OUNoise.state n) i = Some x ->
      nth_error randn i = Some e ->
      nth_error (OUNoise.state (fst r)) i =
      Some (x + (OUNoise.theta n * (OUNoise.mu n - x) + OUNoise.sigma n * e))).
Proof.
  intros Hd Ls Lr r.
  assert (E : r = (fst (OUNoise.evolve_state n randn),
                   OUNoise.Raises OUNoise.ZeroDivisionError)).
  { unfold r, OUNoise.get_action, OUNoise.evolve_state.
    cbn [OUNoise.decay_period OUNoise.set_state].
    destruct (Req_EM_T (OUNoise.decay_period n) 0) as [_|C]; [reflexivity|contradiction]. }
  rewrite E. cbn [fst snd]. split; [reflexivity|]. split; [reflexivity|].
  split; [|split; [reflexivity|]].
  - unfold OUNoise.evolve_state. cbn [fst OUNoise.state OUNoise.set_state].
    rewrite !map2_length, !length_map. lia.
  - intros i x e Hx He. apply (evolve_state_nth_error n randn i Hx He).
Qed.

Lemma noise_zero_decay_period_witness :
  let n := OUNoise.init (Box.mk 1 [-1] [1]) 0 (15 / 100) (3 / 10) (3 / 10) 0 in
  snd (OUNoise.get_action n [0] 1 [1]) = OUNoise.Raises OUNoise.ZeroDivisionError.
Proof.
  intro n.
  destruct (@noise_zero_decay_period n [0] 1 [1]) as (H & _).
  - reflexivity.
  - reflexivity.
  - reflexivity.
  - exact H.
Defined.

(** X6.  With as many draws as the state has components, [evolve_state]
    keeps the number of components, moves every component of the state by
    [theta * (mu - x)] plus [sigma] times its draw and returns the new
    state; where the noise term is zero and [0 <= theta <= 2] the component
    does not move away from [mu], and a component at [mu] stays there. *)
Theorem evolve_state_mean_reverting (n : OUNoise.t) (randn : list R) (i : nat) (x e : R) :
  length randn = length (OUNoise.state n) ->
  nth_error (OUNoise.state n) i = Some x ->
  nth_error randn i = Some e ->
  length (snd (OUNoise.evolve_state n randn)) = length (OUNoise.state n) /\
  exists x',
    nth_error (snd (OUNoise.evolve_state n randn)) i = Some x' /\
    OUNoise.state (fst (OUNoise.evolve_state n randn)) =
    snd (OUNoise.evolve_state n randn) /\
    x' - OUNoise.mu n =
    (1 - OUNoise.theta n) * (x - OUNoise.mu n) + OUNoise.sigma n * e /\
    (OUNoise.sigma n * e = 0 -> 0 <= OUNoise.theta n <= 2 ->
     Rabs (x' - OUNoise.mu n) <= Rabs (x - OUNoise.mu n)) /\
    (OUNoise.sigma n * e = 0 -> x = OUNoise.mu n -> x' = OUNoise.mu n).
Proof.
  intros Lr Hx He. split.
  { unfold OUNoise.evolve_state. cbn [snd OUNoise.state OUNoise.set_state].
    rewrite !map2_length, !length_map. lia. }
  eexists. split; [apply (evolve_state_nth_error n randn i Hx He)|].
  split; [reflexivity|]. split; [ring|]. split.
  - intros H0 Ht.
    replace (x + (OUNoise.theta n * (OUNoise.mu n - x) + OUNoise.sigma n * e)
             - OUNoise.mu n)
      with ((1 - OUNoise.theta n) * (x - OUNoise.mu n)) by (rewrite H0; ring).
    rewrite Rabs_mult.
    assert (H1 : Rabs (1 - OUNoise.theta n) <= 1)
      by (apply Rabs_le; lra).
    pose proof (Rabs_pos (x - OUNoise.mu n)). nra.
  - intros H0 E. rewrite H0, E. ring.
Qed.

Lemma evolve_state_mean_reverting_witness :
  let n := OUNoise.set_state (OUNoise.init_default (Box.mk 1 [-1] [1])) [1] in
  exists x', nth_error (snd (OUNoise.evolve_state n [0])) 0 = Some x' /\
             Rabs (x' - 0) <= Rabs (1 - 0).
Proof.
  intro n.
  destruct (@evolve_state_mean_reverting n [0] 0 1 0)
    as (_ & x' & H1 & _ & _ & H2 & _); try reflexivity.
  exists x'. split; [exact H1|]. apply H2; simpl; lra.
Defined.

(** X7.  After [reset], and so after the constructor, the state has
    [action_dim] components, all equal to [mu]; a step of [evolve_state]
    whose draws are all zero leaves that state as it is. *)
Theorem reset_state (n : OUNoise.t) :
  length (OUNoise.state (OUNoise.reset n)) = OUNoise.action_dim n /\
  (forall i, (i < OUNoise.action_dim n)%nat ->
             nth_error (OUNoise.state (OUNoise.reset n)) i = Some (OUNoise.mu n)) /\
  snd (OUNoise.evolve_state (OUNoise.reset n) (repeat 0 (OUNoise.action_dim n))) =
  OUNoise.state (OUNoise.reset n) /\
  (forall (sp : Box.t) (mu theta max_sigma min_sigma decay_period : R),
      let n0 := OUNoise.init sp mu theta max_sigma min_sigma decay_period in
      OUNoise.state n0 = OUNoise.state (OUNoise.reset n0) /\
      OUNoise.action_dim n0 = Box.shape_0 sp /\
      OUNoise.sigma n0 = max_sigma).
Proof.
  assert (L : length (OUNoise.state (OUNoise.reset n)) = OUNoise.action_dim n).
  { simpl. rewrite length_map, repeat_length. reflexivity. }
  assert (N : forall i, (i < OUNoise.action_dim n)%nat ->
                nth_error (OUNoise.state (OUNoise.reset n)) i = Some (OUNoise.mu n)).
  { intros i Hi. simpl. rewrite nth_error_map, nth_error_repeat by exact Hi.
    simpl. f_equal. ring. }
  split; [exact L|]. split; [exact N|]. split.
  - apply nth_error_ext. intro i.
    destruct (Nat.lt_ge_cases i (OUNoise.action_dim n)) as [Hi|Hi].
    + rewrite (@evolve_state_nth_error (OUNoise.reset n) _ i (OUNoise.mu n) 0).
      * rewrite (N i Hi). f_equal. simpl. ring.
      * apply N. exact Hi.
      * apply nth_error_repeat. exact Hi.
    + assert (E : nth_error (OUNoise.state (OUNoise.reset n)) i = None)
        by (apply nth_error_None; lia).
      rewrite E. unfold OUNoise.evolve_state.
      cbn [snd OUNoise.state OUNoise.set_state].
      rewrite nth_error_map2. fold (OUNoise.state (OUNoise.reset n)).
      rewrite E. reflexivity.
  - intros sp mu theta max_sigma min_sigma decay_period n0. repeat split.
Qed.

Lemma reset_state_witness :
  nth_error (OUNoise.state (OUNoise.reset (OUNoise.init_default (Box.mk 2 [-1; -1] [1; 1])))) 1
  = Some 0.
Proof.
  apply (proj1 (proj2 (reset_state (OUNoise.init_default (Box.mk 2 [-1; -1] [1; 1]))))).
  simpl. lia.
Defined.

End Noise.

(** ** Checkpoints *)

Section Checkpoints.

Import Torch.

Lemma shape_rows {A B : Type} (m : list (list A)) (m' : list (list B)) (n n' : nat) :
  imap_from n (fun _ row => imap_from 0 (fun _ (_ : A) => tt) row) m =
  imap_from n' (fun _ row => imap_from 0 (fun _ (_ : B) => tt) row) m' ->
  Forall2 (fun row row' => length row = length row') m m'.
Proof.
  revert m' n n'. induction m as [|row m IH]; intros [|row' m'] n n' H; simpl in H;
    try discriminate; constructor.
  - inversion H as [[H1 H2]].
    apply (f_equal (@length unit)) in H1. rewrite !imap_from_length in H1. exact H1.
  - inversion H as [[H1 H2]]. apply (IH m' (S n) (S n') H2).
Qed.

Lemma load_vector (l l' pre : list R) :
  length l' = length l ->
  imap_from (length pre)
    (fun c v => match nth_error (pre ++ l) c with Some v' => v' | None => v end) l' = l.
Proof.
  revert l' pre. induction l as [|x l IH]; intros [|x' l'] pre H; simpl in H;
    try discriminate; [reflexivity|].
  simpl. rewrite nth_error_app2 by lia. rewrite Nat.sub_diag. simpl. f_equal.
  specialize (IH l' (pre ++ [x])). rewrite length_app, <- app_assoc in IH.
  simpl in IH. rewrite Nat.add_1_r in IH. apply IH. lia.
Qed.

Lemma load_matrix (m m' pre : list (list R)) :
  Forall2 (fun row' row => length row' = length row) m' m ->
  imap_from (length pre)
    (fun r row' =>
       imap_from 0
         (fun c v => match lookup2 (pre ++ m) r c with Some v' => v' | None => v end)
         row') m' = m.
Proof.
  intro H. revert pre. induction H as [|row' row m' m Hrow _ IH]; intro pre; simpl;
    [reflexivity|].
  f_equal.
  - unfold lookup2. rewrite nth_error_app2 by lia. rewrite Nat.sub_diag. simpl.
    apply (@load_vector row row' [] Hrow).
  - specialize (IH (pre ++ [row])). rewrite length_app, <- app_assoc in IH.
    simpl in IH. rewrite Nat.add_1_r in IH. exact IH.
Qed.

Lemma Forall2_flip {A B : Type} (P : A -> B -> Prop) (l : list A) (l' : list B) :
  Forall2 P l l' -> Forall2 (fun y x => P x y) l' l.
Proof.
  induction 1; constructor; assumption.
Qed.

Lemma Linear_load (l : layer) (d : state_dict) (m m' : Linear.t R) :
  Linear.imap l (fun _ _ => tt) m' = Linear.imap l (fun _ _ => tt) m ->
  (forall pn r c, d (mkKey l pn r c) = Linear.lookup m pn r c) ->
  Linear.imap l (fun k v => match d k with Some v' => v' | None => v end) m' = m.
Proof.
  intros Hs Hd. destruct m as [w b], m' as [w' b'].
  unfold Linear.imap, imap in *. simpl in *.
  inversion Hs as [[Hw Hb]]. f_equal.
  - rewrite <- (@load_matrix w w' [] (@shape_rows _ _ w' w _ _ Hw)).
    apply imap_from_ext. intros r row. apply imap_from_ext. intros c v.
    rewrite (Hd pweight r c). reflexivity.
  - apply (f_equal (@length unit)) in Hb. rewrite !imap_from_length in Hb.
    rewrite <- (@load_vector b b' [] Hb).
    apply imap_from_ext. intros c v. rewrite (Hd pbias 0%nat c). reflexivity.
Qed.

Lemma LayerNorm_load (l : layer) (d : state_dict) (m m' : LayerNorm.t R) :
  LayerNorm.imap l (fun _ _ => tt) m' = LayerNorm.imap l (fun _ _ => tt) m ->
  (forall pn r c, d (mkKey l pn r c) = LayerNorm.lookup m pn r c) ->
  LayerNorm.imap l (fun k v => match d k with Some v' => v' | None => v end) m' = m.
Proof.
  intros Hs Hd. destruct m as [w b], m' as [w' b'].
  unfold LayerNorm.imap, imap in *. simpl in *.
  inversion Hs as [[Hw Hb]].
  apply (f_equal (@length unit)) in Hw, Hb. rewrite !imap_from_length in Hw, Hb.
  f_equal.
  - rewrite <- (@load_vector w w' [] Hw).
    apply imap_from_ext. intros c v. rewrite (Hd pweight 0%nat c). reflexivity.
  - rewrite <- (@load_vector b b' [] Hb).
    apply imap_from_ext. intros c v. rewrite (Hd pbias 0%nat c). reflexivity.
Qed.

(** Loading the state dictionary of [p] into parameters of the same shapes
    gives [p]. *)
Lemma Critic_load_state_dict (p p' : Critic.params R) :
  same_shape p' p -> load_state_dict p' (plookup p) = p.
Proof.
  destruct p as [a1 a2 a3 a4 a5 a6], p' as [b1 b2 b3 b4 b5 b6].
  unfold same_shape, load_state_dict, pimap, plookup, Critic.Parameters_params,
    Critic.imap.
  cbn [Critic.fc1 Critic.bn1 Critic.fc2 Critic.bn2 Critic.action_value Critic.q].
  intro H. injection H; intros.
  f_equal; first [apply Linear_load | apply LayerNorm_load];
    first [ unfold Linear.imap, LayerNorm.imap; f_equal; assumption
          | intros pn r c; reflexivity ].
Qed.

Lemma Actor_load_state_dict (p p' : Actor.params R) :
  same_shape p' p -> load_state_dict p' (plookup p) = p.
Proof.
  destruct p as [a1 a2 a3 a4 a5], p' as [b1 b2 b3 b4 b5].
  unfold same_shape, load_state_dict, pimap, plookup, Actor.Parameters_params,
    Actor.imap.
  cbn [Actor.fc1 Actor.bn1 Actor.fc2 Actor.bn2 Actor.mu].
  intro H. injection H; intros.
  f_equal; first [apply Linear_load | apply LayerNorm_load];
    first [ unfold Linear.imap, LayerNorm.imap; f_equal; assumption
          | intros pn r c; reflexivity ].
Qed.

Lemma imap_from_fuse {A B C : Type} (f : nat -> B -> C) (g : nat -> A -> B)
  (l : list A) (n : nat) :
  imap_from n f (imap_from n g l) = imap_from n (fun i x => f i (g i x)) l.
Proof.
  revert n. induction l as [|x l IH]; intro n; simpl; [reflexivity|].
  rewrite IH. reflexivity.
Qed.

Lemma Linear_shape_imap (l : layer) (g : key -> R -> R) (m : Linear.t R) :
  Linear.imap l (fun _ _ => tt) (Linear.imap l g m) = Linear.imap l (fun _ _ => tt) m.
Proof.
  unfold Linear.imap, imap. simpl. f_equal.
  - rewrite imap_from_fuse. apply imap_from_ext. intros r row.
    apply imap_from_fuse.
  - apply imap_from_fuse.
Qed.

Lemma LayerNorm_shape_imap (l : layer) (g : key -> R -> R) (m : LayerNorm.t R) :
  LayerNorm.imap l (fun _ _ => tt) (LayerNorm.imap l g m) =
  LayerNorm.imap l (fun _ _ => tt) m.
Proof.
  unfold LayerNorm.imap, imap. simpl. f_equal; apply imap_from_fuse.
Qed.

(** Changing the parameters one by one keeps the shapes. *)
Lemma Critic_same_shape_pimap (g : key -> R -> R) (p : Critic.params R) :
  same_shape (pimap g p) p.
Proof.
  unfold same_shape. simpl. unfold Critic.imap. simpl.
  rewrite !Linear_shape_imap, !LayerNorm_shape_imap. reflexivity.
Qed.

Lemma Actor_same_shape_pimap (g : key -> R -> R) (p : Actor.params R) :
  same_shape (pimap g p) p.
Proof.
  unfold same_shape. simpl. unfold Actor.imap. simpl.
  rewrite !Linear_shape_imap, !LayerNorm_shape_imap. reflexivity.
Qed.

Lemma find_file_save (fs : filesystem) (f : string) (d : state_dict) :
  find_file (files (save fs f d)) f = Some d.
Proof.
  simpl. rewrite String.eqb_refl. reflexivity.
Qed.

Lemma find_file_save_other (fs : filesystem) (f f' : string) (d : state_dict) :
  f <> f' -> find_file (files (save fs f d)) f' = find_file (files fs) f'.
Proof.
  intro H. simpl. destruct (String.eqb_spec f f'); [contradiction | reflexivity].
Qed.

(** X8.  A network with a file name, in a directory that is there, saves
    its parameters, and loading that file into a network of the same file
    name and architecture, such as the same network after each parameter
    was changed, restores exactly the saved parameters. *)
Theorem checkpoint_round_trip :
  (forall (m m' : Critic.t) (fs : filesystem) (chkpt name : string),
      Critic.filename m = Some (path_join chkpt name) ->
      Critic.filename m' = Some (path_join chkpt name) ->
      exists_dir fs chkpt = true ->
      same_shape (Critic.parameters m') (Critic.parameters m) ->
      exists fs',
        Critic.save_checkpoint m fs = Ok fs' /\
        Critic.load_checkpoint m' fs' =
        Ok (Critic.set_parameters m' (Critic.parameters m))) /\
  (forall (m m' : Actor.t) (fs : filesystem) (chkpt name : string),
      Actor.filename m = Some (path_join chkpt name) ->
      Actor.filename m' = Some (path_join chkpt name) ->
      exists_dir fs chkpt = true ->
      same_shape (Actor.parameters m') (Actor.parameters m) ->
      exists fs',
        Actor.save_checkpoint m fs = Ok fs' /\
        Actor.load_checkpoint m' fs' =
        Ok (Actor.set_parameters m' (Actor.parameters m))) /\
  (forall (g : key -> R -> R) (m : Critic.t),
      same_shape (Critic.parameters (Critic.set_parameters m (pimap g (Critic.parameters m))))
                 (Critic.parameters m)) /\
  (forall (g : key -> R -> R) (m : Actor.t),
      same_shape (Actor.parameters (Actor.set_parameters m (pimap g (Actor.parameters m))))
                 (Actor.parameters m)).
Proof.
  split; [|split; [|split]].
  - intros m m' fs chkpt name Hm Hm' _ Hs.
    unfold Critic.save_checkpoint, Critic.load_checkpoint. rewrite Hm, Hm'.
    eexists. split; [reflexivity|].
    unfold load. rewrite find_file_save. unfold bind.
    rewrite (Critic_load_state_dict Hs). reflexivity.
  - intros m m' fs chkpt name Hm Hm' _ Hs.
    unfold Actor.save_checkpoint, Actor.load_checkpoint. rewrite Hm, Hm'.
    eexists. split; [reflexivity|].
    unfold load. rewrite find_file_save. unfold bind.
    rewrite (Actor_load_state_dict Hs). reflexivity.
  - intros g m. apply Critic_same_shape_pimap.
  - intros g m. apply Actor_same_shape_pimap.
Qed.

Lemma checkpoint_round_trip_witness :
  let m := Examples.named_critic in
  let m' := Critic.set_parameters m (pimap (fun _ v => v + 1) (Critic.parameters m)) in
  exists fs',
    Critic.save_checkpoint m (makedirs Examples.no_files "models") = Ok fs' /\
    Critic.load_checkpoint m' fs' = Ok (Critic.set_parameters m' (Critic.parameters m)).
Proof.
  intros m m'.
  destruct checkpoint_round_trip as (H1 & _ & H3 & _).
  apply (H1 m m' (makedirs Examples.no_files "models") "models"%string
           "critic_ddpg"%string).
  - reflexivity.
  - reflexivity.
  - reflexivity.
  - apply H3.
Defined.

Lemma Actor_save_checkpoint_named (m : Actor.t) (fs : filesystem) (f : string) :
  Actor.filename m = Some f ->
  Actor.save_checkpoint m fs = Ok (save fs f (plookup (Actor.parameters m))).
Proof.
  intro H. unfold Actor.save_checkpoint. rewrite H. reflexivity.
Qed.

Lemma Critic_save_checkpoint_named (m : Critic.t) (fs : filesystem) (f : string) :
  Critic.filename m = Some f ->
  Critic.save_checkpoint m fs = Ok (save fs f (plookup (Critic.parameters m))).
Proof.
  intro H. unfold Critic.save_checkpoint. rewrite H. reflexivity.
Qed.

Lemma Actor_load_checkpoint_found (m : Actor.t) (fs : filesystem) (f : string)
  (d : state_dict) :
  Actor.filename m = Some f -> find_file (files fs) f = Some d ->
  Actor.load_checkpoint m fs =
  Ok (Actor.set_parameters m (load_state_dict (Actor.parameters m) d)).
Proof.
  intros H Hf. unfold Actor.load_checkpoint, load. rewrite H, Hf. reflexivity.
Qed.

Lemma Critic_load_checkpoint_found (m : Critic.t) (fs : filesystem) (f : string)
  (d : state_dict) :
  Critic.filename m = Some f -> find_file (files fs) f = Some d ->
  Critic.load_checkpoint m fs =
  Ok (Critic.set_parameters m (load_state_dict (Critic.parameters m) d)).
Proof.
  intros H Hf. unfold Critic.load_checkpoint, load. rewrite H, Hf. reflexivity.
Qed.

Lemma Actor_load_checkpoint_missing (m : Actor.t) (fs : filesystem) (f : string) :
  Actor.filename m = Some f -> find_file (files fs) f = None ->
  Actor.load_checkpoint m fs = Raise FileNotFoundError.
Proof.
  intros H Hf. unfold Actor.load_checkpoint, load. rewrite H, Hf. reflexivity.
Qed.

Lemma Critic_load_checkpoint_missing (m : Critic.t) (fs : filesystem) (f : string) :
  Critic.filename m = Some f -> find_file (files fs) f = None ->
  Critic.load_checkpoint m fs = Raise FileNotFoundError.
Proof.
  intros H Hf. unfold Critic.load_checkpoint, load. rewrite H, Hf. reflexivity.
Qed.

(** What [save_model] writes when every network has a file name. *)
Lemma save_model_named (a : DDPGagent.t) (fs : filesystem) (fa fc fta ftc : string) :
  Actor.filename (DDPGagent.actor a) = Some fa ->
  Critic.filename (DDPGagent.critic a) = Some fc ->
  Actor.filename (DDPGagent.target_actor a) = Some fta ->
  Critic.filename (DDPGagent.target_critic a) = Some ftc ->
  DDPGagent.save_model a fs =
  (Ok tt,
   save (save (save (save fs fa (plookup (Actor.parameters (DDPGagent.actor a))))
                 fc (plookup (Critic.parameters (DDPGagent.critic a))))
           fta (plookup (Actor.parameters (DDPGagent.target_actor a))))
     ftc (plookup (Critic.parameters (DDPGagent.target_critic a)))).
Proof.
  intros Ha Hc Hta Htc. unfold DDPGagent.save_model.
  rewrite (Actor_save_checkpoint_named _ _ Ha),
    (Critic_save_checkpoint_named _ _ Hc),
    (Actor_save_checkpoint_named _ _ Hta),
    (Critic_save_checkpoint_named _ _ Htc).
  reflexivity.
Qed.

(** X9.  When the four networks have four different file names in a
    directory that is there, [save_model] writes them all, and
    [load_model] on an agent with the same file names and architectures
    then restores the parameters of all four networks; the replay memory
    and the two optimizers of the loading agent stay as they were. *)
Theorem model_round_trip (a a' : DDPGagent.t) (fs : filesystem) (directory : string)
  (fa fc fta ftc : string) :
  Actor.filename (DDPGagent.actor a) = Some fa ->
  Critic.filename (DDPGagent.critic a) = Some fc ->
  Actor.filename (DDPGagent.target_actor a) = Some fta ->
  Critic.filename (DDPGagent.target_critic a) = Some ftc ->
  Forall (fun f => exists name, f = path_join directory name) [fa; fc; fta; ftc] ->
  exists_dir fs directory = true ->
  NoDup [fa; fc; fta; ftc] ->
  DDPGagent.same_checkpoints a a' ->
  exists fs' a'',
    DDPGagent.save_model a fs = (Ok tt, fs') /\
    DDPGagent.load_model a' fs' = (Ok tt, a'') /\
    Actor.parameters (DDPGagent.actor a'') = Actor.parameters (DDPGagent.actor a) /\
    Critic.parameters (DDPGagent.critic a'') = Critic.parameters (DDPGagent.critic a) /\
    Actor.parameters (DDPGagent.target_actor a'') =
    Actor.parameters (DDPGagent.target_actor a) /\
    Critic.parameters (DDPGagent.target_critic a'') =
    Critic.parameters (DDPGagent.target_critic a) /\
    DDPGagent.memory a'' = DDPGagent.memory a' /\
    DDPGagent.critic_optimizer a'' = DDPGagent.critic_optimizer a' /\
    DDPGagent.actor_optimizer a'' = DDPGagent.actor_optimizer a'.
Proof.
  intros Ha Hc Hta Htc _ _ Hnd ((Na & Nc & Nta & Ntc) & (Sa & Sc & Sta & Stc)).
  rewrite Ha in Na. rewrite Hc in Nc. rewrite Hta in Nta. rewrite Htc in Ntc.
  assert (D : fa <> fc /\ fa <> fta /\ fa <> ftc /\ fc <> fta /\ fc <> ftc /\ fta <> ftc).
  { inversion Hnd as [|? ? N1 Hnd1]; subst.
    inversion Hnd1 as [|? ? N2 Hnd2]; subst.
    inversion Hnd2 as [|? ? N3 _]; subst.
    simpl in N1, N2, N3. repeat split; intro E; subst; tauto. }
  destruct D as (D1 & D2 & D3 & D4 & D5 & D6).
  rewrite (save_model_named a fs Ha Hc Hta Htc).
  set (da := plookup (Actor.parameters (DDPGagent.actor a))).
  set (dc := plookup (Critic.parameters (DDPGagent.critic a))).
  set (dta := plookup (Actor.parameters (DDPGagent.target_actor a))).
  set (dtc := plookup (Critic.parameters (DDPGagent.target_critic a))).
  set (fs' := save (save (save (save fs fa da) fc dc) fta dta) ftc dtc).
  assert (Fa : find_file (files fs') fa = Some da).
  { unfold fs'. rewrite !find_file_save_other by congruence. apply find_file_save. }
  assert (Fc : find_file (files fs') fc = Some dc).
  { unfold fs'. rewrite !find_file_save_other by congruence. apply find_file_save. }
  assert (Fta : find_file (files fs') fta = Some dta).
  { unfold fs'. rewrite !find_file_save_other by congruence. apply find_file_save. }
  assert (Ftc : find_file (files fs') ftc = Some dtc) by apply find_file_save.
  exists fs'. eexists. split; [reflexivity|].
  unfold DDPGagent.load_model.
  rewrite (Actor_load_checkpoint_found _ _ Na Fa).
  cbn [DDPGagent.critic DDPGagent.target_critic DDPGagent.actor
       DDPGagent.target_actor DDPGagent.set_networks].
  rewrite (Critic_load_checkpoint_found _ _ Nc Fc).
  rewrite (Actor_load_checkpoint_found _ _ Nta Fta).
  rewrite (Critic_load_checkpoint_found _ _ Ntc Ftc).
  split; [reflexivity|].
  cbn [DDPGagent.critic DDPGagent.target_critic DDPGagent.actor
       DDPGagent.target_actor DDPGagent.set_networks DDPGagent.memory
       DDPGagent.critic_optimizer DDPGagent.actor_optimizer
       Critic.parameters Actor.parameters Critic.set_parameters
       Actor.set_parameters].
  unfold da, dc, dta, dtc.
  rewrite (Actor_load_state_dict Sa), (Critic_load_state_dict Sc),
    (Actor_load_state_dict Sta), (Critic_load_state_dict Stc).
  repeat split.
Qed.

(** X10.  [load_model] is not all-or-nothing: when the file of the actor
    holds the parameters [p] of an actor of the same architecture and the
    file of the critic is missing, it raises the file-not-found error after
    the actor has taken the parameters [p]; when the file of the actor is
    missing, it raises and leaves the agent as it was. *)
Theorem load_model_partial (a : DDPGagent.t) (fs : filesystem) (fa fc : string) :
  Actor.filename (DDPGagent.actor a) = Some fa ->
  Critic.filename (DDPGagent.critic a) = Some fc ->
  find_file (files fs) fc = None ->
  (forall p : Actor.params R,
     same_shape (Actor.parameters (DDPGagent.actor a)) p ->
     find_file (files fs) fa = Some (plookup p) ->
     DDPGagent.load_model a fs =
     (Raise FileNotFoundError,
      DDPGagent.set_networks a (DDPGagent.critic a) (DDPGagent.target_critic a)
        (Actor.set_parameters (DDPGagent.actor a) p)
        (DDPGagent.target_actor a))) /\
  (find_file (files fs) fa = None ->
   DDPGagent.load_model a fs = (Raise FileNotFoundError, a)).
Proof.
  intros Ha Hc Fc. split.
  - intros p Sp Fa. unfold DDPGagent.load_model.
    rewrite (Actor_load_checkpoint_found _ _ Ha Fa).
    cbn [DDPGagent.critic DDPGagent.set_networks].
    rewrite (Critic_load_checkpoint_missing _ _ Hc Fc).
    rewrite (Actor_load_state_dict Sp). reflexivity.
  - intro Fa. unfold DDPGagent.load_model.
    rewrite (Actor_load_checkpoint_missing _ _ Ha Fa). reflexivity.
Qed.

Lemma load_model_partial_witness :
  let a := Examples.named_agent in
  let p := pimap (fun _ v => v + 1) (Actor.parameters (DDPGagent.actor a)) in
  let fs := save (makedirs Examples.no_files "models") "models/actor_ddpg" (plookup p) in
  DDPGagent.load_model a fs =
  (Raise FileNotFoundError,
   DDPGagent.set_networks a (DDPGagent.critic a) (DDPGagent.target_critic a)
     (Actor.set_parameters (DDPGagent.actor a) p) (DDPGagent.target_actor a)) /\
  DDPGagent.load_model a Examples.no_files = (Raise FileNotFoundError, a).
Proof.
  intros a p fs. split.
  - apply (proj1 (@load_model_partial a fs "models/actor_ddpg"%string
                    "models/critic_ddpg"%string eq_refl eq_refl eq_refl)).
    + symmetry. apply Actor_same_shape_pimap.
    + apply find_file_save.
  - apply (proj2 (@load_model_partial a Examples.no_files "models/actor_ddpg"%string
                    "models/critic_ddpg"%string eq_refl eq_refl eq_refl)).
    reflexivity.
Defined.

Lemma model_round_trip_witness :
  exists fs' a'',
    DDPGagent.save_model Examples.named_agent (makedirs Examples.no_files "models")
    = (Ok tt, fs') /\
    DDPGagent.load_model Examples.named_agent fs' = (Ok tt, a'') /\
    Actor.parameters (DDPGagent.actor a'') =
    Actor.parameters (DDPGagent.actor Examples.named_agent).
Proof.
  destruct (@model_round_trip Examples.named_agent Examples.named_agent
              (makedirs Examples.no_files "models") "models"%string
              "models/actor_ddpg"%string "models/critic_ddpg"%string
              "models/actor_target_ddpg"%string "models/critic_target_ddpg"%string)
    as (fs' & a'' & H1 & H2 & H3 & _); try reflexivity.
  - repeat constructor.
    + exists "actor_ddpg"%string. reflexivity.
    + exists "critic_ddpg"%string. reflexivity.
    + exists "actor_target_ddpg"%string. reflexivity.
    + exists "critic_target_ddpg"%string. reflexivity.
  - repeat constructor; simpl; intuition discriminate.
  - split; repeat split.
  - exists fs', a''. auto.
Defined.

Lemma Critic_init_files (input_dim fc1_dim fc2_dim n_actions : nat)
  (name : option string) (chkpt : string) (fs : filesystem) (g : Generator.t) :
  let r := Critic.init input_dim fc1_dim fc2_dim n_actions name chkpt fs g in
  Critic.filename (fst (fst r)) =
    option_map (fun n => path_join chkpt (n ++ "_ddpg")%string) name /\
  snd (fst r) = with_directory name chkpt fs.
Proof.
  unfold Critic.init, with_directory. destruct name; destruct_lets; split; reflexivity.
Qed.

Lemma Actor_init_files (input_dim fc1_dim fc2_dim n_actions : nat)
  (name : option string) (chkpt : string) (fs : filesystem) (g : Generator.t) :
  let r := Actor.init input_dim fc1_dim fc2_dim n_actions name chkpt fs g in
  Actor.filename (fst (fst r)) =
    option_map (fun n => path_join chkpt (n ++ "_ddpg")%string) name /\
  snd (fst r) = with_directory name chkpt fs.
Proof.
  unfold Actor.init, with_directory. destruct name; destruct_lets; split; reflexivity.
Qed.

(** The file names and the files that the constructor of the agent leaves. *)
Lemma init_files (env : DDPGagent.environment) (layer1_size layer2_size : nat)
  (replay_min : Z) (replay_size : N) (critic_lr actor_lr tau gamma : R)
  (loss : DDPGagent.criterion) (batch_size : Z) (name_critic name_actor : option string)
  (directory : string) (fs : filesystem) (g : Generator.t) :
  let r := DDPGagent.init env layer1_size layer2_size replay_min replay_size critic_lr
             actor_lr tau gamma loss batch_size name_critic name_actor directory fs g in
  let file := fun n => path_join directory (n ++ "_ddpg")%string in
  Critic.filename (DDPGagent.critic (fst (fst r))) = option_map file name_critic /\
  Critic.filename (DDPGagent.target_critic (fst (fst r))) =
    option_map file (DDPGagent.target_name name_critic) /\
  Actor.filename (DDPGagent.actor (fst (fst r))) = option_map file name_actor /\
  Actor.filename (DDPGagent.target_actor (fst (fst r))) =
    option_map file (DDPGagent.target_name name_actor) /\
  snd (fst r) =
    with_directory (DDPGagent.target_name name_actor) directory
      (with_directory name_actor directory
         (with_directory (DDPGagent.target_name name_critic) directory
            (with_directory name_critic directory fs))).
Proof.
  unfold DDPGagent.init.
  match goal with
  | |- context [Critic.init ?i ?a ?b ?n ?nm ?d ?f ?g] =>
      destruct (Critic_init_files i a b n nm d f g) as [F1 S1];
      destruct (Critic.init i a b n nm d f g) as [[c fs1] g1]
  end.
  simpl in F1, S1. subst fs1.
  match goal with
  | |- context [Critic.init ?i ?a ?b ?n ?nm ?d ?f ?g] =>
      destruct (Critic_init_files i a b n nm d f g) as [F2 S2];
      destruct (Critic.init i a b n nm d f g) as [[tc fs2] g2]
  end.
  simpl in F2, S2. subst fs2.
  match goal with
  | |- context [Actor.init ?i ?a ?b ?n ?nm ?d ?f ?g] =>
      destruct (Actor_init_files i a b n nm d f g) as [F3 S3];
      destruct (Actor.init i a b n nm d f g) as [[ac fs3] g3]
  end.
  simpl in F3, S3. subst fs3.
  match goal with
  | |- context [Actor.init ?i ?a ?b ?n ?nm ?d ?f ?g] =>
      destruct (Actor_init_files i a b n nm d f g) as [F4 S4];
      destruct (Actor.init i a b n nm d f g) as [[tac fs4] g4]
  end.
  simpl in F4, S4. subst fs4.
  assert (W1 := Critic_init_weights_filename c g4).
  destruct (Critic.init_weights c g4) as [c' g5]. simpl in W1.
  assert (W2 := Actor_init_weights_filename ac g5).
  destruct (Actor.init_weights ac g5) as [ac' g6]. simpl in W2.
  cbv zeta. cbn [fst snd]. unfold DDPGagent.update_target_weights.
  cbn [DDPGagent.critic DDPGagent.target_critic DDPGagent.actor
       DDPGagent.target_actor DDPGagent.set_networks
       Critic.filename Actor.filename Critic.set_parameters Actor.set_parameters].
  repeat split; congruence.
Qed.

Lemma with_directory_exists (name : option string) (chkpt : string) (fs : filesystem) :
  exists_dir fs chkpt = true -> with_directory name chkpt fs = fs.
Proof.
  intro H. unfold with_directory. destruct name; [rewrite H|]; reflexivity.
Qed.

Lemma exists_dir_makedirs (fs : filesystem) (chkpt : string) :
  exists_dir (makedirs fs chkpt) chkpt = true.
Proof.
  unfold exists_dir, makedirs. simpl. rewrite String.eqb_refl. reflexivity.
Qed.

(** X11.  An agent constructed with the names [nc] and [na] names the files
    of its networks [nc_ddpg] and [na_ddpg], and those of the target
    networks [nc_target_ddpg] and [na_target_ddpg], all inside the
    directory; the constructor writes no file, leaves the files untouched
    when the directory is there, and otherwise makes the directory, once. *)
Theorem init_checkpoint_layout (env : DDPGagent.environment)
  (layer1_size layer2_size : nat) (replay_min : Z) (replay_size : N)
  (critic_lr actor_lr tau gamma : R) (loss : DDPGagent.criterion) (batch_size : Z)
  (nc na directory : string) (fs : filesystem) (g : Generator.t) :
  let r := DDPGagent.init env layer1_size layer2_size replay_min replay_size critic_lr
             actor_lr tau gamma loss batch_size (Some nc) (Some na) directory fs g in
  let a := fst (fst r) in
  let fs' := snd (fst r) in
  (Critic.filename (DDPGagent.critic a) =
     Some (directory ++ "/" ++ nc ++ "_ddpg")%string /\
   Critic.filename (DDPGagent.target_critic a) =
     Some (directory ++ "/" ++ (nc ++ "_target") ++ "_ddpg")%string /\
   Actor.filename (DDPGagent.actor a) =
     Some (directory ++ "/" ++ na ++ "_ddpg")%string /\
   Actor.filename (DDPGagent.target_actor a) =
     Some (directory ++ "/" ++ (na ++ "_target") ++ "_ddpg")%string) /\
  files fs' = files fs /\
  exists_dir fs' directory = true /\
  (exists_dir fs directory = true -> fs' = fs) /\
  (exists_dir fs directory = false -> dirs fs' = directory :: dirs fs).
Proof.
  intros r a fs'.
  destruct (init_files env layer1_size layer2_size replay_min replay_size critic_lr
              actor_lr tau gamma loss batch_size (Some nc) (Some na) directory fs g)
    as (F1 & F2 & F3 & F4 & S).
  fold r in F1, F2, F3, F4, S. fold a in F1, F2, F3, F4. fold fs' in S.
  split; [repeat split; assumption|].
  simpl DDPGagent.target_name in S.
  destruct (exists_dir fs directory) eqn:E.
  - repeat rewrite (@with_directory_exists _ directory fs E) in S.
    rewrite S. repeat split; try assumption. discriminate.
  - assert (S1 : with_directory (Some nc) directory fs = makedirs fs directory)
      by (unfold with_directory; rewrite E; reflexivity).
    rewrite S1 in S.
    repeat rewrite (@with_directory_exists _ directory (makedirs fs directory)
                      (exists_dir_makedirs fs directory)) in S.
    rewrite S. repeat split; try discriminate. apply exists_dir_makedirs.
Qed.

Lemma init_checkpoint_layout_witness :
  dirs (snd (fst (DDPGagent.init Examples.env 1 1 100 1000000 (15 / 100000)
                    (15 / 1000000) (1 / 1000) (99 / 100) MSELoss 64
                    (Some "critic"%string) (Some "actor"%string) "models"
                    Examples.no_files Examples.zeros)))
  = ["models"%string].
Proof.
  apply (proj2 (proj2 (proj2 (proj2
           (init_checkpoint_layout Examples.env 1 1 100 1000000 (15 / 100000)
              (15 / 1000000) (1 / 1000) (99 / 100) MSELoss 64
              "critic" "actor" "models" Examples.no_files Examples.zeros))))).
  reflexivity.
Defined.

Lemma append_assoc (a b c : string) : ((a ++ b) ++ c = a ++ (b ++ c))%string.
Proof.
  induction a as [|x a IH]; simpl; [reflexivity|]. rewrite IH. reflexivity.
Qed.

Lemma append_inj_l (a b c : string) : (a ++ b = a ++ c)%string -> b = c.
Proof.
  induction a as [|x a IH]; simpl; intro H; [exact H|].
  inversion H. auto.
Qed.

(** The file of a target network is not the file of its online network. *)
Lemma target_file_differs (directory n : string) :
  path_join directory ((n ++ "_target") ++ "_ddpg")%string <>
  path_join directory (n ++ "_ddpg")%string.
Proof.
  unfold path_join. intro H.
  apply append_inj_l in H. simpl in H. inversion H as [H1].
  rewrite append_assoc in H1. apply append_inj_l in H1. discriminate H1.
Qed.

(** X12.  When the actor and the critic are given the same name, both have
    the same file, and [save_model], called where the directory is there,
    saves the critic after the actor and so leaves the state dictionary of
    the critic in that file: the parameters of the actor are not in it. *)
Theorem save_model_same_name (env : DDPGagent.environment)
  (layer1_size layer2_size : nat) (replay_min : Z) (replay_size : N)
  (critic_lr actor_lr tau gamma : R) (loss : DDPGagent.criterion) (batch_size : Z)
  (n directory : string) (fs fs0 : filesystem) (g : Generator.t) :
  let a := fst (fst (DDPGagent.init env layer1_size layer2_size replay_min replay_size
                       critic_lr actor_lr tau gamma loss batch_size (Some n) (Some n)
                       directory fs g)) in
  let f := path_join directory (n ++ "_ddpg")%string in
  exists_dir fs0 directory = true ->
  Actor.filename (DDPGagent.actor a) = Some f /\
  Critic.filename (DDPGagent.critic a) = Some f /\
  exists fs',
    DDPGagent.save_model a fs0 = (Ok tt, fs') /\
    find_file (files fs') f = Some (plookup (Critic.parameters (DDPGagent.critic a))) /\
    (forall pn r c,
        plookup (Critic.parameters (DDPGagent.critic a)) (mkKey mu pn r c) = None).
Proof.
  intros a f _.
  destruct (init_files env layer1_size layer2_size replay_min replay_size critic_lr
              actor_lr tau gamma loss batch_size (Some n) (Some n) directory fs g)
    as (F1 & F2 & F3 & F4 & _).
  fold a in F1, F2, F3, F4. simpl in F1, F2, F3, F4. fold f in F1, F3.
  split; [exact F3|]. split; [exact F1|].
  rewrite (save_model_named a fs0 F3 F1 F4 F2).
  eexists. split; [reflexivity|]. split.
  - rewrite !find_file_save_other by apply target_file_differs.
    apply find_file_save.
  - intros pn r c. reflexivity.
Qed.

Lemma save_model_same_name_witness :
  exists fs',
    DDPGagent.save_model Examples.one_name_agent (makedirs Examples.no_files "models")
    = (Ok tt, fs') /\
    find_file (files fs') "models/agent_ddpg"
    = Some (plookup (Critic.parameters (DDPGagent.critic Examples.one_name_agent))).
Proof.
  destruct (@save_model_same_name Examples.env 1 1 100 1000000 (15 / 100000)
              (15 / 1000000) (1 / 1000) (99 / 100) MSELoss 64 "agent" "models"
              Examples.no_files (makedirs Examples.no_files "models") Examples.zeros
              eq_refl) as (_ & _ & fs' & H1 & H2 & _).
  exists fs'. split; [exact H1 | exact H2].
Defined.

End Checkpoints.

(** ** Warm-up and sampling, continued *)

Section WarmUp.

Import DDPGagent.

Lemma append_within_maxlen {A : Type} (d : Deque.deque A) (x : A) :
  (N.of_nat (Deque.len d) <= Deque.maxlen d)%N ->
  (N.of_nat (Deque.len (Deque.append d x)) <= Deque.maxlen (Deque.append d x))%N.
Proof.
  unfold Deque.len, Deque.append. cbn [Deque.items Deque.maxlen]. intro H.
  rewrite length_app. simpl length.
  destruct (N.ltb_spec (Deque.maxlen d) (N.of_nat (length (Deque.items d) + 1))) as [C|C].
  - destruct (Deque.items d) as [|y l]; simpl in *; [lia|].
    rewrite length_app. simpl. lia.
  - rewrite length_app. simpl. lia.
Qed.

(** X13.  When the capacity of the memory is smaller than [replay_min], the
    warm-up never ends: no sequence of store and train calls raises or
    changes a network, an optimizer or a [.grad] field. *)
Theorem capacity_below_replay_min (a : DDPGagent.t) (cs : list call) :
  (N.of_nat (Replay_Memory_len (memory a)) <= Deque.maxlen (buffer (memory a)))%N ->
  (Z.of_N (Deque.maxlen (buffer (memory a))) < replay_min a)%Z ->
  Forall (fun c => forall observation, c <> GetAction observation) cs ->
  exists a',
    run a cs = Ok a' /\
    critic a' = critic a /\ target_critic a' = target_critic a /\
    target_actor a' = target_actor a /\
    actor a' = actor a /\
    critic_optimizer a' = critic_optimizer a /\
    actor_optimizer a' = actor_optimizer a /\
    grad a' = grad a.
Proof.
  revert a. induction cs as [|c cs IH]; intros a Hlen Hcap Hcs.
  - exists a. repeat split.
  - inversion Hcs as [|? ? Hc Hrest]; subst.
    assert (Hguard : (Z.of_nat (Replay_Memory_len (memory a)) <? replay_min a)%Z = true)
      by (apply Z.ltb_lt; lia).
    destruct c as [s ac r ns d | pick | obs]; simpl.
    + destruct (IH (update_replay_memory a s ac r ns d)) as (a' & H & K).
      * simpl. apply append_within_maxlen. exact Hlen.
      * exact Hcap.
      * exact Hrest.
      * exists a'. split; [exact H | exact K].
    + rewrite (train_guard a pick Hguard). simpl.
      apply IH; assumption.
    + exfalso. exact (Hc obs eq_refl).
Qed.

Lemma capacity_below_replay_min_witness :
  let a := fst (fst (init Examples.env 1 1 100 10 (15 / 100000) (15 / 1000000)
                       (1 / 1000) (99 / 100) Torch.MSELoss 4 None None "models"
                       Examples.no_files Examples.zeros)) in
  exists a',
    run a [Store [1] [0] 1 [2] false; Train [0%nat]; Store [2] [0] 1 [3] true] = Ok a' /\
    critic a' = critic a.
Proof.
  intro a.
  destruct (@capacity_below_replay_min a
              [Store [1] [0] 1 [2] false; Train [0%nat]; Store [2] [0] 1 [3] true])
    as (a' & H & K & _).
  - apply N.leb_le. reflexivity.
  - apply Z.ltb_lt. reflexivity.
  - repeat constructor; intros observation C; discriminate C.
  - exists a'. split; assumption.
Defined.

Lemma gather_flat_map {A : Type} (population : list A) (pick : list nat) :
  Random.gather population pick =
  flat_map (fun j => match nth_error population j with Some x => [x] | None => [] end)
    pick.
Proof.
  induction pick as [|j rest IH]; simpl; [reflexivity|].
  destruct (nth_error population j); rewrite IH; reflexivity.
Qed.

Lemma gather_seq {A : Type} (pre l : list A) :
  Random.gather (pre ++ l) (seq (length pre) (length l)) = l.
Proof.
  revert pre. induction l as [|x l IH]; intro pre; simpl; [reflexivity|].
  rewrite nth_error_app2 by lia. rewrite Nat.sub_diag. simpl. f_equal.
  specialize (IH (pre ++ [x])). rewrite length_app, <- app_assoc in IH.
  simpl in IH. rewrite Nat.add_1_r in IH. exact IH.
Qed.

(** A draw of as many positions as there are items gathers every item
    once. *)
Lemma gather_all {A : Type} (population : list A) (pick : list nat) :
  In pick (Random.arrangements (length population) (length population)) ->
  Permutation (Random.gather population pick) population.
Proof.
  intro H. apply arrangements_spec in H. destruct H as (Hl & Hn & Hb).
  assert (P : Permutation pick (seq 0 (length population))).
  { apply NoDup_Permutation_bis.
    - exact Hn.
    - rewrite length_seq. lia.
    - intros j Hj. apply in_seq. rewrite Forall_forall in Hb.
      specialize (Hb j Hj). lia. }
  rewrite gather_flat_map.
  rewrite (Permutation_flat_map _ P).
  rewrite <- gather_flat_map.
  pose proof (gather_seq [] population) as G. simpl in G.
  rewrite G. apply Permutation_refl.
Qed.

(** X14.  [sample] of as many transitions as the memory holds returns every
    stored transition exactly once: each of the five lists is a permutation
    of the corresponding parts of the stored transitions, the fifth of the
    negated done flags. *)
Theorem sample_whole_memory (m : Replay_Memory) (pick : list nat) :
  In pick (Random.arrangements (Replay_Memory_len m) (Replay_Memory_len m)) ->
  exists (sb ab rb nb : list (list R)) (db : list bool),
    Replay_Memory_sample m (Z.of_nat (Replay_Memory_len m)) pick
      = Ok (sb, ab, rb, nb, db) /\
    Permutation sb (map exp_state (Deque.items (buffer m))) /\
    Permutation ab (map exp_action (Deque.items (buffer m))) /\
    Permutation rb (map exp_reward (Deque.items (buffer m))) /\
    Permutation nb (map exp_next_state (Deque.items (buffer m))) /\
    Permutation db (map (fun e => negb (exp_done e)) (Deque.items (buffer m))).
Proof.
  unfold Replay_Memory_len, Deque.len. intro H.
  set (pop := Deque.items (buffer m)) in *.
  assert (P := gather_all pop pick H).
  exists (map exp_state (Random.gather pop pick)),
         (map exp_action (Random.gather pop pick)),
         (map exp_reward (Random.gather pop pick)),
         (map exp_next_state (Random.gather pop pick)),
         (map (fun e => negb (exp_done e)) (Random.gather pop pick)).
  split.
  - unfold Replay_Memory_sample, Random.sample. fold pop.
    destruct (Z.ltb_spec (Z.of_nat (length pop)) 0); [lia|].
    destruct (Z.ltb_spec (Z.of_nat (length pop)) (Z.of_nat (length pop))); [lia|].
    simpl. rewrite unpack_batch_acc. reflexivity.
  - repeat split; apply Permutation_map; exact P.
Qed.

Lemma sample_whole_memory_witness :
  let t1 : transition := ([1], [0], 1, [2], false) in
  let t2 : transition := ([2], [0], 1, [3], true) in
  let m := push_all (Replay_Memory_init 5) [t1; t2] in
  exists (sb ab rb nb : list (list R)) (db : list bool),
    Replay_Memory_sample m 2 [1%nat; 0%nat] = Ok (sb, ab, rb, nb, db) /\
    Permutation db [true; false].
Proof.
  intros t1 t2 m.
  destruct (@sample_whole_memory m [1%nat; 0%nat])
    as (sb & ab & rb & nb & db & H & _ & _ & _ & _ & P).
  - vm_compute. auto.
  - exists sb, ab, rb, nb, db. split; [exact H | exact P].
Defined.

End WarmUp.

(** ** The actor update and the soft update of train *)

Section ActorUpdate.

Import Torch.

Lemma critic_step_frame (a : DDPGagent.t) (states actions targets : list (list node)) :
  let a1 := DDPGagent.critic_step a states actions targets in
  DDPGagent.actor a1 = DDPGagent.actor a /\
  DDPGagent.target_critic a1 = DDPGagent.target_critic a /\
  DDPGagent.target_actor a1 = DDPGagent.target_actor a /\
  DDPGagent.actor_optimizer a1 = DDPGagent.actor_optimizer a /\
  DDPGagent.tau a1 = DDPGagent.tau a /\
  Critic.training (DDPGagent.critic a1) = false.
Proof.
  unfold DDPGagent.critic_step. rewrite let_pair. repeat split.
Qed.

Lemma actor_step_frame (a : DDPGagent.t) (states : list (list node)) :
  let a2 := DDPGagent.actor_step a states in
  let step :=
    Adam.step (DDPGagent.actor_optimizer a) (Actor.parameters (DDPGagent.actor a))
      (grads OnlineActor
         (backward (DDPGagent.actor_loss a states)
            (zero_grad OnlineActor (DDPGagent.grad a)))
         (Actor.parameters (DDPGagent.actor a))) in
  Actor.parameters (DDPGagent.actor a2) = fst step /\
  DDPGagent.actor_optimizer a2 = snd step /\
  Actor.training (DDPGagent.actor a2) = true /\
  DDPGagent.critic a2 = DDPGagent.critic a /\
  DDPGagent.critic_optimizer a2 = DDPGagent.critic_optimizer a /\
  DDPGagent.target_critic a2 = DDPGagent.target_critic a /\
  DDPGagent.target_actor a2 = DDPGagent.target_actor a /\
  DDPGagent.tau a2 = DDPGagent.tau a.
Proof.
  unfold DDPGagent.actor_step. rewrite let_pair. repeat split.
Qed.

Lemma eval_mean (l : list node) :
  eval (mean l) = fold_left Rplus (map eval l) 0 / INR (length l).
Proof.
  unfold mean, sum. simpl. rewrite eval_fold_Add. reflexivity.
Qed.

(** X15.  In a call of [train] that passes the guard and draws a batch, the
    actor loss is the mean of the negated values that the critic, already
    updated in this call, gives to the sampled states and the actions of
    the actor there; the parameters of the actor and the state of its
    optimizer become the result of one optimizer step on the gradients of
    that loss; the critic and its optimizer stay as the critic step left
    them; and the call leaves the actor in training mode and the other
    three networks in inference mode. *)
Theorem train_actor_update (a : DDPGagent.t) (pick : list nat)
  (sb ab rb nb : list (list R)) (db : list bool) :
  (DDPGagent.replay_min a <= Z.of_nat (Replay_Memory_len (DDPGagent.memory a)))%Z ->
  Replay_Memory_sample (DDPGagent.memory a) (DDPGagent.batch_size a) pick
    = Ok (sb, ab, rb, nb, db) ->
  let states := map tensor sb in
  let y := DDPGagent.targets (DDPGagent.eval_mode a) (map tensor rb) (map tensor nb)
             (DDPGagent.not_done_tensor db) in
  let a1 := DDPGagent.critic_step (DDPGagent.eval_mode a) states (map tensor ab) y in
  let q :=
    Critic.forward_batch
      (leaves OnlineCritic (Critic.parameters (DDPGagent.critic a1))) states
      (Actor.forward_batch
         (leaves OnlineActor (Actor.parameters (DDPGagent.actor a))) states) in
  let loss := DDPGagent.actor_loss a1 states in
  let step :=
    Adam.step (DDPGagent.actor_optimizer a) (Actor.parameters (DDPGagent.actor a))
      (grads OnlineActor (backward loss (zero_grad OnlineActor (DDPGagent.grad a1)))
         (Actor.parameters (DDPGagent.actor a))) in
  eval loss =
    fold_left Rplus (map (fun e => - eval e) (concat q)) 0 / INR (length (concat q)) /\
  exists a',
    DDPGagent.train a pick = Ok a' /\
    Actor.parameters (DDPGagent.actor a') = fst step /\
    DDPGagent.actor_optimizer a' = snd step /\
    Adam.step_count (DDPGagent.actor_optimizer a') =
    S (Adam.step_count (DDPGagent.actor_optimizer a)) /\
    DDPGagent.critic a' = DDPGagent.critic a1 /\
    DDPGagent.critic_optimizer a' = DDPGagent.critic_optimizer a1 /\
    Actor.training (DDPGagent.actor a') = true /\
    Critic.training (DDPGagent.critic a') = false /\
    Actor.training (DDPGagent.target_actor a') = false /\
    Critic.training (DDPGagent.target_critic a') = false.
Proof.
  intros Hguard Hs states y a1 q loss step.
  destruct (critic_step_frame (DDPGagent.eval_mode a) states (map tensor ab) y)
    as (C1 & C2 & C3 & C4 & C5 & C6).
  fold a1 in C1, C2, C3, C4, C5, C6.
  destruct (actor_step_frame a1 states) as (A1 & A2 & A3 & A4 & A5 & A6 & A7 & A8).
  rewrite C1, C4 in A1, A2. fold loss in A1, A2.
  change (Actor.parameters (DDPGagent.actor (DDPGagent.eval_mode a)))
    with (Actor.parameters (DDPGagent.actor a)) in A1, A2.
  change (DDPGagent.actor_optimizer (DDPGagent.eval_mode a))
    with (DDPGagent.actor_optimizer a) in A1, A2.
  fold step in A1, A2.
  split.
  - unfold loss, DDPGagent.actor_loss. rewrite C1.
    change (Actor.parameters (DDPGagent.actor (DDPGagent.eval_mode a)))
      with (Actor.parameters (DDPGagent.actor a)).
    fold q. rewrite eval_mean, <- concat_map, !map_map, length_map. reflexivity.
  - unfold DDPGagent.train.
    destruct (Z.ltb_spec (Z.of_nat (Replay_Memory_len (DDPGagent.memory a)))
                (DDPGagent.replay_min a)) as [C|_]; [lia|].
    rewrite Hs. unfold bind. eexists. split; [reflexivity|].
    fold states. fold y. fold a1.
    unfold DDPGagent.update_target_weights.
    cbn [DDPGagent.critic DDPGagent.critic_optimizer DDPGagent.actor
         DDPGagent.actor_optimizer DDPGagent.target_actor DDPGagent.target_critic
         DDPGagent.set_networks Actor.training Critic.training
         Actor.set_parameters Critic.set_parameters].
    rewrite A1, A2, A3, A4, A5, A6, A7, C2, C3, C6.
    repeat split.
Qed.

Lemma train_actor_update_witness :
  exists a',
    DDPGagent.train Examples.ready_agent [0%nat] = Ok a' /\
    Adam.step_count (DDPGagent.actor_optimizer a') = 1%nat /\
    Actor.training (DDPGagent.actor a') = true.
Proof.
  destruct (@train_actor_update Examples.ready_agent [0%nat]
              [[1]] [[0]] [[2]] [[1]] [false])
    as (_ & a' & T & _ & _ & O & _ & _ & M & _).
  - apply Z.leb_le. reflexivity.
  - reflexivity.
  - exists a'. split; [exact T|]. split; [exact O | exact M].
Defined.

(** The target parameters after a call of [train] that passes the guard. *)
Lemma train_targets_blend (a a' : DDPGagent.t) (pick : list nat) :
  (DDPGagent.replay_min a <= Z.of_nat (Replay_Memory_len (DDPGagent.memory a)))%Z ->
  DDPGagent.train a pick = Ok a' ->
  let blend := fun target_param param =>
                 param * DDPGagent.tau a + target_param * (1 - DDPGagent.tau a) in
  Critic.parameters (DDPGagent.target_critic a') =
    pmap2 blend (Critic.parameters (DDPGagent.target_critic a))
                (Critic.parameters (DDPGagent.critic a')) /\
  Actor.parameters (DDPGagent.target_actor a') =
    pmap2 blend (Actor.parameters (DDPGagent.target_actor a))
                (Actor.parameters (DDPGagent.actor a')).
Proof.
  intro Hguard. unfold DDPGagent.train.
  destruct (Z.ltb_spec (Z.of_nat (Replay_Memory_len (DDPGagent.memory a)))
              (DDPGagent.replay_min a)) as [C|_]; [lia|].
  destruct (Replay_Memory_sample _ _ _) as [[[[[sb ab] rb] nb] db]|e];
    unfold bind; [|discriminate].
  intro E. inversion E as [Ea]. clear E.
  unfold DDPGagent.update_target_weights, DDPGagent.actor_step,
    DDPGagent.critic_step.
  rewrite !let_pair. split; reflexivity.
Qed.

Lemma blend_between (tau t p : R) :
  let t' := p * tau + t * (1 - tau) in
  (0 <= tau <= 1 -> Rmin t p <= t' <= Rmax t p) /\
  (0 < tau < 1 -> t <> p -> Rmin t p < t' < Rmax t p).
Proof.
  cbv zeta. unfold Rmin, Rmax. split.
  - intro H. destruct (Rle_dec t p); split; nra.
  - intros H N. destruct (Rle_dec t p); split; nra.
Qed.

(** X16.  A call of [train] that passes the guard moves every parameter of
    the two target networks to [tau] times the online parameter after the
    call plus [1 - tau] times its own value before the call; for
    [0 <= tau <= 1] the new value lies between the two, strictly for
    [0 < tau < 1] when they differ. *)
Theorem train_soft_update (a a' : DDPGagent.t) (pick : list nat) :
  (DDPGagent.replay_min a <= Z.of_nat (Replay_Memory_len (DDPGagent.memory a)))%Z ->
  DDPGagent.train a pick = Ok a' ->
  let tau := DDPGagent.tau a in
  (forall k t p,
      plookup (Critic.parameters (DDPGagent.target_critic a)) k = Some t ->
      plookup (Critic.parameters (DDPGagent.critic a')) k = Some p ->
      exists t',
        plookup (Critic.parameters (DDPGagent.target_critic a')) k = Some t' /\
        t' = p * tau + t * (1 - tau) /\
        (0 <= tau <= 1 -> Rmin t p <= t' <= Rmax t p) /\
        (0 < tau < 1 -> t <> p -> Rmin t p < t' < Rmax t p)) /\
  (forall k t p,
      plookup (Actor.parameters (DDPGagent.target_actor a)) k = Some t ->
      plookup (Actor.parameters (DDPGagent.actor a')) k = Some p ->
      exists t',
        plookup (Actor.parameters (DDPGagent.target_actor a')) k = Some t' /\
        t' = p * tau + t * (1 - tau) /\
        (0 <= tau <= 1 -> Rmin t p <= t' <= Rmax t p) /\
        (0 < tau < 1 -> t <> p -> Rmin t p < t' < Rmax t p)).
Proof.
  intros Hguard Htrain tau.
  destruct (train_targets_blend a pick Hguard Htrain) as [Bc Ba].
  split; intros k t p Ht Hp; eexists.
  - rewrite Bc, Critic_lookup_map2, Ht, Hp. split; [reflexivity|].
    split; [reflexivity|]. apply blend_between.
  - rewrite Ba, Actor_lookup_map2, Ht, Hp. split; [reflexivity|].
    split; [reflexivity|]. apply blend_between.
Qed.

Lemma train_soft_update_witness :
  let k := mkKey q pbias 0 0 in
  exists t p t',
    plookup (Critic.parameters (DDPGagent.target_critic Examples.ready_agent)) k = Some t /\
    plookup (Critic.parameters (DDPGagent.critic Examples.trained_agent)) k = Some p /\
    plookup (Critic.parameters (DDPGagent.target_critic Examples.trained_agent)) k
      = Some t' /\
    t' = p * (1 / 1000) + t * (1 - 1 / 1000).
Proof.
  intro k.
  assert (T : DDPGagent.train Examples.ready_agent [0%nat] = Ok Examples.trained_agent)
    by reflexivity.
  assert (G : (DDPGagent.replay_min Examples.ready_agent <=
               Z.of_nat (Replay_Memory_len (DDPGagent.memory Examples.ready_agent)))%Z)
    by (apply Z.leb_le; reflexivity).
  assert (Ht : exists t,
             plookup (Critic.parameters (DDPGagent.target_critic Examples.ready_agent)) k
             = Some t) by lookup_value.
  assert (Hp : exists p,
             plookup (Critic.parameters (DDPGagent.critic Examples.trained_agent)) k
             = Some p) by lookup_value.
  destruct Ht as [t Ht]. destruct Hp as [p Hp].
  destruct (proj1 (@train_soft_update Examples.ready_agent Examples.trained_agent
                     [0%nat] G T) k t p Ht Hp) as (t' & H1 & H2 & _).
  exists t, p, t'. repeat split; assumption.
Defined.

Lemma soft_updates_lookup (n : nat) :
  forall (a : DDPGagent.t) (k : key),
    DDPGagent.critic (DDPGagent.soft_updates n a) = DDPGagent.critic a /\
    DDPGagent.actor (DDPGagent.soft_updates n a) = DDPGagent.actor a /\
    (forall t p,
        plookup (Critic.parameters (DDPGagent.target_critic a)) k = Some t ->
        plookup (Critic.parameters (DDPGagent.critic a)) k = Some p ->
        exists t',
          plookup (Critic.parameters
                     (DDPGagent.target_critic (DDPGagent.soft_updates n a))) k = Some t' /\
          t' - p = (1 - DDPGagent.tau a) ^ n * (t - p)) /\
    (forall t p,
        plookup (Actor.parameters (DDPGagent.target_actor a)) k = Some t ->
        plookup (Actor.parameters (DDPGagent.actor a)) k = Some p ->
        exists t',
          plookup (Actor.parameters
                     (DDPGagent.target_actor (DDPGagent.soft_updates n a))) k = Some t' /\
          t' - p = (1 - DDPGagent.tau a) ^ n * (t - p)).
Proof.
  induction n as [|n IH]; intros a k.
  - simpl. repeat split; intros t p Ht Hp; exists t; (split; [exact Ht | ring]).
  - simpl DDPGagent.soft_updates.
    set (a1 := DDPGagent.update_target_weights a (DDPGagent.tau a)).
    destruct (update_target_weights_lookup a (DDPGagent.tau a) k)
      as (Lc & La & Ec & Ea).
    fold a1 in Lc, La, Ec, Ea.
    destruct (IH a1 k) as (I1 & I2 & I3 & I4).
    assert (Etau : DDPGagent.tau a1 = DDPGagent.tau a) by reflexivity.
    rewrite Etau in I3, I4. rewrite Ec in I1, I3. rewrite Ea in I2, I4.
    split; [exact I1|]. split; [exact I2|]. split.
    + intros t p Ht Hp. rewrite Ht, Hp in Lc. simpl in Lc.
      destruct (I3 _ p Lc Hp) as (t' & H1 & H2).
      exists t'. split; [exact H1|]. rewrite H2. simpl. ring.
    + intros t p Ht Hp. rewrite Ht, Hp in La. simpl in La.
      destruct (I4 _ p La Hp) as (t' & H1 & H2).
      exists t'. split; [exact H1|]. rewrite H2. simpl. ring.
Qed.

(** X17.  [n] soft updates with the [tau] of the agent, the online networks
    unchanged in between, leave the online networks as they are and bring
    every target parameter to the online parameter plus [(1 - tau) ^ n]
    times the initial difference; for [0 <= tau <= 2] the distance to the
    online parameter does not grow. *)
Theorem soft_updates_geometric (n : nat) (a : DDPGagent.t) (k : key) :
  DDPGagent.critic (DDPGagent.soft_updates n a) = DDPGagent.critic a /\
  DDPGagent.actor (DDPGagent.soft_updates n a) = DDPGagent.actor a /\
  (forall t p,
      plookup (Critic.parameters (DDPGagent.target_critic a)) k = Some t ->
      plookup (Critic.parameters (DDPGagent.critic a)) k = Some p ->
      exists t',
        plookup (Critic.parameters
                   (DDPGagent.target_critic (DDPGagent.soft_updates n a))) k = Some t' /\
        t' - p = (1 - DDPGagent.tau a) ^ n * (t - p) /\
        (0 <= DDPGagent.tau a <= 2 -> Rabs (t' - p) <= Rabs (t - p))) /\
  (forall t p,
      plookup (Actor.parameters (DDPGagent.target_actor a)) k = Some t ->
      plookup (Actor.parameters (DDPGagent.actor a)) k = Some p ->
      exists t',
        plookup (Actor.parameters
                   (DDPGagent.target_actor (DDPGagent.soft_updates n a))) k = Some t' /\
        t' - p = (1 - DDPGagent.tau a) ^ n * (t - p) /\
        (0 <= DDPGagent.tau a <= 2 -> Rabs (t' - p) <= Rabs (t - p))).
Proof.
  destruct (soft_updates_lookup n a k) as (I1 & I2 & I3 & I4).
  assert (B : forall t' t p,
             t' - p = (1 - DDPGagent.tau a) ^ n * (t - p) ->
             0 <= DDPGagent.tau a <= 2 -> Rabs (t' - p) <= Rabs (t - p)).
  { intros t' t p E H. rewrite E, Rabs_mult, <- RPow_abs.
    assert (H1 : 0 <= Rabs (1 - DDPGagent.tau a) <= 1)
      by (split; [apply Rabs_pos | apply Rabs_le; lra]).
    assert (H2 : Rabs (1 - DDPGagent.tau a) ^ n <= 1 ^ n) by (apply pow_incr; exact H1).
    rewrite pow1 in H2. pose proof (Rabs_pos (t - p)). nra. }
  split; [exact I1|]. split; [exact I2|]. split.
  - intros t p Ht Hp. destruct (I3 t p Ht Hp) as (t' & H1 & H2).
    exists t'. split; [exact H1|]. split; [exact H2 | apply B; exact H2].
  - intros t p Ht Hp. destruct (I4 t p Ht Hp) as (t' & H1 & H2).
    exists t'. split; [exact H1|]. split; [exact H2 | apply B; exact H2].
Qed.

Lemma soft_updates_geometric_witness :
  let k := mkKey q pbias 0 0 in
  exists t p t',
    plookup (Critic.parameters (DDPGagent.target_critic Examples.default_agent)) k = Some t /\
    plookup (Critic.parameters (DDPGagent.critic Examples.default_agent)) k = Some p /\
    plookup (Critic.parameters
               (DDPGagent.target_critic
                  (DDPGagent.soft_updates 3 Examples.default_agent))) k = Some t' /\
    t' - p = (1 - 1 / 1000) ^ 3 * (t - p).
Proof.
  intro k.
  assert (Ht : exists t,
             plookup (Critic.parameters (DDPGagent.target_critic Examples.default_agent)) k
             = Some t) by lookup_value.
  assert (Hp : exists p,
             plookup (Critic.parameters (DDPGagent.critic Examples.default_agent)) k
             = Some p) by lookup_value.
  destruct Ht as [t Ht]. destruct Hp as [p Hp].
  destruct (proj1 (proj2 (proj2 (soft_updates_geometric 3 Examples.default_agent k)))
              t p Ht Hp) as (t' & H1 & H2 & _).
  exists t, p, t'. repeat split; assumption.
Defined.

End ActorUpdate.

(** ** Replacing an optimizer *)

Section Optimizers.

Import Torch.

Lemma nth_error_imap_from {A B : Type} (f : nat -> A -> B) (l : list A) (n i : nat) :
  nth_error (imap_from n f l) i = option_map (f (n + i)%nat) (nth_error l i).
Proof.
  revert n i. induction l as [|x l IH]; intros n [|i]; simpl; try reflexivity.
  - rewrite Nat.add_0_r. reflexivity.
  - rewrite IH. replace (S n + i)%nat with (n + S i)%nat by lia. reflexivity.
Qed.

Lemma Linear_lookup_imap {A B : Type} (l : layer) (f : key -> A -> B) (m : Linear.t A)
  (pn : pname) (r c : nat) :
  Linear.lookup (Linear.imap l f m) pn r c =
  option_map (f (mkKey l pn r c)) (Linear.lookup m pn r c).
Proof.
  destruct pn; simpl.
  - unfold lookup2, imap. rewrite nth_error_imap_from. simpl.
    destruct (nth_error (Linear.weight m) r) as [row|]; simpl; [|reflexivity].
    rewrite nth_error_imap_from. reflexivity.
  - destruct (Nat.eqb_spec r 0) as [E|E]; [|reflexivity]. subst r.
    unfold imap. rewrite nth_error_imap_from. reflexivity.
Qed.

Lemma LayerNorm_lookup_imap {A B : Type} (l : layer) (f : key -> A -> B)
  (m : LayerNorm.t A) (pn : pname) (r c : nat) :
  LayerNorm.lookup (LayerNorm.imap l f m) pn r c =
  option_map (f (mkKey l pn r c)) (LayerNorm.lookup m pn r c).
Proof.
  unfold LayerNorm.lookup.
  destruct (Nat.eqb_spec r 0) as [E|E]; [|reflexivity]. subst r.
  destruct pn; simpl; unfold imap; rewrite nth_error_imap_from; reflexivity.
Qed.

(** Reading a parameter after a change of the parameters one by one. *)
Lemma Critic_lookup_imap {A B : Type} (f : key -> A -> B) (p : Critic.params A) (k : key) :
  plookup (pimap f p) k = option_map (f k) (plookup p k).
Proof.
  destruct k as [l pn r c]. simpl. unfold Critic.lookup, Critic.imap.
  destruct l; simpl;
    first [apply Linear_lookup_imap | apply LayerNorm_lookup_imap | reflexivity].
Qed.

Lemma Actor_lookup_imap {A B : Type} (f : key -> A -> B) (p : Actor.params A) (k : key) :
  plookup (pimap f p) k = option_map (f k) (plookup p k).
Proof.
  destruct k as [l pn r c]. simpl. unfold Actor.lookup, Actor.imap.
  destruct l; simpl;
    first [apply Linear_lookup_imap | apply LayerNorm_lookup_imap | reflexivity].
Qed.

(** X18.  [update_critic_optimizer] and [update_actor_optimizer] leave the
    networks, the memory and the other optimizer as they are and start the
    optimizer afresh: step counter zero, both moment estimates zero for
    every parameter, the given learning rate and no weight decay, whereas
    the constructor gives the optimizer of the critic the weight decay
    [0.01]. *)
Theorem update_optimizer_resets :
  (forall (a : DDPGagent.t) (learning_rate : R),
      let a' := DDPGagent.update_critic_optimizer a learning_rate in
      let o := DDPGagent.critic_optimizer a' in
      (DDPGagent.critic a' = DDPGagent.critic a /\
       DDPGagent.target_critic a' = DDPGagent.target_critic a /\
       DDPGagent.actor a' = DDPGagent.actor a /\
       DDPGagent.target_actor a' = DDPGagent.target_actor a /\
       DDPGagent.memory a' = DDPGagent.memory a /\
       DDPGagent.actor_optimizer a' = DDPGagent.actor_optimizer a) /\
      Adam.step_count o = 0%nat /\ Adam.lr o = learning_rate /\
      Adam.weight_decay o = 0 /\
      (forall k v,
          plookup (Critic.parameters (DDPGagent.critic a)) k = Some v ->
          plookup (Adam.exp_avg o) k = Some 0 /\
          plookup (Adam.exp_avg_sq o) k = Some 0)) /\
  (forall (a : DDPGagent.t) (learning_rate : R),
      let a' := DDPGagent.update_actor_optimizer a learning_rate in
      let o := DDPGagent.actor_optimizer a' in
      (DDPGagent.critic a' = DDPGagent.critic a /\
       DDPGagent.target_critic a' = DDPGagent.target_critic a /\
       DDPGagent.actor a' = DDPGagent.actor a /\
       DDPGagent.target_actor a' = DDPGagent.target_actor a /\
       DDPGagent.memory a' = DDPGagent.memory a /\
       DDPGagent.critic_optimizer a' = DDPGagent.critic_optimizer a) /\
      Adam.step_count o = 0%nat /\ Adam.lr o = learning_rate /\
      Adam.weight_decay o = 0 /\
      (forall k v,
          plookup (Actor.parameters (DDPGagent.actor a)) k = Some v ->
          plookup (Adam.exp_avg o) k = Some 0 /\
          plookup (Adam.exp_avg_sq o) k = Some 0)) /\
  (forall (env : DDPGagent.environment) (layer1_size layer2_size : nat)
          (replay_min : Z) (replay_size : N) (critic_lr actor_lr tau gamma : R)
          (loss : DDPGagent.criterion) (batch_size : Z)
          (name_critic name_actor : option string) (directory : string)
          (fs : filesystem) (g : Generator.t),
      let a := fst (fst (DDPGagent.init env layer1_size layer2_size replay_min
                           replay_size critic_lr actor_lr tau gamma loss batch_size
                           name_critic name_actor directory fs g)) in
      Adam.weight_decay (DDPGagent.critic_optimizer a) = 1 / 100 /\
      Adam.lr (DDPGagent.critic_optimizer a) = critic_lr /\
      Adam.weight_decay (DDPGagent.actor_optimizer a) = 0 /\
      Adam.lr (DDPGagent.actor_optimizer a) = actor_lr).
Proof.
  split; [|split].
  - intros a learning_rate a' o. repeat split.
    + unfold o, a', DDPGagent.update_critic_optimizer. simpl Adam.exp_avg.
      rewrite Critic_lookup_imap, H. reflexivity.
    + unfold o, a', DDPGagent.update_critic_optimizer. simpl Adam.exp_avg_sq.
      rewrite Critic_lookup_imap, H. reflexivity.
  - intros a learning_rate a' o. repeat split.
    + unfold o, a', DDPGagent.update_actor_optimizer. simpl Adam.exp_avg.
      rewrite Actor_lookup_imap, H. reflexivity.
    + unfold o, a', DDPGagent.update_actor_optimizer. simpl Adam.exp_avg_sq.
      rewrite Actor_lookup_imap, H. reflexivity.
  - intros. unfold a, DDPGagent.init. destruct_inits. repeat split.
Qed.

Lemma update_optimizer_resets_witness :
  let o := DDPGagent.critic_optimizer
             (DDPGagent.update_critic_optimizer Examples.default_agent (1 / 10)) in
  plookup (Adam.exp_avg o) (mkKey q pbias 0 0) = Some 0.
Proof.
  intro o.
  assert (Hv : exists v,
             plookup (Critic.parameters (DDPGagent.critic Examples.default_agent))
               (mkKey q pbias 0 0) = Some v) by lookup_value.
  destruct Hv as [v Hv].
  destruct (proj1 update_optimizer_resets Examples.default_agent (1 / 10))
    as (_ & _ & _ & _ & H).
  exact (proj1 (H _ v Hv)).
Defined.

End Optimizers.

(** ** Shapes of the outputs *)

Section Shapes.

Import Torch.

Lemma uniform__length (tensor : list R) (a b : R) (g : Generator.t) :
  length (fst (uniform_ tensor a b g)) = length tensor.
Proof.
  revert g. induction tensor as [|x rest IH]; intro g; simpl; [reflexivity|].
  specialize (IH (Generator.mk (Generator.stream g) (S (Generator.pos g)))).
  destruct (uniform_ rest a b _) as [rest' g2]. simpl in *. lia.
Qed.

Lemma Linear_init_bias (i o : nat) (g : Generator.t) :
  length (Linear.bias (fst (Linear_init i o g))) = o.
Proof.
  unfold Linear_init.
  destruct (uniform2_ _ _ _ g) as [w g1].
  match goal with
  | |- context [uniform_ ?t ?a ?b ?g] =>
      pose proof (uniform__length t a b g) as H;
      destruct (uniform_ t a b g) as [bs g2]
  end.
  simpl in *. rewrite H, repeat_length. reflexivity.
Qed.

Ltac name_linear_inits :=
  repeat match goal with
         | |- context [Linear_init ?i ?o ?g] =>
             let Hr := fresh "Hrows" in
             let Hb := fresh "Hbias" in
             pose proof (Linear_init_rows i o g) as Hr;
             pose proof (Linear_init_bias i o g) as Hb;
             destruct (Linear_init i o g)
         end.

Ltac name_uniforms :=
  repeat match goal with
         | |- context [uniform2_ ?t ?a ?b ?g] =>
             let H := fresh "Hw" in
             pose proof (uniform2__length t a b g) as H;
             destruct (uniform2_ t a b g)
         | |- context [uniform_ ?t ?a ?b ?g] =>
             let H := fresh "Hb" in
             pose proof (uniform__length t a b g) as H;
             destruct (uniform_ t a b g)
         end.

(** The output layers of the networks that the constructor of the agent
    builds: the action head has [n_actions] rows and the Q-head one. *)
Lemma Actor_head_shape (input_dim fc1_dim fc2_dim n_actions : nat)
  (name : option string) (chkpt : string) (fs : filesystem) (g g' : Generator.t) :
  let m := fst (Actor.init_weights
                  (fst (fst (Actor.init input_dim fc1_dim fc2_dim n_actions name chkpt fs g)))
                  g') in
  length (Linear.weight (Actor.mu (Actor.parameters m))) = n_actions /\
  length (Linear.bias (Actor.mu (Actor.parameters m))) = n_actions.
Proof.
  unfold Actor.init. destruct name; name_linear_inits; cbn [fst snd];
    unfold Actor.init_weights; name_uniforms; simpl in *; split; congruence.
Qed.

Lemma Critic_head_shape (input_dim fc1_dim fc2_dim n_actions : nat)
  (name : option string) (chkpt : string) (fs : filesystem) (g g' : Generator.t) :
  let m := fst (Critic.init_weights
                  (fst (fst (Critic.init input_dim fc1_dim fc2_dim n_actions name chkpt fs g)))
                  g') in
  length (Linear.weight (Critic.q (Critic.parameters m))) = 1%nat /\
  length (Linear.bias (Critic.q (Critic.parameters m))) = 1%nat.
Proof.
  unfold Critic.init. destruct name; name_linear_inits; cbn [fst snd];
    unfold Critic.init_weights; name_uniforms; simpl in *; split; congruence.
Qed.

(** The online networks of a constructed agent are the networks of the two
    class constructors after [init_weights]. *)
Lemma init_online_networks (env : DDPGagent.environment) (layer1_size layer2_size : nat)
  (replay_min : Z) (replay_size : N) (critic_lr actor_lr tau gamma : R)
  (loss : DDPGagent.criterion) (batch_size : Z) (name_critic name_actor : option string)
  (directory : string) (fs : filesystem) (g : Generator.t) :
  let a := fst (fst (DDPGagent.init env layer1_size layer2_size replay_min replay_size
                       critic_lr actor_lr tau gamma loss batch_size name_critic
                       name_actor directory fs g)) in
  let input_dim := DDPGagent.observation_space_shape env in
  let n_actions := DDPGagent.action_space_shape env in
  (exists (fs1 : filesystem) (g1 g2 : Generator.t),
      DDPGagent.critic a =
      fst (Critic.init_weights
             (fst (fst (Critic.init input_dim layer1_size layer2_size n_actions
                          name_critic directory fs1 g1))) g2)) /\
  (exists (fs1 : filesystem) (g1 g2 : Generator.t),
      DDPGagent.actor a =
      fst (Actor.init_weights
             (fst (fst (Actor.init input_dim layer1_size layer2_size n_actions
                          name_actor directory fs1 g1))) g2)).
Proof.
  unfold DDPGagent.init.
  match goal with
  | |- context [Critic.init ?i ?a ?b ?n ?nm ?d ?f ?g] =>
      destruct (Critic.init i a b n nm d f g) as [[c fs1] g1] eqn:E1
  end.
  match goal with
  | |- context [Critic.init ?i ?a ?b ?n ?nm ?d ?f ?g] =>
      destruct (Critic.init i a b n nm d f g) as [[tc fs2] g2] eqn:E2
  end.
  match goal with
  | |- context [Actor.init ?i ?a ?b ?n ?nm ?d ?f ?g] =>
      destruct (Actor.init i a b n nm d f g) as [[ac fs3] g3] eqn:E3
  end.
  match goal with
  | |- context [Actor.init ?i ?a ?b ?n ?nm ?d ?f ?g] =>
      destruct (Actor.init i a b n nm d f g) as [[tac fs4] g4] eqn:E4
  end.
  destruct (Critic.init_weights c g4) as [c' g5] eqn:E5.
  destruct (Actor.init_weights ac g5) as [ac' g6] eqn:E6.
  cbv zeta. cbn [fst snd]. unfold DDPGagent.update_target_weights.
  cbn [DDPGagent.critic DDPGagent.actor DDPGagent.set_networks].
  split.
  - exists fs, g, g4. rewrite E1. cbn [fst]. rewrite E5. reflexivity.
  - exists fs2, g2, g5. rewrite E3. cbn [fst]. rewrite E6. reflexivity.
Qed.

(** X19.  The agent that the constructor builds answers an observation of
    the shape of the observation space with one number per dimension of
    the action space, and its critic gives a state and an action of the
    shapes of the two spaces exactly one value: the sizes of the output
    layers survive [init_weights], which redraws the entries and keeps the
    shapes. *)
Theorem constructed_output_shapes (env : DDPGagent.environment)
  (layer1_size layer2_size : nat)
  (replay_min : Z) (replay_size : N) (critic_lr actor_lr tau gamma : R)
  (loss : DDPGagent.criterion) (batch_size : Z) (name_critic name_actor : option string)
  (directory : string) (fs : filesystem) (g : Generator.t)
  (observation action : list R) :
  let a := fst (fst (DDPGagent.init env layer1_size layer2_size replay_min replay_size
                       critic_lr actor_lr tau gamma loss batch_size name_critic
                       name_actor directory fs g)) in
  length observation = DDPGagent.observation_space_shape env ->
  length action = DDPGagent.action_space_shape env ->
  length (snd (DDPGagent.get_action a observation)) = DDPGagent.action_space_shape env /\
  length (Critic.forward
            (leaves OnlineCritic (Critic.parameters (DDPGagent.critic a)))
            (tensor observation) (tensor action)) = 1%nat.
Proof.
  intros a _ _.
  destruct (init_online_networks env layer1_size layer2_size replay_min replay_size
              critic_lr actor_lr tau gamma loss batch_size name_critic name_actor
              directory fs g) as [[fc [gc [gc' Ec]]] [fa [ga [ga' Ea]]]].
  fold a in Ec, Ea. split.
  - unfold DDPGagent.get_action. cbn [snd]. rewrite length_map.
    unfold Actor.forward, Torch.tanh. rewrite length_map.
    rewrite Linear_forward_length.
    cbn [Actor.set_training Actor.parameters].
    destruct (Linear_leaves_lengths Torch.mu OnlineActor
                (Actor.mu (Actor.parameters (DDPGagent.actor a)))) as [Hw Hb].
    unfold leaves. cbn [pimap Actor.Parameters_params Actor.imap Actor.mu].
    rewrite Hw, Hb, Ea.
    destruct (Actor_head_shape (DDPGagent.observation_space_shape env) layer1_size
                layer2_size (DDPGagent.action_space_shape env) name_actor directory
                fa ga ga') as [Sw Sb].
    rewrite Sw, Sb. apply Nat.min_id.
  - unfold Critic.forward. rewrite Linear_forward_length.
    destruct (Linear_leaves_lengths Torch.q OnlineCritic
                (Critic.q (Critic.parameters (DDPGagent.critic a)))) as [Hw Hb].
    unfold leaves. cbn [pimap Critic.Parameters_params Critic.imap Critic.q].
    rewrite Hw, Hb, Ec.
    destruct (Critic_head_shape (DDPGagent.observation_space_shape env) layer1_size
                layer2_size (DDPGagent.action_space_shape env) name_critic directory
                fc gc gc') as [Sw Sb].
    rewrite Sw, Sb. reflexivity.
Qed.

Lemma constructed_output_shapes_witness :
  let a := fst (fst (DDPGagent.init_default Examples.env 1 1 Examples.no_files
                       Examples.zeros)) in
  length (snd (DDPGagent.get_action a [0%R])) = 1%nat /\
  length (Critic.forward
            (leaves OnlineCritic (Critic.parameters (DDPGagent.critic a)))
            (tensor [0%R]) (tensor [0%R])) = 1%nat.
Proof.
  exact (@constructed_output_shapes Examples.env 1 1 100 1000000 (15 / 100000)
           (15 / 1000000) (1 / 1000) (99 / 100) MSELoss 64 None None "models"
           Examples.no_files Examples.zeros [0%R] [0%R] eq_refl eq_refl).
Defined.

End Shapes.
